(** * Daily Journal Bot: a shallow embedding of [journal_bot.py]

    The script wraps three things: a date-keyed path computation, an
    interactive prompt-selection loop, and a handful of calls to the
    file system and to git.  The embedding keeps the shape of the
    source: Python strings are [string], Python integers are [Z], the
    outside world (file system, wall clock, standard input and output,
    the log, the git repository) is one record threaded through an
    exception monad, and the three top-level functions [setup_repo],
    [create_journal_entry] and [commit_to_github] are transcribed
    statement by statement. *)

From Stdlib Require Import ZArith String Ascii List Bool Lia.
From Stdlib Require Import DecimalString.
From stdpp Require Import base gmap strings list.

Open Scope string_scope.
Open Scope list_scope.
Open Scope Z_scope.

(* ===================================================================== *)
(** ** Python strings *)
(* ===================================================================== *)

(** A Python [str] is a sequence of Unicode code points.  The model
    has the code points below 256 (the Latin-1 range): a character [c]
    of a [string] stands for the code point [code c], and the functions
    below are Python's [str] methods on such strings, the characters
    from 128 to 255 included (the no-break space is white space, the
    superscript two is a digit for [isdigit] and not for [int]).  Text
    with a code point from 256 on cannot be written in the model.
    [+:+] is string concatenation, [++] is list concatenation. *)
Module PyStr.

Definition nl : string := String (ascii_of_nat 10) "".

Definition code (c : ascii) : Z := Z.of_nat (nat_of_ascii c).

(** [chr(n)], the string of the one character with code point [n]. *)
Definition chr (n : nat) : string := String (ascii_of_nat n) "".

(** [str.isspace] on one character, which is what [str.strip] removes:
    TAB, LF, VT, FF, CR, the four separators FS, GS, RS, US, the blank,
    NEL (U+0085) and the no-break space (U+00A0). *)
Definition is_space (c : ascii) : bool :=
  ((9 <=? code c) && (code c <=? 13)) || ((28 <=? code c) && (code c <=? 32))
  || (code c =? 133) || (code c =? 160).

(** The decimal digits [0] to [9], the only digits of the range that
    [int] converts. *)
Definition is_digit (c : ascii) : bool := (48 <=? code c) && (code c <=? 57).

(** [str.isdigit] on one character: the decimal digits and the
    superscripts two, three and one (U+00B2, U+00B3, U+00B9). *)
Definition is_digit_char (c : ascii) : bool :=
  is_digit c || (code c =? 178) || (code c =? 179) || (code c =? 185).

(** The characters [str.lower] changes: [A] to [Z], and the accented
    capitals U+00C0 to U+00DE without the multiplication sign U+00D7;
    each is 32 below its lower-case form. *)
Definition is_upper (c : ascii) : bool :=
  ((65 <=? code c) && (code c <=? 90))
  || ((192 <=? code c) && (code c <=? 222) && negb (code c =? 215)).

Definition lower_char (c : ascii) : ascii :=
  if is_upper c then ascii_of_nat (nat_of_ascii c + 32) else c.

Fixpoint lower (s : string) : string :=
  match s with
  | EmptyString => EmptyString
  | String c r => String (lower_char c) (lower r)
  end.

Fixpoint lstrip (s : string) : string :=
  match s with
  | EmptyString => EmptyString
  | String c r => if is_space c then lstrip r else s
  end.

Fixpoint rstrip (s : string) : string :=
  match s with
  | EmptyString => EmptyString
  | String c r =>
      match rstrip r with
      | EmptyString => if is_space c then EmptyString else String c EmptyString
      | r' => String c r'
      end
  end.

(** [str.strip()] *)
Definition strip (s : string) : string := rstrip (lstrip s).

Fixpoint all_chars (p : ascii -> bool) (s : string) : bool :=
  match s with
  | EmptyString => true
  | String c r => p c && all_chars p r
  end.

(** Truthiness of a string: [bool(s)] *)
Definition truthy (s : string) : bool :=
  match s with EmptyString => false | _ => true end.

(** [str.isdigit()]: at least one character and all of them digits. *)
Definition isdigit (s : string) : bool := truthy s && all_chars is_digit_char s.

Fixpoint int_acc (s : string) (acc : Z) : Z :=
  match s with
  | EmptyString => acc
  | String c r => int_acc r (10 * acc + (code c - 48))
  end.

(** [str(n)] for an integer. *)
Definition str_of_int (n : Z) : string := NilZero.string_of_int (Z.to_int n).

(** [sys.get_int_max_str_digits()]: the longest numeral that [int]
    converts, 4300 digits unless configured otherwise (the script does
    not configure it; interpreters before 3.11 without the security fix
    have no such limit). *)
Definition INT_MAX_STR_DIGITS : Z := 4300.

(** [int(s)] on a string for which [s.isdigit()] holds, the only
    strings the script passes to it: the value of the decimal numeral,
    or [None] when [int] raises [ValueError], which it does when a
    character is not a decimal digit (a superscript) and when there are
    more digits than the limit. *)
Definition int (s : string) : option Z :=
  if truthy s && all_chars is_digit s
     && (Z.of_nat (String.length s) <=? INT_MAX_STR_DIGITS)
  then Some (int_acc s 0) else None.

(** [str(e)] for the [ValueError] that [int(s)] raises on such a
    string. *)
Definition int_error (s : string) : string :=
  if truthy s && all_chars is_digit s
  then "Exceeds the limit (4300 digits) for integer string conversion: value has "
       +:+ str_of_int (Z.of_nat (String.length s))
       +:+ " digits; use sys.set_int_max_str_digits() to increase the limit"
  else "invalid literal for int() with base 10: '" +:+ s +:+ "'".

Fixpoint zeros (n : nat) : string :=
  match n with O => EmptyString | S k => String "0" (zeros k) end.

(** Zero padding on the left up to [width] characters, as the [%02d]
    and [%04d] conversions behind [strftime] do. *)
Definition zfill (width : nat) (s : string) : string :=
  zeros (width - String.length s) +:+ s.

Fixpoint startswith (pre s : string) : bool :=
  match pre, s with
  | EmptyString, _ => true
  | String a p, String b r => Ascii.eqb a b && startswith p r
  | String _ _, EmptyString => false
  end.

Fixpoint drop (n : nat) (s : string) : string :=
  match n, s with
  | O, _ => s
  | S k, String _ r => drop k r
  | S _, EmptyString => EmptyString
  end.

Fixpoint last_char (s : string) : option ascii :=
  match s with
  | EmptyString => None
  | String c EmptyString => Some c
  | String _ r => last_char r
  end.

Definition endswith_char (c : ascii) (s : string) : bool :=
  match last_char s with
  | Some d => Ascii.eqb c d
  | None => false
  end.

(** Splitting a text into its lines at every LF. *)
Fixpoint lines_acc (s cur : string) : list string :=
  match s with
  | EmptyString => [cur]
  | String c r =>
      if Ascii.eqb c (ascii_of_nat 10) then cur :: lines_acc r ""
      else lines_acc r (cur +:+ String c "")
  end.

Definition lines (s : string) : list string := lines_acc s "".

End PyStr.

Import PyStr.

(* ===================================================================== *)
(** ** [datetime] *)
(* ===================================================================== *)

Module DateTime.

(** A naive local [datetime.datetime] object. *)
Record datetime := mk_datetime {
  year : Z; month : Z; day : Z;
  hour : Z; minute : Z; second : Z; microsecond : Z
}.

Definition is_leap (y : Z) : bool :=
  (y mod 4 =? 0) && (negb (y mod 100 =? 0) || (y mod 400 =? 0)).

Definition days_in_month (y m : Z) : Z :=
  if m =? 2 then (if is_leap y then 29 else 28)
  else if (m =? 4) || (m =? 6) || (m =? 9) || (m =? 11) then 30
  else 31.

(** The ranges the [datetime] constructor enforces. *)
Definition valid_datetime (d : datetime) : Prop :=
  1 <= year d <= 9999 /\ 1 <= month d <= 12 /\
  1 <= day d <= days_in_month (year d) (month d) /\
  0 <= hour d <= 23 /\ 0 <= minute d <= 59 /\ 0 <= second d <= 59 /\
  0 <= microsecond d <= 999999.

Definition valid_datetimeb (d : datetime) : bool :=
  (1 <=? year d) && (year d <=? 9999) && (1 <=? month d) && (month d <=? 12) &&
  (1 <=? day d) && (day d <=? days_in_month (year d) (month d)) &&
  (0 <=? hour d) && (hour d <=? 23) && (0 <=? minute d) && (minute d <=? 59) &&
  (0 <=? second d) && (second d <=? 59) &&
  (0 <=? microsecond d) && (microsecond d <=? 999999).

(** [d.replace(hour=0, minute=0, second=0, microsecond=0)] *)
Definition replace_midnight (d : datetime) : datetime :=
  {| year := year d; month := month d; day := day d;
     hour := 0; minute := 0; second := 0; microsecond := 0 |}.

(** The calendar date of a datetime. *)
Definition date_of (d : datetime) : Z * Z * Z := (year d, month d, day d).

Definition days_before_year (y : Z) : Z :=
  let p := y - 1 in p * 365 + p / 4 - p / 100 + p / 400.

Definition days_before_month (y m : Z) : Z :=
  let cumul := nth (Z.to_nat (m - 1))
                   [0; 31; 59; 90; 120; 151; 181; 212; 243; 273; 304; 334] 0 in
  if (2 <? m) && is_leap y then cumul + 1 else cumul.

(** [d.toordinal()]: 0001-01-01 is day 1. *)
Definition toordinal (d : datetime) : Z :=
  days_before_year (year d) + days_before_month (year d) (month d) + day d.

(** [d.timestamp()] for a naive datetime, in microseconds since the
    epoch; [utcoff] is the local zone's offset from UTC in seconds.
    The same unit is used for file modification times, so the source's
    comparison of two floats becomes a comparison of two integers. *)
Definition timestamp (utcoff : Z) (d : datetime) : Z :=
  (((toordinal d - 719163) * 86400
    + hour d * 3600 + minute d * 60 + second d) - utcoff) * 1000000
  + microsecond d.

Definition MONTH_NAMES : list string :=
  ["January"; "February"; "March"; "April"; "May"; "June"; "July";
   "August"; "September"; "October"; "November"; "December"].

(** The [strftime] conversions the script uses.  [%Y] is the year with
    century as a four-digit decimal number, [%m %d %H %M %S] are
    two-digit zero-padded numbers, [%B] is the full month name of the
    default (C) locale. *)
Definition fmt_Y (d : datetime) : string := zfill 4 (str_of_int (year d)).
Definition fmt_m (d : datetime) : string := zfill 2 (str_of_int (month d)).
Definition fmt_d (d : datetime) : string := zfill 2 (str_of_int (day d)).
Definition fmt_H (d : datetime) : string := zfill 2 (str_of_int (hour d)).
Definition fmt_M (d : datetime) : string := zfill 2 (str_of_int (minute d)).
Definition fmt_S (d : datetime) : string := zfill 2 (str_of_int (second d)).
Definition fmt_B (d : datetime) : string :=
  nth (Z.to_nat (month d - 1)) MONTH_NAMES "".

(** [d.strftime('%Y-%m-%d')] *)
Definition strftime_Ymd (d : datetime) : string :=
  fmt_Y d +:+ "-" +:+ fmt_m d +:+ "-" +:+ fmt_d d.

(** [d.strftime('%Y-%m-%d %H:%M:%S')] *)
Definition strftime_YmdHMS (d : datetime) : string :=
  strftime_Ymd d +:+ " " +:+ fmt_H d +:+ ":" +:+ fmt_M d +:+ ":" +:+ fmt_S d.

End DateTime.

Import DateTime.



(* ===================================================================== *)
(** ** POSIX paths *)
(* ===================================================================== *)

Module PosixPath.

Definition is_sep (c : ascii) : bool := Ascii.eqb c "/".

(** [os.path.join(a, b)] *)
Definition os_path_join (a b : string) : string :=
  if startswith "/" b then b
  else if negb (truthy a) || endswith_char "/" a then a +:+ b
  else a +:+ "/" +:+ b.

(** [(p[:i], p[i:])] for [i = p.rfind('/') + 1]. *)
Fixpoint rsplit_sep (p : string) : string * string :=
  match p with
  | EmptyString => (EmptyString, EmptyString)
  | String c r =>
      let '(h, t) := rsplit_sep r in
      if truthy h then (String c h, t)
      else if is_sep c then (String c EmptyString, r)
      else (EmptyString, String c r)
  end.

(** [s.rstrip('/')] *)
Fixpoint rstrip_sep (s : string) : string :=
  match s with
  | EmptyString => EmptyString
  | String c r =>
      match rstrip_sep r with
      | EmptyString => if is_sep c then EmptyString else String c EmptyString
      | r' => String c r'
      end
  end.

(** [os.path.split(p)] *)
Definition posix_split (p : string) : string * string :=
  let '(head, tail) := rsplit_sep p in
  if truthy head && negb (all_chars is_sep head)
  then (rstrip_sep head, tail)
  else (head, tail).

(** [str(Path(p).relative_to(base))] for paths in normal form. *)
Definition relative_to (p base : string) : option string :=
  let pre := if endswith_char "/" base then base else base +:+ "/" in
  if truthy base && startswith pre p then Some (drop (String.length pre) p)
  else if String.eqb p base then Some "."
  else None.

End PosixPath.

Import PosixPath.


(* ===================================================================== *)
(** ** The outside world *)
(* ===================================================================== *)

(** A file-system node: a regular file with its content, or a
    directory; both carry a modification time in microseconds.  The
    file system maps path strings to nodes; paths are used in normal
    form throughout.  For a regular file the time is that of its last
    write.  For a directory it is the time of its creation: the change
    that adding an entry makes to the time of the directory is not
    recorded, and nothing below is stated about the time of a
    directory that gets a new entry.  The log file [journal_bot.log] is
    not a node of this file system: what the logger writes is the
    separate channel [w_log]. *)
Inductive Node :=
  | File (content : string) (mtime : Z)
  | Dir (mtime : Z).

Global Instance Node_eq_dec : EqDecision Node.
Proof. solve_decision. Defined.

Definition node_mtime (n : Node) : Z :=
  match n with File _ t => t | Dir t => t end.

Definition is_dir (n : option Node) : bool :=
  match n with Some (Dir _) => true | _ => false end.

Inductive Level := INFO | ERROR.

(** What [input()] can meet on standard input: a line (without its
    newline) or the interrupt key; the end of the list is end of file.
    An interrupt is modelled where the script waits for the user, at
    [input()]; one that arrives at another moment (while git runs, say)
    is not, and nothing is claimed about such a run. *)
Inductive StdinEvent :=
  | Line (s : string)
  | Interrupt.

(** The state of the git repository at [REPO_PATH].  Trees map paths
    relative to the working directory to file contents: [g_index] is
    what is staged, [g_head] the tree of the last commit, [g_commits]
    the history (oldest first), [g_origin_main] what the last push sent
    to [origin/main].  Ignore rules and hooks are not modelled; a
    command that fails because of them is a fault of the world. *)
Record GitRepo := mk_repo {
  g_config : gmap string string;
  g_branch : string;
  g_index : gmap string string;
  g_head : gmap string string;
  g_commits : list (string * gmap string string);
  g_remotes : list string;
  g_origin_main : list (string * gmap string string)
}.

Record World := mk_world {
  w_fs : gmap string Node;
  w_clock : nat -> datetime;        (* successive readings of the wall clock *)
  w_tick : nat;                     (* how many readings were taken *)
  w_utcoff : Z;                     (* local zone, seconds east of UTC *)
  w_stdin : list StdinEvent;
  w_stdout : list string;
  w_log : list (Level * string);
  w_git : GitRepo;
  w_init_branch : string;           (* init.defaultBranch *)
  w_git_calls : list (list string); (* git commands run so far *)
  w_git_fault : nat -> option string; (* the n-th git command fails with this message *)
  w_repo_ok : bool                  (* a directory [.git] at REPO_PATH is a repository *)
}.

Definition set_fs (f : gmap string Node) (w : World) : World :=
  mk_world f (w_clock w) (w_tick w) (w_utcoff w) (w_stdin w) (w_stdout w)
           (w_log w) (w_git w) (w_init_branch w) (w_git_calls w) (w_git_fault w)
           (w_repo_ok w).
Definition set_tick (n : nat) (w : World) : World :=
  mk_world (w_fs w) (w_clock w) n (w_utcoff w) (w_stdin w) (w_stdout w)
           (w_log w) (w_git w) (w_init_branch w) (w_git_calls w) (w_git_fault w)
           (w_repo_ok w).
Definition set_stdin (i : list StdinEvent) (w : World) : World :=
  mk_world (w_fs w) (w_clock w) (w_tick w) (w_utcoff w) i (w_stdout w)
           (w_log w) (w_git w) (w_init_branch w) (w_git_calls w) (w_git_fault w)
           (w_repo_ok w).
Definition set_stdout (o : list string) (w : World) : World :=
  mk_world (w_fs w) (w_clock w) (w_tick w) (w_utcoff w) (w_stdin w) o
           (w_log w) (w_git w) (w_init_branch w) (w_git_calls w) (w_git_fault w)
           (w_repo_ok w).
Definition set_log (l : list (Level * string)) (w : World) : World :=
  mk_world (w_fs w) (w_clock w) (w_tick w) (w_utcoff w) (w_stdin w) (w_stdout w)
           l (w_git w) (w_init_branch w) (w_git_calls w) (w_git_fault w)
           (w_repo_ok w).
Definition set_git (g : GitRepo) (w : World) : World :=
  mk_world (w_fs w) (w_clock w) (w_tick w) (w_utcoff w) (w_stdin w) (w_stdout w)
           (w_log w) g (w_init_branch w) (w_git_calls w) (w_git_fault w)
           (w_repo_ok w).
Definition set_repo_ok (b : bool) (w : World) : World :=
  mk_world (w_fs w) (w_clock w) (w_tick w) (w_utcoff w) (w_stdin w) (w_stdout w)
           (w_log w) (w_git w) (w_init_branch w) (w_git_calls w) (w_git_fault w) b.
Definition set_git_calls (c : list (list string)) (w : World) : World :=
  mk_world (w_fs w) (w_clock w) (w_tick w) (w_utcoff w) (w_stdin w) (w_stdout w)
           (w_log w) (w_git w) (w_init_branch w) c (w_git_fault w)
           (w_repo_ok w).

(* ===================================================================== *)
(** ** Exceptions and the monad of effects *)
(* ===================================================================== *)

Inductive ExnClass :=
  | FileExistsError | FileNotFoundError | NotADirectoryError | IsADirectoryError
  | EOFError | ValueError | TypeError | RecursionError
  | GitCommandError | InvalidGitRepositoryError | NoSuchPathError
  | KeyboardInterrupt.

Record Exn := mk_exn { exn_class : ExnClass; exn_msg : string }.

(** [isinstance(e, Exception)]: every class above derives from
    [Exception] except [KeyboardInterrupt], which derives from
    [BaseException] only. *)
Definition is_Exception (e : Exn) : bool :=
  match exn_class e with KeyboardInterrupt => false | _ => true end.

Definition is_FileExistsError (e : Exn) : bool :=
  match exn_class e with FileExistsError => true | _ => false end.

Inductive Result (A : Type) :=
  | Ret (a : A)
  | Raise (e : Exn).
Arguments Ret {A} a.
Arguments Raise {A} e.

Definition M (A : Type) : Type := World -> Result A * World.

Definition ret {A} (a : A) : M A := fun w => (Ret a, w).
Definition raise {A} (c : ExnClass) (msg : string) : M A :=
  fun w => (Raise (mk_exn c msg), w).
Definition bind {A B} (m : M A) (k : A -> M B) : M B :=
  fun w => match m w with
           | (Ret a, w') => k a w'
           | (Raise e, w') => (Raise e, w')
           end.

Notation "x <- m ;; k" := (bind m (fun x => k))
  (at level 100, m at next level, right associativity).
Notation "m ;;; k" := (bind m (fun _ => k))
  (at level 100, right associativity).

(** [try: body  except <catches> as e: handler e] *)
Definition try_except {A} (body : M A) (catches : Exn -> bool)
    (handler : Exn -> M A) : M A :=
  fun w => match body w with
           | (Ret a, w') => (Ret a, w')
           | (Raise e, w') => if catches e then handler e w' else (Raise e, w')
           end.

(** [if c: body] with no [else]. *)
Definition when (c : bool) (body : M unit) : M unit :=
  if c then body else ret tt.

Definition get {A} (f : World -> A) : M A := fun w => (Ret (f w), w).
Definition modify (f : World -> World) : M unit := fun w => (Ret tt, f w).

(* ===================================================================== *)
(** ** Library calls: logging, console, clock, file system *)
(* ===================================================================== *)

(** [logger.info(msg)] and [logger.error(msg)] append a record to the
    log; the logging module does not raise. *)
Definition logger_info (msg : string) : M unit :=
  modify (fun w => set_log (w_log w ++ [(INFO, msg)]) w).
Definition logger_error (msg : string) : M unit :=
  modify (fun w => set_log (w_log w ++ [(ERROR, msg)]) w).

(** [print(s)] *)
Definition print (s : string) : M unit :=
  modify (fun w => set_stdout (w_stdout w ++ [s +:+ nl]) w).

(** [datetime.datetime.now()] takes the next reading of the clock. *)
Definition datetime_now : M datetime :=
  fun w => (Ret (w_clock w (w_tick w)), set_tick (S (w_tick w)) w).

(** The time the operating system stamps on a node it writes. *)
Definition stamp_now : M Z :=
  now <- datetime_now ;;
  off <- get w_utcoff ;;
  ret (timestamp off now).

(** [os.path.exists(p)] *)
Definition os_path_exists (p : string) : M bool :=
  get (fun w => match w_fs w !! p with Some _ => true | None => false end).

(** [os.path.isdir(p)] *)
Definition os_path_isdir (p : string) : M bool :=
  get (fun w => is_dir (w_fs w !! p)).

(** [os.path.getmtime(p)] *)
Definition os_path_getmtime (p : string) : M Z :=
  fs <- get w_fs ;;
  match fs !! p with
  | Some n => ret (node_mtime n)
  | None => raise FileNotFoundError p
  end.

(** The directory in which the last component of [name] is looked up. *)
Definition parent_of (name : string) : string :=
  let '(head, tail) := posix_split name in
  if truthy tail then head else fst (posix_split head).

(** Why the parent of [name] cannot take a new entry, if it cannot.  A
    name with no directory part lives in the current directory. *)
Definition check_parent (fs : gmap string Node) (name : string) : option ExnClass :=
  let parent := parent_of name in
  if truthy parent then
    match fs !! parent with
    | Some (Dir _) => None
    | Some (File _ _) => Some NotADirectoryError
    | None => Some FileNotFoundError
    end
  else None.

(** [os.mkdir(name)] *)
Definition os_mkdir (name : string) : M unit :=
  fs <- get w_fs ;;
  match fs !! name with
  | Some _ => raise FileExistsError name
  | None =>
      match check_parent fs name with
      | Some c => raise c name
      | None =>
          t <- stamp_now ;;
          modify (fun w => set_fs (<[name := Dir t]> (w_fs w)) w)
      end
  end.

(** [os.makedirs(name)] with [exist_ok=False], following the library's
    own recursion on the head of the path; the depth of that recursion
    is bounded by the length of the name. *)
Fixpoint os_makedirs_rec (fuel : nat) (name : string) : M unit :=
  match fuel with
  | O => raise RecursionError "maximum recursion depth exceeded"
  | S fuel' =>
      let '(head0, tail0) := posix_split name in
      let '(head, tail) :=
        if truthy tail0 then (head0, tail0) else posix_split head0 in
      head_exists <- os_path_exists head ;;
      if truthy head && truthy tail && negb head_exists then
        try_except (os_makedirs_rec fuel' head) is_FileExistsError
                   (fun _ => ret tt) ;;;
        if String.eqb tail "." then ret tt else os_mkdir name
      else os_mkdir name
  end.

Definition os_makedirs (name : string) : M unit :=
  os_makedirs_rec (S (String.length name)) name.

(** [with open(path, 'w') as f: f.write(content)] *)
Definition open_write (path content : string) : M unit :=
  fs <- get w_fs ;;
  match fs !! path with
  | Some (Dir _) => raise IsADirectoryError path
  | _ =>
      match check_parent fs path with
      | Some c => raise c path
      | None =>
          t <- stamp_now ;;
          modify (fun w => set_fs (<[path := File content t]> (w_fs w)) w)
      end
  end.

(** [Path(p).relative_to(base)], rendered with [str]. *)
Definition path_relative_to (p base : string) : M string :=
  match relative_to p base with
  | Some r => ret r
  | None => raise ValueError (p +:+ " is not in the subpath of " +:+ base)
  end.

(* ===================================================================== *)
(** ** Library calls: GitPython *)
(* ===================================================================== *)

Record RepoHandle := mk_handle { working_dir : string }.

Definition fresh_repo (branch : string) : GitRepo :=
  mk_repo ∅ branch ∅ ∅ [] [] [].

Definition set_config (c : gmap string string) (g : GitRepo) : GitRepo :=
  mk_repo c (g_branch g) (g_index g) (g_head g) (g_commits g) (g_remotes g)
          (g_origin_main g).
Definition set_index (i : gmap string string) (g : GitRepo) : GitRepo :=
  mk_repo (g_config g) (g_branch g) i (g_head g) (g_commits g) (g_remotes g)
          (g_origin_main g).
Definition add_commit (msg : string) (g : GitRepo) : GitRepo :=
  mk_repo (g_config g) (g_branch g) (g_index g) (g_index g)
          (g_commits g ++ [(msg, g_index g)]) (g_remotes g) (g_origin_main g).
Definition set_origin_main (c : list (string * gmap string string))
    (g : GitRepo) : GitRepo :=
  mk_repo (g_config g) (g_branch g) (g_index g) (g_head g) (g_commits g)
          (g_remotes g) c.

(** Running one git command: it is recorded, and it either fails for a
    reason of its own (lock held, hook refused, network down, ...) as
    the world dictates, or takes its effect. *)
Definition git_cmd {A} (args : list string) (run : M A) : M A :=
  n <- get (fun w => length (w_git_calls w)) ;;
  modify (fun w => set_git_calls (w_git_calls w ++ [args]) w) ;;;
  fault <- get (fun w => w_git_fault w n) ;;
  match fault with
  | Some msg => raise GitCommandError msg
  | None => run
  end.

(** A command run in a working directory whose [.git] is not there, or
    is not a repository, fails. *)
Definition require_repo (repo : RepoHandle) : M unit :=
  isd <- os_path_isdir (os_path_join (working_dir repo) ".git") ;;
  ok <- get w_repo_ok ;;
  if isd && ok then ret tt
  else raise GitCommandError "fatal: not a git repository".

(** [git.Repo(path)]: the path must exist and its [.git] must be a
    directory that holds a repository. *)
Definition Repo_open (path : string) : M RepoHandle :=
  fs <- get w_fs ;;
  ok <- get w_repo_ok ;;
  match fs !! path with
  | None => raise NoSuchPathError path
  | Some _ =>
      if is_dir (fs !! os_path_join path ".git") && ok then ret (mk_handle path)
      else raise InvalidGitRepositoryError path
  end.

(** [git.Repo.init(path)] *)
Definition Repo_init (path : string) : M RepoHandle :=
  ex <- os_path_exists path ;;
  when (negb ex) (os_makedirs path) ;;;
  git_cmd ["init"] (
    fs <- get w_fs ;;
    match fs !! os_path_join path ".git" with
    | Some (Dir _) =>
        ok <- get w_repo_ok ;;
        if ok then ret tt
        else
          branch <- get w_init_branch ;;
          modify (fun w => set_repo_ok true (set_git (fresh_repo branch) w))
    | Some (File _ _) => raise GitCommandError "fatal: invalid gitfile format"
    | None =>
        if is_dir (fs !! path) then
          t <- stamp_now ;;
          branch <- get w_init_branch ;;
          modify (fun w =>
            set_repo_ok true
              (set_git (fresh_repo branch)
                       (set_fs (<[os_path_join path ".git" := Dir t]> (w_fs w)) w)))
        else raise GitCommandError "fatal: cannot mkdir .git"
    end) ;;;
  Repo_open path.

(** The exception of [str(None, "utf-8")]. *)
Definition unset_value : Exn :=
  mk_exn TypeError "decoding to str: need a bytes-like object, NoneType found".

(** How GitPython renders a configuration value that is not a number:
    [force_text(value)], which returns a [str] as it is and, for
    [None], ends in [str(None, "utf-8")], a [TypeError]. *)
Definition force_text (v : option string) : M string :=
  match v with
  | Some s => ret s
  | None => raise TypeError "decoding to str: need a bytes-like object, NoneType found"
  end.

(** [git_config.set_value(section, key, value)] inside
    [with repo.config_writer() as git_config]: the value is rendered
    first, so nothing is set when rendering fails. *)
Definition config_set_value (repo : RepoHandle) (section key : string)
    (value : option string) : M unit :=
  text <- force_text value ;;
  modify (fun w =>
    set_git (set_config (<[section +:+ "." +:+ key := text]>
                           (g_config (w_git w))) (w_git w)) w).

(** Staging every regular file below a directory. *)
Definition stage_dir (fs : gmap string Node) (abs rel : string)
    (idx : gmap string string) : gmap string string :=
  map_fold (fun p n acc =>
              match n with
              | File c _ =>
                  if startswith (abs +:+ "/") p
                  then <[rel +:+ "/" +:+ drop (String.length (abs +:+ "/")) p := c]> acc
                  else acc
              | Dir _ => acc
              end) idx fs.

(** [repo.git.add(rel)] *)
Definition git_add (repo : RepoHandle) (rel : string) : M unit :=
  git_cmd ["add"; rel] (
    require_repo repo ;;;
    fs <- get w_fs ;;
    g <- get w_git ;;
    let abs := os_path_join (working_dir repo) rel in
    match fs !! abs with
    | Some (File c _) => modify (set_git (set_index (<[rel := c]> (g_index g)) g))
    | Some (Dir _) => modify (set_git (set_index (stage_dir fs abs rel (g_index g)) g))
    | None =>
        match g_index g !! rel with
        | Some _ => modify (set_git (set_index (delete rel (g_index g)) g))
        | None => raise GitCommandError
                    ("fatal: pathspec '" +:+ rel +:+ "' did not match any files")
        end
    end).

(** The paths on which the index and the last commit disagree. *)
Definition changed_paths (idx head : gmap string string) : list string :=
  (map_to_list
     (merge (fun a b : option string =>
               if decide (a = b) then None else Some tt) idx head)).*1.

Definition diff_text (paths : list string) : string :=
  fold_right (fun p acc => "diff --git a/" +:+ p +:+ " b/" +:+ p +:+ nl +:+ acc)
             "" paths.

(** [repo.git.diff('--staged')]: the text of the staged diff. *)
Definition git_diff_staged (repo : RepoHandle) : M string :=
  git_cmd ["diff"; "--staged"] (
    require_repo repo ;;;
    g <- get w_git ;;
    ret (diff_text (changed_paths (g_index g) (g_head g)))).

(** [repo.git.commit('-m', msg)] *)
Definition git_commit (repo : RepoHandle) (msg : string) : M unit :=
  git_cmd ["commit"; "-m"; msg] (
    require_repo repo ;;;
    g <- get w_git ;;
    if bool_decide (g_index g = g_head g)
    then raise GitCommandError "nothing to commit, working tree clean"
    else modify (set_git (add_commit msg g))).

(** [[remote.name for remote in repo.remotes]] *)
Definition repo_remote_names (repo : RepoHandle) : M (list string) :=
  get (fun w => g_remotes (w_git w)).

(** [repo.git.push(remote, branch)] *)
Definition git_push (repo : RepoHandle) (remote branch : string) : M unit :=
  git_cmd ["push"; remote; branch] (
    require_repo repo ;;;
    g <- get w_git ;;
    if negb (existsb (String.eqb remote) (g_remotes g))
    then raise GitCommandError
           ("fatal: '" +:+ remote +:+ "' does not appear to be a git repository")
    else if negb (String.eqb branch (g_branch g))
    then raise GitCommandError
           ("error: src refspec " +:+ branch +:+ " does not match any")
    else modify (set_git (set_origin_main (g_commits g) g))).

(* ===================================================================== *)
(** ** The program *)
(* ===================================================================== *)

Definition JOURNAL_PROMPTS : list string :=
  ["What went well today?";
   "What could have gone better?";
   "What am I grateful for today?";
   "What did I learn today?";
   "What's one thing I want to focus on tomorrow?";
   "What was the best part of my day?";
   "What challenged me today?";
   "How did I take care of myself today?";
   "What's something I accomplished today?";
   "What's something I'm looking forward to?"].

Definition README_TEXT : string :=
  "# Daily Journal" +:+ nl +:+ nl +:+
  "This repository contains my daily journal entries, automatically committed by my journal bot.".

(** [str(e)] in the two handlers. *)
Definition exn_str (e : Exn) : string := exn_msg e.

(** One line of the answer loop, once read and stripped. *)
Inductive Answer :=
  | Done                       (* the sentinel: leave the loop *)
  | Pick (prompt : string)     (* a menu number: the canned prompt *)
  | Free (text : string)       (* anything else that is not empty *)
  | Blank                      (* nothing: ask again *)
  | Invalid (msg : string).    (* [int(user_input)] raised [ValueError] *)

(** The [if]/[elif] chain of the loop body on [user_input].  The test
    [user_input.isdigit() and 1 <= int(user_input) <= len(...)]
    evaluates [int(user_input)] as soon as [isdigit] holds. *)
Definition classify (user_input : string) : Answer :=
  if String.eqb (lower user_input) "done" then Done
  else if isdigit user_input then
    match int user_input with
    | None => Invalid (int_error user_input)
    | Some n =>
        if (1 <=? n) && (n <=? Z.of_nat (length JOURNAL_PROMPTS))
        then Pick (nth (Z.to_nat (n - 1)) JOURNAL_PROMPTS "")
        else if truthy user_input then Free user_input
        else Blank
    end
  else if truthy user_input then Free user_input
  else Blank.

Definition input_prompt (count : Z) : string :=
  "Prompt " +:+ str_of_int count +:+ " (or 'done' to finish): ".

(** [while count <= 3: ...] of [create_journal_entry].  Every turn of
    the loop consumes one event of standard input, so the loop is
    written by recursion on what is left to read; [input(...)] writes
    its prompt, then returns the line, raises [EOFError] at end of
    file, or raises [KeyboardInterrupt]. *)
Fixpoint select_prompts (inp : list StdinEvent) (count : Z)
    (selected_prompts : list string) (w : World) : Result (list string) * World :=
  if count <=? 3 then
    let w1 := set_stdout (w_stdout w ++ [input_prompt count]) w in
    match inp with
    | [] => (Raise (mk_exn EOFError "EOF when reading a line"), set_stdin [] w1)
    | Interrupt :: rest => (Raise (mk_exn KeyboardInterrupt ""), set_stdin rest w1)
    | Line l :: rest =>
        let w2 := set_stdin rest w1 in
        let user_input := strip l in
        match classify user_input with
        | Done => (Ret selected_prompts, w2)
        | Pick p => select_prompts rest (count + 1) (selected_prompts ++ [p]) w2
        | Free t => select_prompts rest (count + 1) (selected_prompts ++ [t]) w2
        | Blank => select_prompts rest count selected_prompts w2
        | Invalid msg => (Raise (mk_exn ValueError msg), w2)
        end
    end
  else (Ret selected_prompts, w).

(** [for i, prompt in enumerate(JOURNAL_PROMPTS, 1): print(f"{i}. {prompt}")] *)
Fixpoint print_menu (i : Z) (prompts : list string) : M unit :=
  match prompts with
  | [] => ret tt
  | prompt :: rest =>
      print (str_of_int i +:+ ". " +:+ prompt) ;;; print_menu (i + 1) rest
  end.

Definition PLACEHOLDER : string := "_Write your thoughts here..._".

(** [content = f"# Journal Entry: {date_str}\n\n"] followed by the
    [for prompt in selected_prompts] loop. *)
Definition entry_body (date_str : string) (selected_prompts : list string) : string :=
  fold_left (fun content prompt =>
               content +:+ "## " +:+ prompt +:+ nl +:+ nl +:+ PLACEHOLDER +:+ nl +:+ nl)
            selected_prompts
            ("# Journal Entry: " +:+ date_str +:+ nl +:+ nl).

Definition entry_footer (now : datetime) : string :=
  nl +:+ "Created automatically by Journal Bot on " +:+ strftime_YmdHMS now.

Section JournalBot.

(** The module-level configuration: two environment variables (absent
    ones read as [None]) and the directory of the script. *)
Variable GITHUB_USERNAME : option string.
Variable GITHUB_EMAIL : option string.
Variable REPO_PATH : string.

(** *** [setup_repo] *)

Definition setup_repo_body : M (option RepoHandle) :=
  has_git <- os_path_isdir (os_path_join REPO_PATH ".git") ;;
  when (negb has_git) (
    logger_info "Initializing git repository..." ;;;
    repo <- Repo_init REPO_PATH ;;
    config_set_value repo "user" "name" GITHUB_USERNAME ;;;
    config_set_value repo "user" "email" GITHUB_EMAIL ;;;
    let readme_path := os_path_join REPO_PATH "README.md" in
    readme_exists <- os_path_exists readme_path ;;
    when (negb readme_exists) (
      open_write readme_path README_TEXT ;;;
      git_add repo "README.md" ;;;
      git_commit repo "Initial commit: Add README" ;;;
      logger_info "Created README and made initial commit")) ;;;
  repo <- Repo_open REPO_PATH ;;
  ret (Some repo).

Definition setup_repo : M (option RepoHandle) :=
  try_except setup_repo_body is_Exception
    (fun e =>
       logger_error ("Error setting up repository: " +:+ exn_str e) ;;;
       ret None).

(** *** [create_journal_entry] *)

(** The local variables computed from [today]. *)
Definition date_str (today : datetime) : string := strftime_Ymd today.
Definition year_str (today : datetime) : string := fmt_Y today.
Definition month_name (today : datetime) : string := lower (fmt_B today).
Definition month_year (today : datetime) : string :=
  month_name today +:+ "-" +:+ year_str today.
Definition day_number (today : datetime) : string := fmt_d today.
Definition journals_dir : string := os_path_join REPO_PATH "journals".
Definition month_dir (today : datetime) : string :=
  os_path_join journals_dir (month_year today).
Definition day_dir (today : datetime) : string :=
  os_path_join (month_dir today) (day_number today).
Definition file_path (today : datetime) : string :=
  os_path_join (day_dir today) (date_str today +:+ ".md").

(** [os.path.exists(file_path) and os.path.getmtime(file_path) >=
    today.replace(hour=0, ...).timestamp()] *)
Definition entry_is_current (today : datetime) : M bool :=
  file_exists <- os_path_exists (file_path today) ;;
  if file_exists then
    mtime <- os_path_getmtime (file_path today) ;;
    off <- get w_utcoff ;;
    ret (timestamp off (replace_midnight today) <=? mtime)
  else ret false.

Definition selection_loop : M (list string) :=
  fun w => select_prompts (w_stdin w) 1 [] w.

Definition create_journal_entry : M string :=
  today <- datetime_now ;;
  journals_exists <- os_path_exists journals_dir ;;
  when (negb journals_exists) (
    os_makedirs journals_dir ;;;
    logger_info ("Created journals directory at " +:+ journals_dir)) ;;;
  month_exists <- os_path_exists (month_dir today) ;;
  when (negb month_exists) (
    os_makedirs (month_dir today) ;;;
    logger_info ("Created month directory at " +:+ month_dir today)) ;;;
  day_exists <- os_path_exists (day_dir today) ;;
  when (negb day_exists) (
    os_makedirs (day_dir today) ;;;
    logger_info ("Created day directory at " +:+ day_dir today)) ;;;
  current <- entry_is_current today ;;
  if current then
    logger_info ("Journal entry for " +:+ date_str today
                 +:+ " already exists. Skipping creation.") ;;;
    ret (file_path today)
  else
    print (nl +:+ "===== Journal Entry Prompts =====") ;;;
    print "You can choose from the following prompts or enter your own:" ;;;
    print_menu 1 JOURNAL_PROMPTS ;;;
    print (nl +:+ "Enter up to 3 prompt numbers or type your own prompts.") ;;;
    print "Enter 'done' when finished." ;;;
    selected_prompts <- selection_loop ;;
    let content := entry_body (date_str today) selected_prompts in
    now <- datetime_now ;;
    let content := content +:+ entry_footer now in
    open_write (file_path today) content ;;;
    logger_info ("Created journal entry: " +:+ file_path today) ;;;
    ret (file_path today).

(** *** [commit_to_github] *)

Definition commit_to_github_body : M bool :=
  repo <- setup_repo ;;
  match repo with
  | None => ret false
  | Some repo =>
      entry_path <- create_journal_entry ;;
      let repo_path := working_dir repo in
      relative_path <- path_relative_to entry_path repo_path ;;
      git_add repo relative_path ;;;
      staged <- git_diff_staged repo ;;
      if negb (truthy staged) then
        logger_info "No changes to commit" ;;;
        ret false
      else
        now <- datetime_now ;;
        let today := strftime_Ymd now in
        let commit_message := "Add journal entry for " +:+ today in
        git_commit repo commit_message ;;;
        names <- repo_remote_names repo ;;
        (if existsb (String.eqb "origin") names then
           logger_info "Pushing changes to remote repository..." ;;;
           git_push repo "origin" "main"
         else
           logger_info "No remote repository configured. Skipping push." ;;;
           logger_info "To push manually, set up a remote repository and run: git push -u origin main") ;;;
        logger_info ("Successfully committed journal entry for " +:+ today) ;;;
        ret true
  end.

Definition commit_to_github : M bool :=
  try_except commit_to_github_body is_Exception
    (fun e =>
       logger_error ("Error committing to GitHub: " +:+ exn_str e) ;;;
       ret false).

(** *** [run_journal_bot] *)

Definition run_journal_bot : M unit :=
  logger_info "Running journal bot..." ;;;
  success <- commit_to_github ;;
  if success then logger_info "Journal bot completed successfully!"
  else logger_error "Journal bot failed to complete.".

End JournalBot.

(* ===================================================================== *)
(** ** What the specification says, in its own words *)
(* ===================================================================== *)

Module Spec.

(** One decimal digit of a number, as a character. *)
Definition digit (n : Z) : ascii := ascii_of_nat (48 + Z.to_nat (n mod 10)).

(** [<YYYY>]: the year on four digits. *)
Definition four_digits (y : Z) : string :=
  String (digit (y / 1000)) (String (digit (y / 100))
    (String (digit (y / 10)) (String (digit y) ""))).

(** [<DD>]: a day or month number, zero-padded to two digits. *)
Definition two_digits (n : Z) : string :=
  String (digit (n / 10)) (String (digit n) "").

(** [<month-name-lowercase>] *)
Definition month_name_lowercase (m : Z) : string :=
  nth (Z.to_nat (m - 1))
      ["january"; "february"; "march"; "april"; "may"; "june"; "july";
       "august"; "september"; "october"; "november"; "december"] "".

(** [<YYYY-MM-DD>] *)
Definition iso_date (D : Z * Z * Z) : string :=
  let '(y, m, d) := D in
  four_digits y +:+ "-" +:+ two_digits m +:+ "-" +:+ two_digits d.

(** [journals/<month-name-lowercase>-<YYYY>/<DD>/<YYYY-MM-DD>.md] *)
Definition canonical_entry_path (D : Z * Z * Z) : string :=
  let '(y, m, d) := D in
  "journals/" +:+ month_name_lowercase m +:+ "-" +:+ four_digits y
  +:+ "/" +:+ two_digits d +:+ "/" +:+ iso_date D +:+ ".md".

(** The prompt sub-headings of an entry: its lines that open with
    [## ], without that mark. *)
Definition sub_headings (content : string) : list string :=
  map (drop 3) (filter (fun l => Is_true (startswith "## " l)) (lines content)).

End Spec.


(** The state in which an answer leaves the console: the prompt of the
    slot has been written and one event has been read. *)
Definition after_input (count : Z) (rest : list StdinEvent) (w : World) : World :=
  set_stdin rest (set_stdout (w_stdout w ++ [input_prompt count]) w).

(* ===================================================================== *)
(** ** Sample worlds *)
(* ===================================================================== *)

Module Sample.

Definition root : string := "/home/me/bot".

(** A clock that advances by one second per reading on 2024-03-05. *)
Definition clock (n : nat) : datetime := mk_datetime 2024 3 5 9 0 (Z.of_nat n) 0.

(** A first run: the script's directory exists and nothing else does. *)
Definition first_run (answers : list StdinEvent) : World :=
  mk_world (<[root := Dir 0]> ∅) clock 0 3600 answers [] []
           (fresh_repo "main") "main" [] (fun _ => None) true.

(** A directory that already holds a README of the user's own and no
    repository. *)
Definition with_readme : World :=
  mk_world (<[os_path_join root "README.md" := File "my notes" 0]>
              (<[root := Dir 0]> ∅))
           clock 0 3600 [] [] [] (fresh_repo "main") "main" [] (fun _ => None) true.

(** The world that the first run of [create_journal_entry] leaves when
    the user answers [done] at once. *)
Definition after_first_entry : World :=
  snd (create_journal_entry root (first_run [Line "done"])).

(** The world that a complete first run of [commit_to_github] leaves:
    repository initialised, entry written and committed, no remote. *)
Definition after_first_commit : World :=
  snd (commit_to_github (Some "me") (Some "me@example.org") root
         (first_run [Line "done"])).

Definition entry_rel : string := "journals/march-2024/05/2024-03-05.md".

End Sample.

(* ===================================================================== *)
(** ** Shapes of strings and paths used in the statements *)
(* ===================================================================== *)

(** A character that is neither the path separator nor a line break. *)
Definition plain_char (c : ascii) : bool :=
  negb (is_sep c) && negb (Ascii.eqb c (ascii_of_nat 10)).

(** A path component: non-empty, made of plain characters. *)
Definition component (s : string) : bool := truthy s && all_chars plain_char s.

(** A directory name in normal form, as [os.path.abspath] and
    [os.path.dirname] return it: not empty, and without a trailing
    separator unless it is the root. *)
Definition normal_dir (a : string) : bool :=
  truthy a && (all_chars is_sep a || negb (endswith_char "/" a)).

(** A node that does not stand in the way of a directory. *)
Definition absent_or_dir (n : option Node) : bool :=
  match n with None | Some (Dir _) => true | Some (File _ _) => false end.

(** A node that does not stand in the way of a regular file. *)
Definition absent_or_file (n : option Node) : bool :=
  match n with None | Some (File _ _) => true | Some (Dir _) => false end.

(** The world after [os.mkdir(d)] has succeeded: one reading of the
    clock, one new directory. *)
Definition mkdir_world (d : string) (w : World) : World :=
  set_fs (<[d := Dir (timestamp (w_utcoff w) (w_clock w (w_tick w)))]> (w_fs w))
         (set_tick (S (w_tick w)) w).

(** The world after [if not os.path.exists(d): os.makedirs(d);
    logger.info(msg)] when the parent of [d] is there. *)
Definition ensured (d msg : string) (w : World) : World :=
  match w_fs w !! d with
  | Some _ => w
  | None => set_log (w_log (mkdir_world d w) ++ [(INFO, msg)]) (mkdir_world d w)
  end.

(** The world after [open(path, 'w')] and [write(content)] have
    succeeded. *)
Definition written (path content : string) (w : World) : World :=
  set_fs (<[path := File content (timestamp (w_utcoff w) (w_clock w (w_tick w)))]> (w_fs w))
         (set_tick (S (w_tick w)) w).

(** The test of [create_journal_entry] for skipping the creation, on a
    file system. *)
Definition current_in (fs : gmap string Node) (off : Z) (path : string)
    (today : datetime) : bool :=
  match fs !! path with
  | Some n => timestamp off (replace_midnight today) <=? node_mtime n
  | None => false
  end.

(** What a run may change in the world and what it keeps: the clock
    and the time zone stay, readings are only ever taken, and no path
    disappears from the file system. *)
Definition extends (w w' : World) : Prop :=
  w_clock w' = w_clock w /\ w_utcoff w' = w_utcoff w /\
  (w_tick w <= w_tick w')%nat /\
  (forall p, is_Some (w_fs w !! p) -> is_Some (w_fs w' !! p)).

(** Readings of the clock never go back. *)
Definition monotone_clock (w : World) : Prop :=
  forall i j, (i <= j)%nat ->
    timestamp (w_utcoff w) (w_clock w i) <= timestamp (w_utcoff w) (w_clock w j).

(** A computation that only ever extends the world, whatever its
    outcome. *)
Definition preserves {A} (m : M A) : Prop :=
  forall w r w', m w = (r, w') -> extends w w'.

(** What [create_journal_entry] prints before it asks its questions. *)
Definition menu_lines : list string :=
  [nl +:+ "===== Journal Entry Prompts =====" +:+ nl;
   "You can choose from the following prompts or enter your own:" +:+ nl;
   "1. What went well today?" +:+ nl;
   "2. What could have gone better?" +:+ nl;
   "3. What am I grateful for today?" +:+ nl;
   "4. What did I learn today?" +:+ nl;
   "5. What's one thing I want to focus on tomorrow?" +:+ nl;
   "6. What was the best part of my day?" +:+ nl;
   "7. What challenged me today?" +:+ nl;
   "8. How did I take care of myself today?" +:+ nl;
   "9. What's something I accomplished today?" +:+ nl;
   "10. What's something I'm looking forward to?" +:+ nl;
   nl +:+ "Enter up to 3 prompt numbers or type your own prompts." +:+ nl;
   "Enter 'done' when finished." +:+ nl].

(** The world in which the questions are asked: today's clock reading
    is taken, the three directories are there, the menu is shown. *)
Definition ready_to_ask (R : string) (w : World) : World :=
  let today := w_clock w (w_tick w) in
  let wd :=
    ensured (day_dir R today) ("Created day directory at " +:+ day_dir R today)
      (ensured (month_dir R today) ("Created month directory at " +:+ month_dir R today)
         (ensured (journals_dir R) ("Created journals directory at " +:+ journals_dir R)
            (set_tick (S (w_tick w)) w))) in
  set_stdout (w_stdout wd ++ menu_lines) wd.

(** The world in which [create_journal_entry] returns after writing
    the entry, given the world [wl] in which the answer loop ended and
    the prompts [sel] it selected. *)
Definition entry_written (R : string) (today : datetime) (sel : list string)
    (wl : World) : World :=
  let content :=
    entry_body (date_str today) sel +:+ entry_footer (w_clock wl (w_tick wl)) in
  let ww := written (file_path R today) content (set_tick (S (w_tick wl)) wl) in
  set_log (w_log ww ++ [(INFO, "Created journal entry: " +:+ file_path R today)]) ww.

(** The file system lets [create_journal_entry] create today's entry:
    the script's directory exists, nothing but directories stands on
    the way to the entry, and the entry itself is absent or a regular
    file that was last written before today. *)
Definition can_create (R : string) (w : World) : bool :=
  let today := w_clock w (w_tick w) in
  is_dir (w_fs w !! R)
  && absent_or_dir (w_fs w !! journals_dir R)
  && absent_or_dir (w_fs w !! month_dir R today)
  && absent_or_dir (w_fs w !! day_dir R today)
  && absent_or_file (w_fs w !! file_path R today)
  && negb (current_in (w_fs w) (w_utcoff w) (file_path R today) today).

(** The world after [git.Repo.init] has created a repository. *)
Definition init_world (R : string) (w : World) : World :=
  set_repo_ok true
    (set_git (fresh_repo (w_init_branch w))
       (set_fs (<[os_path_join R ".git" :=
                    Dir (timestamp (w_utcoff w) (w_clock w (w_tick w)))]> (w_fs w))
          (set_tick (S (w_tick w))
             (set_git_calls (w_git_calls w ++ [["init"]]) w)))).

(** No git command fails for a reason of its own. *)
Definition no_faults (w : World) : Prop := forall k, w_git_fault w k = None.

(** The lines [print_menu] writes. *)
Fixpoint menu_items (i : Z) (prompts : list string) : list string :=
  match prompts with
  | [] => []
  | prompt :: rest =>
      ((str_of_int i +:+ ". " +:+ prompt) +:+ nl) :: menu_items (i + 1) rest
  end.

(** The state in which the specification says [setup_repo] leaves a
    directory that had no repository: a repository, the configured
    identity, the fixed README, and an initial commit that contains
    it. *)
Definition initialised_with_readme (U E : option string) (R : string)
    (w' : World) : Prop :=
  is_dir (w_fs w' !! os_path_join R ".git") = true
  /\ g_config (w_git w') !! "user.name" = U
  /\ g_config (w_git w') !! "user.email" = E
  /\ (exists t, w_fs w' !! os_path_join R "README.md" = Some (File README_TEXT t))
  /\ (exists tree,
        In ("Initial commit: Add README", tree) (g_commits (w_git w'))
        /\ tree !! "README.md" = Some README_TEXT).

(** A computation that leaves standard input alone and raises nothing
    but instances of [Exception]. *)
Definition quiet {A} (m : M A) : Prop :=
  forall w r w', m w = (r, w') ->
    w_stdin w' = w_stdin w
    /\ match r with Ret _ => True | Raise e => is_Exception e = true end.

(** A computation that only consumes standard input and whose only
    exception outside [Exception] is the [KeyboardInterrupt] of an
    interrupt waiting on standard input. *)
Definition contained {A} (m : M A) : Prop :=
  forall w r w', m w = (r, w') ->
    incl (w_stdin w') (w_stdin w)
    /\ match r with
       | Ret _ => True
       | Raise e =>
           is_Exception e = true
           \/ (exn_class e = KeyboardInterrupt /\ In Interrupt (w_stdin w))
       end.

(* ===================================================================== *)
(** ** Notions used in the further properties *)
(* ===================================================================== *)

(** The text that one line of input adds to the selection, if any. *)
Definition selected_text (l : string) : option string :=
  match classify (strip l) with
  | Pick p => Some p
  | Free t => Some t
  | Done | Blank | Invalid _ => None
  end.

(** A computation that leaves one aspect [f] of the world as it found
    it, whatever its outcome. *)
Definition keeps {B A} (f : World -> B) (m : M A) : Prop :=
  forall w r w', m w = (r, w') -> f w' = f w.

(** The repository as git sees it and the commands run so far. *)
Definition git_view (w : World) : GitRepo * list (list string) :=
  (w_git w, w_git_calls w).

(** The console. *)
Definition console_view (w : World) : list StdinEvent * list string :=
  (w_stdin w, w_stdout w).

(** The entry path relative to the repository root, as the code builds
    it. *)
Definition entry_relpath (today : datetime) : string :=
  "journals" +:+ "/" +:+ month_year today +:+ "/" +:+ day_number today
  +:+ "/" +:+ (date_str today +:+ ".md").

(** A text without a line break, as [input()] returns it. *)
Definition one_line (s : string) : bool :=
  all_chars (fun c => negb (Ascii.eqb c (ascii_of_nat 10))) s.

(** A repository that already exists, on branch [main], with a remote
    named "origin"; [fault] says which git commands fail. *)
Definition with_origin (fault : nat -> option string) (answers : list StdinEvent)
    : World :=
  mk_world (<[os_path_join Sample.root ".git" := Dir 0]> (<[Sample.root := Dir 0]> ∅))
           Sample.clock 0 3600 answers [] []
           (mk_repo ∅ "main" ∅ ∅ [] ["origin"] []) "main" [] fault true.

(** The network is down: the fourth git command of the run, the push,
    fails. *)
Definition push_fails (n : nat) : option string :=
  if Nat.eqb n 3 then Some "fatal: unable to access remote" else None.

(** A computation whose every run, whatever its outcome, takes the
    world to one related to it by [Rel]. *)
Definition along (Rel : World -> World -> Prop) {A} (m : M A) : Prop :=
  forall w r w', m w = (r, w') -> Rel w w'.

(** Every node of the model that was there, other than [q], is there
    unchanged. *)
Definition untouched_except (q : string) (w w' : World) : Prop :=
  forall p n, p <> q -> w_fs w !! p = Some n -> w_fs w' !! p = Some n.

(** The log is only ever appended to. *)
Definition log_grows (w w' : World) : Prop := w_log w `prefix_of` w_log w'.

(** A directory in which today's entry is left over from an earlier
    time: the tree is there, the entry was last written in 1970. *)
Definition stale_entry (answers : list StdinEvent) : World :=
  mk_world (<["/home/me/bot/journals/march-2024/05/2024-03-05.md" := File "old text" 0]>
              (<["/home/me/bot/journals/march-2024/05" := Dir 0]>
                 (<["/home/me/bot/journals/march-2024" := Dir 0]>
                    (<["/home/me/bot/journals" := Dir 0]>
                       (<[Sample.root := Dir 0]> ∅)))))
           Sample.clock 0 3600 answers [] [] (fresh_repo "main") "main" []
           (fun _ => None) true.

(* ===================================================================== *)
(** ** The library model on examples *)
(* ===================================================================== *)

Example strftime_example :
  strftime_YmdHMS (mk_datetime 2024 3 5 9 7 0 12) = "2024-03-05 09:07:00"
  /\ lower (fmt_B (mk_datetime 2024 3 5 9 7 0 12)) = "march"
  /\ timestamp 0 (mk_datetime 1970 1 1 0 0 1 5) = 1000005
  /\ timestamp 3600 (mk_datetime 2024 3 5 0 0 0 0) = 1709593200000000.
Proof. repeat split; vm_compute; reflexivity. Qed.

Example str_examples :
  strip (" Done" +:+ nl) = "Done" /\ lower "DoNe" = "done"
  /\ isdigit "007" = true /\ int "007" = Some 7 /\ isdigit "" = false
  /\ isdigit "-1" = false /\ str_of_int 12 = "12"
  /\ lines ("a" +:+ nl +:+ "b") = ["a"; "b"].
Proof. repeat split; vm_compute; reflexivity. Qed.

(** The characters from 128 on: the no-break space and NEL are white
    space, the superscript two is a digit that [int] refuses, accented
    capitals have a lower case; and [int] refuses a numeral of more
    than 4300 digits. *)
Example latin1_examples :
  strip (chr 160 +:+ "x" +:+ chr 133) = "x"
  /\ isdigit (chr 178) = true /\ int (chr 178) = None
  /\ int_error (chr 178) = "invalid literal for int() with base 10: '" +:+ chr 178 +:+ "'"
  /\ isdigit (chr 188) = false
  /\ lower (chr 201) = chr 233 /\ lower (chr 215) = chr 215
  /\ (exists n, int (zeros (Z.to_nat 4300)) = Some n)
  /\ int (zeros (Z.to_nat 4301)) = None
  /\ int_error (zeros (Z.to_nat 4301))
     = "Exceeds the limit (4300 digits) for integer string conversion: value has 4301 digits; use sys.set_int_max_str_digits() to increase the limit".
Proof.
  repeat split; try (vm_compute; reflexivity).
  exists 0. vm_compute. reflexivity.
Qed.

Example path_examples :
  os_path_join "/home/me/bot" "journals" = "/home/me/bot/journals"
  /\ os_path_join "/" "journals" = "/journals"
  /\ posix_split "/home/me/bot/journals" = ("/home/me/bot", "journals")
  /\ posix_split "/journals" = ("/", "journals")
  /\ posix_split "a//b/" = ("a//b", "")
  /\ relative_to "/home/me/bot/journals/x.md" "/home/me/bot" = Some "journals/x.md".
Proof. repeat split; vm_compute; reflexivity. Qed.

Example canonical_entry_path_example :
  Spec.canonical_entry_path (2024, 3, 5) = "journals/march-2024/05/2024-03-05.md".
Proof. vm_compute. reflexivity. Qed.

(* ===================================================================== *)
(** ** Reasoning about the monad *)
(* ===================================================================== *)

Lemma bind_eq_ret {A B} (m : M A) (k : A -> M B) w a w1 :
  m w = (Ret a, w1) -> bind m k w = k a w1.
Proof. intros H. unfold bind. rewrite H. reflexivity. Qed.

Lemma bind_eq_raise {A B} (m : M A) (k : A -> M B) w e w1 :
  m w = (Raise e, w1) -> bind m k w = (Raise e, w1).
Proof. intros H. unfold bind. rewrite H. reflexivity. Qed.

Lemma bind_ret_inv {A B} (m : M A) (k : A -> M B) w b w' :
  bind m k w = (Ret b, w') ->
  exists a w1, m w = (Ret a, w1) /\ k a w1 = (Ret b, w').
Proof.
  unfold bind. destruct (m w) as [[a|e] w1]; intros H.
  - eauto.
  - discriminate.
Qed.

Lemma bind_raise_inv {A B} (m : M A) (k : A -> M B) w e w' :
  bind m k w = (Raise e, w') ->
  m w = (Raise e, w') \/ exists a w1, m w = (Ret a, w1) /\ k a w1 = (Raise e, w').
Proof.
  unfold bind. destruct (m w) as [[a|e0] w1]; intros H.
  - right. eauto.
  - left. injection H as -> ->. reflexivity.
Qed.

(* ===================================================================== *)
(** ** The answer loop *)
(* ===================================================================== *)

Section AnswerLoop.

Variables (rest : list StdinEvent) (sel : list string) (w : World).

Lemma select_prompts_line l count :
  count <= 3 ->
  select_prompts (Line l :: rest) count sel w =
  match classify (strip l) with
  | Done => (Ret sel, after_input count rest w)
  | Pick p => select_prompts rest (count + 1) (sel ++ [p]) (after_input count rest w)
  | Free t => select_prompts rest (count + 1) (sel ++ [t]) (after_input count rest w)
  | Blank => select_prompts rest count sel (after_input count rest w)
  | Invalid msg => (Raise (mk_exn ValueError msg), after_input count rest w)
  end.
Proof.
  intros Hc. simpl. destruct (Z.leb_spec count 3); [reflexivity | lia].
Qed.

Lemma select_prompts_full inp count :
  3 < count -> select_prompts inp count sel w = (Ret sel, w).
Proof.
  intros Hc. destruct inp; simpl; destruct (Z.leb_spec count 3); try lia; reflexivity.
Qed.

Lemma select_prompts_done count :
  count <= 3 ->
  select_prompts (Line "done" :: rest) count sel w = (Ret sel, after_input count rest w).
Proof. intros Hc. now rewrite select_prompts_line. Qed.

End AnswerLoop.



Lemma digit_is_digit_char c : is_digit c = true -> is_digit_char c = true.
Proof. unfold is_digit_char. now intros ->. Qed.



Lemma isdigit_truthy u : isdigit u = true -> truthy u = true.
Proof. unfold isdigit. intros H. now apply andb_prop in H as [-> _]. Qed.





Lemma classify_blank u : classify u = Blank <-> u = "".
Proof.
  split.
  - unfold classify. destruct (String.eqb (lower u) "done"); [discriminate|].
    destruct (isdigit u) eqn:Hd.
    + rewrite (isdigit_truthy u Hd).
      destruct (int u) as [n|]; [|discriminate].
      destruct ((1 <=? n) && _); discriminate.
    + destruct u; [reflexivity | discriminate].
  - intros ->. reflexivity.
Qed.

Lemma classify_selects u p :
  classify u = Pick p \/ classify u = Free p -> p <> "".
Proof.
  unfold classify. destruct (String.eqb (lower u) "done").
  { intros [Ha|Ha]; discriminate Ha. }
  assert (Hfree : forall a : Answer,
             a = (if truthy u then Free u else Blank) -> a = Pick p \/ a = Free p -> p <> "").
  { intros a -> [Ha|Ha]; destruct u; try discriminate Ha. now injection Ha as <-. }
  destruct (isdigit u); [|now apply Hfree].
  destruct (int u) as [n|]; [|intros [Ha|Ha]; discriminate Ha].
  change (Z.of_nat (length JOURNAL_PROMPTS)) with 10.
  destruct (Z.leb_spec 1 n); [|now apply Hfree].
  destruct (Z.leb_spec n 10); [|now apply Hfree].
  cbn [andb]. intros [Ha|Ha]; [|discriminate Ha]. injection Ha as <-.
  assert (Hn : (Z.to_nat (n - 1) < 10)%nat) by lia.
  revert Hn. generalize (Z.to_nat (n - 1)). intros k Hk.
  do 10 (destruct k as [|k]; [discriminate|]). lia.
Qed.


Lemma select_prompts_stdout inp : forall count sel w r w',
  count <= 3 ->
  select_prompts inp count sel w = (r, w') ->
  exists more, w_stdout w' = w_stdout w ++ [input_prompt count] ++ more.
Proof.
  assert (Hany : forall inp count sel w r w',
             select_prompts inp count sel w = (r, w') ->
             exists more, w_stdout w' = w_stdout w ++ more).
  { clear inp. induction inp as [|ev rest IH]; intros count sel w r w' H.
    - simpl in H. destruct (count <=? 3); inversion H; subst; simpl.
      + eexists; reflexivity.
      + exists []. now rewrite app_nil_r.
    - simpl in H. destruct (count <=? 3).
      2:{ inversion H; subst. exists []. now rewrite app_nil_r. }
      destruct ev as [l|].
      2:{ inversion H; subst; simpl. eexists; reflexivity. }
      destruct (classify (strip l)).
      1, 5:(inversion H; subst; simpl; eexists; reflexivity).
      all: apply IH in H as [more Hm]; simpl in Hm; rewrite Hm, <- app_assoc;
        eexists; reflexivity. }
  intros count sel w r w' Hc H.
  destruct inp as [|ev rest]; simpl in H; destruct (Z.leb_spec count 3); try lia.
  - inversion H; subst; simpl. exists []. reflexivity.
  - destruct ev as [l|].
    2:{ inversion H; subst; simpl. exists []. reflexivity. }
    destruct (classify (strip l)).
    1, 5:(inversion H; subst; simpl; exists []; reflexivity).
    all: apply Hany in H as [more Hm]; simpl in Hm; rewrite Hm, <- app_assoc;
      eexists; reflexivity.
Qed.

(** C10. In the answer loop an input line that is empty once stripped is
    ignored: the loop goes on with the same counter and the same list
    of selected prompts, and asks again for the same slot (the prompt
    of that slot is written a second time); so a blank line before
    [done] changes nothing in what is selected, and a blank line before
    the third selection does not take its place.  A line that is not
    empty once stripped is never passed over: it ends the loop (the
    sentinel), or makes [int] raise, or appends one non-empty prompt and
    moves the counter to the next slot. *)
Theorem blank_answer_keeps_slot (l : string) rest count sel w :
  count <= 3 ->
  let here := select_prompts (Line l :: rest) count sel w in
  let after := after_input count rest w in
  (strip l = "" ->
     here = select_prompts rest count sel after
     /\ (forall r w', here = (r, w') ->
           exists more,
             w_stdout w' = w_stdout w ++ [input_prompt count; input_prompt count] ++ more)
     /\ (forall rest', rest = Line "done" :: rest' ->
           here = (Ret sel, after_input count rest' after))
     /\ (forall l2 p rest', rest = Line l2 :: rest' -> selected_text l2 = Some p ->
           count = 3 -> here = (Ret (sel ++ [p]), after_input count rest' after)))
  /\ (strip l <> "" ->
      here = (Ret sel, after)
      \/ (exists msg, here = (Raise (mk_exn ValueError msg), after))
      \/ exists p, p <> ""
           /\ here = select_prompts rest (count + 1) (sel ++ [p]) after).
Proof.
  intros Hc here after. subst here after.
  rewrite (select_prompts_line rest sel w l count Hc). split.
  - intros Hs. apply classify_blank in Hs. rewrite Hs.
    split; [reflexivity|]. split; [|split].
    + intros r w' H. apply select_prompts_stdout in H as [more Hm]; [|exact Hc].
      simpl in Hm. exists more. rewrite Hm, <- app_assoc. reflexivity.
    + intros rest' ->. now apply select_prompts_done.
    + intros l2 p rest' -> Hp ->. rewrite select_prompts_line by lia.
      unfold selected_text in Hp.
      destruct (classify (strip l2)); try discriminate Hp;
        injection Hp as ->; now rewrite select_prompts_full by lia.
  - intros Hs. destruct (classify (strip l)) eqn:Hcl.
    + left; reflexivity.
    + right; right. exists prompt. split; [|reflexivity].
      apply (classify_selects (strip l)). now left.
    + right; right. exists text. split; [|reflexivity].
      apply (classify_selects (strip l)). now right.
    + apply classify_blank in Hcl. contradiction.
    + right; left. eexists; reflexivity.
Qed.

Lemma blank_answer_keeps_slot_witness :
  select_prompts [Line (" " +:+ chr 160); Line "done"] 2 ["x"] (Sample.first_run [])
  = (Ret ["x"],
     after_input 2 [] (after_input 2 [Line "done"] (Sample.first_run [])))
  /\ select_prompts [Line "  "; Line "2"; Line "never read"] 3 ["x"; "y"]
       (Sample.first_run [])
     = (Ret ["x"; "y"; "What could have gone better?"],
        after_input 3 [Line "never read"]
          (after_input 3 [Line "2"; Line "never read"] (Sample.first_run []))).
Proof.
  split.
  - destruct (blank_answer_keeps_slot (" " +:+ chr 160) [Line "done"] 2 ["x"]
                (Sample.first_run [])) as (H & _); [lia|].
    destruct (H eq_refl) as (_ & _ & Hdone & _). now apply Hdone.
  - destruct (blank_answer_keeps_slot "  " [Line "2"; Line "never read"] 3 ["x"; "y"]
                (Sample.first_run [])) as (H & _); [lia|].
    destruct (H eq_refl) as (_ & _ & _ & Hthird).
    apply (Hthird "2" "What could have gone better?"); reflexivity.
Defined.




(* ===================================================================== *)
(** ** Strings and paths *)
(* ===================================================================== *)

Lemma append_cons c a b : String c a +:+ b = String c (a +:+ b).
Proof. reflexivity. Qed.

Lemma append_empty b : "" +:+ b = b.
Proof. reflexivity. Qed.

Lemma all_chars_app p a b :
  all_chars p (a +:+ b) = all_chars p a && all_chars p b.
Proof.
  induction a as [|c a IH]; simpl; [reflexivity|].
  rewrite IH. now rewrite andb_assoc.
Qed.

Lemma truthy_app_r a b : truthy b = true -> truthy (a +:+ b) = true.
Proof. destruct a; simpl; auto. Qed.

Lemma truthy_app_l a b : truthy a = true -> truthy (a +:+ b) = true.
Proof. destruct a; simpl; intros H; [discriminate | reflexivity]. Qed.

Lemma last_char_app a b : truthy b = true -> last_char (a +:+ b) = last_char b.
Proof.
  intros Hb. induction a as [|c a IH]; [reflexivity|].
  change (String c a +:+ b) with (String c (a +:+ b)). simpl last_char.
  destruct (a +:+ b) eqn:E; [|exact IH].
  destruct a; [|discriminate E].
  change (b = "") in E. subst b. discriminate Hb.
Qed.

Lemma endswith_app c a b :
  truthy b = true -> endswith_char c (a +:+ b) = endswith_char c b.
Proof. intros Hb. unfold endswith_char. now rewrite last_char_app. Qed.

Lemma last_char_all p s c :
  all_chars p s = true -> last_char s = Some c -> p c = true.
Proof.
  induction s as [|d s IH]; simpl; [discriminate|].
  intros H. apply andb_prop in H as [Hd Hs].
  destruct s; [intros [= <-]; exact Hd | auto].
Qed.

Lemma component_no_trailing_sep b : component b = true -> endswith_char "/" b = false.
Proof.
  unfold component, endswith_char. intros H. apply andb_prop in H as [_ Ha].
  destruct (last_char b) as [d|] eqn:E; [|reflexivity].
  pose proof (last_char_all _ _ _ Ha E) as Hp. unfold plain_char, is_sep in Hp.
  rewrite Ascii.eqb_sym. revert Hp.
  destruct (Ascii.eqb d "/"); simpl; intros Hp; [discriminate Hp | reflexivity].
Qed.

Lemma component_not_absolute b : component b = true -> startswith "/" b = false.
Proof.
  unfold component. destruct b as [|c b]; [reflexivity|].
  cbn [startswith truthy all_chars andb].
  unfold plain_char, is_sep. rewrite (Ascii.eqb_sym "/" c).
  destruct (Ascii.eqb c "/"); simpl; intros Hp; [discriminate Hp | reflexivity].
Qed.

Lemma component_no_sep b : component b = true -> all_chars (fun c => negb (is_sep c)) b = true.
Proof.
  unfold component. intros H. apply andb_prop in H as [_ H].
  induction b as [|c b IH]; simpl in *; [reflexivity|].
  apply andb_prop in H as [Hc Hb]. rewrite (IH Hb).
  unfold plain_char in Hc. apply andb_prop in Hc as [-> _]. reflexivity.
Qed.

Lemma rsplit_sep_tail t :
  all_chars (fun c => negb (is_sep c)) t = true -> rsplit_sep t = ("", t).
Proof.
  induction t as [|c t IH]; simpl; [reflexivity|].
  intros H. apply andb_prop in H as [Hc Ht]. rewrite (IH Ht). simpl.
  destruct (is_sep c); [discriminate | reflexivity].
Qed.

Lemma rsplit_sep_app h t :
  all_chars (fun c => negb (is_sep c)) t = true ->
  h = "" \/ endswith_char "/" h = true ->
  rsplit_sep (h +:+ t) = (h, t).
Proof.
  intros Ht. induction h as [|c h IH]; intros Hh.
  - now apply rsplit_sep_tail.
  - change (String c h +:+ t) with (String c (h +:+ t)). cbn [rsplit_sep].
    destruct Hh as [Hh|Hh]; [discriminate|].
    destruct h as [|d h].
    + change ("" +:+ t) with t. rewrite (rsplit_sep_tail _ Ht). cbn [truthy].
      unfold endswith_char in Hh. cbn [last_char] in Hh. unfold is_sep.
      rewrite Ascii.eqb_sym, Hh. reflexivity.
    + rewrite IH; [reflexivity|]. right. exact Hh.
Qed.

Lemma rstrip_sep_id a : endswith_char "/" a = false -> rstrip_sep a = a.
Proof.
  induction a as [|c a IH]; [reflexivity|].
  intros H. cbn [rstrip_sep]. destruct a as [|d a].
  - cbn [rstrip_sep]. unfold endswith_char in H. cbn [last_char] in H.
    unfold is_sep. rewrite Ascii.eqb_sym, H. reflexivity.
  - rewrite IH; [reflexivity | exact H].
Qed.

Lemma rstrip_sep_snoc a : rstrip_sep (a +:+ "/") = rstrip_sep a.
Proof.
  induction a as [|c a IH]; [reflexivity|].
  change (String c a +:+ "/") with (String c (a +:+ "/")).
  cbn [rstrip_sep]. now rewrite IH.
Qed.

Lemma all_sep_ends a :
  truthy a = true -> all_chars is_sep a = true -> endswith_char "/" a = true.
Proof.
  intros Ht Ha. unfold endswith_char.
  destruct (last_char a) as [d|] eqn:E.
  - pose proof (last_char_all _ _ _ Ha E) as Hp. unfold is_sep in Hp.
    now rewrite Ascii.eqb_sym.
  - destruct a as [|c a]; [discriminate|]. exfalso. clear -E.
    revert c E. induction a as [|d a IH]; intros c E; simpl in E; [discriminate|].
    now apply (IH d).
Qed.

Lemma append_assoc a b c : (a +:+ b) +:+ c = a +:+ (b +:+ c).
Proof.
  induction a as [|x a IH]; [reflexivity|].
  rewrite !append_cons. now rewrite IH.
Qed.

Lemma length_append x y :
  String.length (x +:+ y) = (String.length x + String.length y)%nat.
Proof.
  induction x as [|c x IH]; [reflexivity|].
  change (String c x +:+ y) with (String c (x +:+ y)). cbn [String.length].
  now rewrite IH.
Qed.

Section JoinSplit.

Variables a b : string.
Hypothesis Ha : normal_dir a = true.
Hypothesis Hb : component b = true.

Lemma os_path_join_normal :
  os_path_join a b = (if endswith_char "/" a then a else a +:+ "/") +:+ b.
Proof.
  unfold os_path_join. rewrite (component_not_absolute _ Hb).
  unfold normal_dir in Ha. apply andb_prop in Ha as [Ht _]. rewrite Ht. simpl.
  destruct (endswith_char "/" a); [reflexivity|].
  now rewrite append_assoc.
Qed.

Lemma posix_split_join : posix_split (os_path_join a b) = (a, b).
Proof.
  rewrite os_path_join_normal. unfold posix_split.
  pose proof Ha as Hn. unfold normal_dir in Hn.
  apply andb_prop in Hn as [Ht Hn].
  destruct (endswith_char "/" a) eqn:He.
  - rewrite rsplit_sep_app; [|now apply component_no_sep | now right].
    cbn [negb] in Hn. rewrite orb_false_r in Hn. rewrite Hn, Ht. reflexivity.
  - rewrite rsplit_sep_app; [|now apply component_no_sep|].
    2:{ right. now rewrite endswith_app. }
    rewrite (truthy_app_l _ _ Ht), all_chars_app.
    destruct (all_chars is_sep a) eqn:Hall.
    + rewrite (all_sep_ends _ Ht Hall) in He. discriminate.
    + simpl. now rewrite rstrip_sep_snoc, rstrip_sep_id.
Qed.

Lemma parent_of_join : parent_of (os_path_join a b) = a.
Proof.
  unfold parent_of. rewrite posix_split_join.
  unfold component in Hb. apply andb_prop in Hb as [-> _]. reflexivity.
Qed.

Lemma normal_dir_join : normal_dir (os_path_join a b) = true.
Proof.
  rewrite os_path_join_normal. unfold normal_dir.
  pose proof Hb as Hc. unfold component in Hc. apply andb_prop in Hc as [Ht _].
  rewrite (truthy_app_r _ _ Ht), (endswith_app _ _ _ Ht).
  rewrite (component_no_trailing_sep _ Hb). simpl. now rewrite orb_true_r.
Qed.

Lemma os_path_join_neq : os_path_join a b <> a.
Proof.
  intros E. pose proof posix_split_join as Hs. rewrite E in Hs.
  pose proof (f_equal String.length E) as Hl.
  rewrite os_path_join_normal in Hl.
  rewrite length_append in Hl.
  unfold component in Hb. apply andb_prop in Hb as [Ht _].
  destruct b; [discriminate|]. cbn [String.length] in Hl.
  destruct (endswith_char "/" a); [|rewrite length_append in Hl];
    cbn [String.length] in Hl; lia.
Qed.

End JoinSplit.

(** *** The strings built from a date are path components *)

Lemma plain_uint d : all_chars plain_char (NilEmpty.string_of_uint d) = true.
Proof. induction d; cbn [NilEmpty.string_of_uint all_chars]; rewrite ?IHd; reflexivity. Qed.

Lemma plain_str_of_int z : all_chars plain_char (str_of_int z) = true.
Proof.
  unfold str_of_int. destruct (Z.to_int z) as [d|d]; cbn [NilZero.string_of_int].
  - destruct d; try reflexivity; apply (plain_uint (_ d)).
  - cbn [all_chars]. destruct d; try reflexivity; apply (plain_uint (_ d)).
Qed.

Lemma truthy_str_of_int z : truthy (str_of_int z) = true.
Proof.
  unfold str_of_int. destruct (Z.to_int z) as [d|d]; cbn [NilZero.string_of_int].
  - destruct d; reflexivity.
  - reflexivity.
Qed.

Lemma plain_zeros n : all_chars plain_char (zeros n) = true.
Proof. induction n; cbn [zeros all_chars]; rewrite ?IHn; reflexivity. Qed.

Lemma plain_zfill n s : all_chars plain_char s = true -> all_chars plain_char (zfill n s) = true.
Proof. intros H. unfold zfill. now rewrite all_chars_app, plain_zeros, H. Qed.

Lemma truthy_zfill n s : truthy s = true -> truthy (zfill n s) = true.
Proof. intros H. unfold zfill. now apply truthy_app_r. Qed.

Lemma component_zfill n z : component (zfill n (str_of_int z)) = true.
Proof.
  unfold component.
  rewrite truthy_zfill by apply truthy_str_of_int.
  rewrite plain_zfill by apply plain_str_of_int. reflexivity.
Qed.

Lemma plain_month_name today : all_chars plain_char (lower (fmt_B today)) = true.
Proof.
  unfold fmt_B.
  assert (H : Forall (fun s => all_chars plain_char (lower s) = true) MONTH_NAMES).
  { repeat constructor. }
  generalize (Z.to_nat (month today - 1)). intros n.
  revert n. induction H as [|s l Hs Hl IH]; intros [|n]; cbn [nth]; auto.
Qed.

Lemma component_app a b : component a = true -> component b = true -> component (a +:+ b) = true.
Proof.
  unfold component. intros Ha Hb.
  apply andb_prop in Ha as [Ha1 Ha2]. apply andb_prop in Hb as [Hb1 Hb2].
  now rewrite (truthy_app_l _ _ Ha1), all_chars_app, Ha2, Hb2.
Qed.

Lemma component_date_str today : component (strftime_Ymd today) = true.
Proof.
  unfold strftime_Ymd.
  apply component_app; [apply component_zfill|].
  apply component_app; [reflexivity|].
  apply component_app; [apply component_zfill|].
  apply component_app; [reflexivity|].
  apply component_zfill.
Qed.

Section DatePaths.

Variable REPO_PATH : string.
Variable today : datetime.

Lemma component_month_year : component (month_year today) = true.
Proof.
  unfold month_year, month_name, year_str, component.
  rewrite truthy_app_r.
  2:{ apply truthy_app_l. reflexivity. }
  rewrite !all_chars_app, plain_month_name. unfold fmt_Y.
  rewrite plain_zfill by apply plain_str_of_int. reflexivity.
Qed.

Lemma component_day_number : component (day_number today) = true.
Proof. apply component_zfill. Qed.

Lemma component_file_name : component (date_str today +:+ ".md") = true.
Proof. apply component_app; [apply component_date_str | reflexivity]. Qed.

Hypothesis Hroot : normal_dir REPO_PATH = true.

Lemma normal_journals_dir : normal_dir (journals_dir REPO_PATH) = true.
Proof. now apply normal_dir_join. Qed.

Lemma normal_month_dir : normal_dir (month_dir REPO_PATH today) = true.
Proof.
  apply normal_dir_join; [apply normal_journals_dir | apply component_month_year].
Qed.

Lemma normal_day_dir : normal_dir (day_dir REPO_PATH today) = true.
Proof.
  apply normal_dir_join; [apply normal_month_dir | apply component_day_number].
Qed.

Lemma parent_of_journals_dir : parent_of (journals_dir REPO_PATH) = REPO_PATH.
Proof. now apply parent_of_join. Qed.

Lemma parent_of_month_dir :
  parent_of (month_dir REPO_PATH today) = journals_dir REPO_PATH.
Proof.
  apply parent_of_join; [apply normal_journals_dir | apply component_month_year].
Qed.

Lemma parent_of_day_dir :
  parent_of (day_dir REPO_PATH today) = month_dir REPO_PATH today.
Proof.
  apply parent_of_join; [apply normal_month_dir | apply component_day_number].
Qed.

Lemma parent_of_file_path :
  parent_of (file_path REPO_PATH today) = day_dir REPO_PATH today.
Proof.
  apply parent_of_join; [apply normal_day_dir | apply component_file_name].
Qed.

Lemma file_path_neq_day_dir : file_path REPO_PATH today <> day_dir REPO_PATH today.
Proof.
  apply os_path_join_neq; [apply normal_day_dir | apply component_file_name].
Qed.

End DatePaths.

(* ===================================================================== *)
(** ** Running the library calls *)
(* ===================================================================== *)

Lemma os_makedirs_child a b w :
  normal_dir a = true -> component b = true ->
  is_dir (w_fs w !! a) = true ->
  w_fs w !! os_path_join a b = None ->
  os_makedirs (os_path_join a b) w = (Ret tt, mkdir_world (os_path_join a b) w).
Proof.
  intros Ha Hb Hdir Hnone.
  unfold os_makedirs. cbn [os_makedirs_rec].
  rewrite (posix_split_join a b Ha Hb).
  pose proof Hb as Hc. unfold component in Hc. apply andb_prop in Hc as [Ht _].
  rewrite Ht.
  unfold bind at 1. unfold os_path_exists at 1, get at 1.
  destruct (w_fs w !! a) as [[c m|m]|] eqn:Ea; try discriminate Hdir.
  rewrite andb_false_r.
  unfold os_mkdir, bind, get. rewrite Hnone.
  unfold check_parent. rewrite (parent_of_join a b Ha Hb).
  unfold normal_dir in Ha. apply andb_prop in Ha as [-> _]. rewrite Ea.
  reflexivity.
Qed.

Lemma open_write_ok a b content w :
  normal_dir a = true -> component b = true ->
  is_dir (w_fs w !! a) = true ->
  absent_or_file (w_fs w !! os_path_join a b) = true ->
  open_write (os_path_join a b) content w
  = (Ret tt, written (os_path_join a b) content w).
Proof.
  intros Ha Hb Hdir Hfile.
  unfold open_write, bind, get.
  assert (Hcp : check_parent (w_fs w) (os_path_join a b) = None).
  { unfold check_parent. rewrite (parent_of_join a b Ha Hb).
    unfold normal_dir in Ha. apply andb_prop in Ha as [-> _].
    destruct (w_fs w !! a) as [[c m|m]|]; try discriminate Hdir. reflexivity. }
  destruct (w_fs w !! os_path_join a b) as [[c m|m]|]; try discriminate Hfile;
    rewrite Hcp; reflexivity.
Qed.

Lemma entry_is_current_eq R today w :
  entry_is_current R today w
  = (Ret (current_in (w_fs w) (w_utcoff w) (file_path R today) today), w).
Proof.
  unfold entry_is_current, current_in.
  unfold bind at 1. unfold os_path_exists at 1, get at 1.
  destruct (w_fs w !! file_path R today) as [n|] eqn:E; [|reflexivity].
  unfold os_path_getmtime, bind, get. rewrite E. reflexivity.
Qed.

(** One of the three [if not os.path.exists(d): ...] blocks. *)
Lemma ensure_dir_ok {A} a b msg (k : M A) w :
  normal_dir a = true -> component b = true ->
  is_dir (w_fs w !! a) = true ->
  absent_or_dir (w_fs w !! os_path_join a b) = true ->
  (d_exists <- os_path_exists (os_path_join a b) ;;
   when (negb d_exists) (os_makedirs (os_path_join a b) ;;; logger_info msg) ;;; k) w
  = k (ensured (os_path_join a b) msg w).
Proof.
  intros Ha Hb Hdir Habs.
  unfold bind at 1. unfold os_path_exists at 1, get at 1.
  unfold ensured.
  destruct (w_fs w !! os_path_join a b) as [n|] eqn:E.
  - reflexivity.
  - cbn [negb when].
    unfold bind at 1. unfold bind at 1.
    rewrite (os_makedirs_child a b w Ha Hb Hdir E).
    reflexivity.
Qed.

Lemma ensured_fs_other d msg w p :
  p <> d -> w_fs (ensured d msg w) !! p = w_fs w !! p.
Proof.
  intros Hne. unfold ensured. destruct (w_fs w !! d); [reflexivity|].
  cbn. now rewrite lookup_insert_ne.
Qed.

Lemma ensured_is_dir d msg w :
  absent_or_dir (w_fs w !! d) = true -> is_dir (w_fs (ensured d msg w) !! d) = true.
Proof.
  unfold ensured. destruct (w_fs w !! d) as [[c m|m]|] eqn:E; intros H;
    try discriminate H.
  - now rewrite E.
  - cbn. now rewrite lookup_insert_eq.
Qed.

Lemma ensured_frame d msg w :
  w_stdin (ensured d msg w) = w_stdin w /\ w_stdout (ensured d msg w) = w_stdout w
  /\ w_utcoff (ensured d msg w) = w_utcoff w /\ w_clock (ensured d msg w) = w_clock w
  /\ w_git (ensured d msg w) = w_git w
  /\ w_git_calls (ensured d msg w) = w_git_calls w
  /\ (w_tick w <= w_tick (ensured d msg w))%nat.
Proof.
  unfold ensured. destruct (w_fs w !! d); cbn; repeat split; lia.
Qed.

(* ===================================================================== *)
(** ** [create_journal_entry]: the branch that skips *)
(* ===================================================================== *)

Lemma exists_then_skip {A} d (body : M unit) (k : M A) w :
  is_Some (w_fs w !! d) ->
  (d_exists <- os_path_exists d ;; when (negb d_exists) body ;;; k) w = k w.
Proof.
  intros [n Hn]. unfold bind at 1. unfold os_path_exists, get. rewrite Hn.
  reflexivity.
Qed.

Lemma create_journal_entry_skip R w :
  let today := w_clock w (w_tick w) in
  is_Some (w_fs w !! journals_dir R) ->
  is_Some (w_fs w !! month_dir R today) ->
  is_Some (w_fs w !! day_dir R today) ->
  current_in (w_fs w) (w_utcoff w) (file_path R today) today = true ->
  create_journal_entry R w
  = (Ret (file_path R today),
     set_log (w_log w ++ [(INFO, "Journal entry for " +:+ date_str today
                                 +:+ " already exists. Skipping creation.")])
             (set_tick (S (w_tick w)) w)).
Proof.
  intros today Hj Hm Hd Hcur.
  unfold create_journal_entry.
  unfold bind at 1. unfold datetime_now at 1. fold today.
  rewrite exists_then_skip by exact Hj.
  rewrite exists_then_skip by exact Hm.
  rewrite exists_then_skip by exact Hd.
  unfold bind at 1. rewrite entry_is_current_eq.
  cbn [w_fs w_utcoff set_tick]. rewrite Hcur.
  reflexivity.
Qed.

(* ===================================================================== *)
(** ** What every run keeps *)
(* ===================================================================== *)

Lemma extends_refl w : extends w w.
Proof. unfold extends. repeat split; auto. Qed.

Lemma extends_trans w1 w2 w3 : extends w1 w2 -> extends w2 w3 -> extends w1 w3.
Proof.
  intros (Hc1 & Ho1 & Ht1 & Hf1) (Hc2 & Ho2 & Ht2 & Hf2).
  unfold extends. repeat split; try congruence; try lia. auto.
Qed.

Lemma extends_mkdir_world d w : extends w (mkdir_world d w).
Proof.
  unfold extends, mkdir_world. cbn. repeat split; try lia.
  intros p Hp. destruct (decide (d = p)) as [->|Hne].
  - rewrite lookup_insert_eq. eauto.
  - now rewrite lookup_insert_ne.
Qed.

Lemma extends_written p c w : extends w (written p c w).
Proof.
  unfold extends, written. cbn. repeat split; try lia.
  intros q Hq. destruct (decide (p = q)) as [->|Hne].
  - rewrite lookup_insert_eq. eauto.
  - now rewrite lookup_insert_ne.
Qed.

Section Preserves.

Lemma preserves_ret {A} (a : A) : preserves (ret a).
Proof. intros w r w' H. inversion H; subst. apply extends_refl. Qed.

Lemma preserves_raise {A} c msg : preserves (@raise A c msg).
Proof. intros w r w' H. inversion H; subst. apply extends_refl. Qed.

Lemma preserves_get {A} (f : World -> A) : preserves (get f).
Proof. intros w r w' H. inversion H; subst. apply extends_refl. Qed.

Lemma preserves_bind {A B} (m : M A) (k : A -> M B) :
  preserves m -> (forall a, preserves (k a)) -> preserves (bind m k).
Proof.
  intros Hm Hk w r w' H. unfold bind in H.
  destruct (m w) as [[a|e] w1] eqn:E.
  - eapply extends_trans; [eapply Hm; exact E | eapply Hk; exact H].
  - inversion H; subst. eapply Hm; exact E.
Qed.

Lemma preserves_try_except {A} (m : M A) c h :
  preserves m -> (forall e, preserves (h e)) -> preserves (try_except m c h).
Proof.
  intros Hm Hh w r w' H. unfold try_except in H.
  destruct (m w) as [[a|e] w1] eqn:E.
  - inversion H; subst. eapply Hm; exact E.
  - destruct (c e).
    + eapply extends_trans; [eapply Hm; exact E | eapply Hh; exact H].
    + inversion H; subst. eapply Hm; exact E.
Qed.

Lemma preserves_when c m : preserves m -> preserves (when c m).
Proof. intros Hm. destruct c; [exact Hm | apply preserves_ret]. Qed.

Lemma preserves_logger_info msg : preserves (logger_info msg).
Proof. intros w r w' H. inversion H; subst. unfold extends; cbn; auto. Qed.

Lemma preserves_logger_error msg : preserves (logger_error msg).
Proof. intros w r w' H. inversion H; subst. unfold extends; cbn; auto. Qed.

Lemma preserves_print s : preserves (print s).
Proof. intros w r w' H. inversion H; subst. unfold extends; cbn; auto. Qed.

Lemma preserves_datetime_now : preserves datetime_now.
Proof.
  intros w r w' H. inversion H; subst. unfold extends; cbn. repeat split; auto.
Qed.

Lemma preserves_os_path_exists p : preserves (os_path_exists p).
Proof. apply preserves_get. Qed.

Lemma preserves_os_path_isdir p : preserves (os_path_isdir p).
Proof. apply preserves_get. Qed.

Lemma os_mkdir_inv name w r w' :
  os_mkdir name w = (r, w') ->
  (r = Ret tt /\ w' = mkdir_world name w) \/ ((exists e, r = Raise e) /\ w' = w).
Proof.
  unfold os_mkdir, bind, get. destruct (w_fs w !! name).
  - intros H. inversion H; subst. right. eauto.
  - destruct (check_parent (w_fs w) name).
    + intros H. inversion H; subst. right. eauto.
    + intros H. inversion H; subst. left. split; reflexivity.
Qed.

Lemma preserves_os_mkdir name : preserves (os_mkdir name).
Proof.
  intros w r w' H. apply os_mkdir_inv in H as [[_ ->]|[_ ->]].
  - apply extends_mkdir_world.
  - apply extends_refl.
Qed.

Lemma preserves_os_makedirs_rec fuel : forall name, preserves (os_makedirs_rec fuel name).
Proof.
  induction fuel as [|fuel IH]; intros name.
  - apply preserves_raise.
  - cbn [os_makedirs_rec].
    destruct (posix_split name) as [head0 tail0].
    destruct (if truthy tail0 then (head0, tail0) else posix_split head0) as [head tail].
    apply preserves_bind; [apply preserves_os_path_exists|]. intros ex.
    destruct (truthy head && truthy tail && negb ex).
    + apply preserves_bind.
      * apply preserves_try_except; [apply IH | intros; apply preserves_ret].
      * intros _. destruct (String.eqb tail ".");
          [apply preserves_ret | apply preserves_os_mkdir].
    + apply preserves_os_mkdir.
Qed.

Lemma preserves_os_makedirs name : preserves (os_makedirs name).
Proof. apply preserves_os_makedirs_rec. Qed.

Lemma open_write_inv path content w r w' :
  open_write path content w = (r, w') ->
  (r = Ret tt /\ w' = written path content w) \/ ((exists e, r = Raise e) /\ w' = w).
Proof.
  unfold open_write, bind, get.
  assert (Hgo : (match check_parent (w_fs w) path with
                | Some c => raise c path
                | None => fun w0 : World =>
                    let (r0, w'0) := stamp_now w0 in
                    match r0 with
                    | Ret a => modify (fun w1 => set_fs (<[path:=File content a]> (w_fs w1)) w1) w'0
                    | Raise e => (Raise e, w'0)
                    end
                end) w = (r, w') ->
               (r = Ret tt /\ w' = written path content w) \/ ((exists e, r = Raise e) /\ w' = w)).
  { destruct (check_parent (w_fs w) path); intros H; inversion H; subst.
    - right. eauto.
    - left. split; reflexivity. }
  destruct (w_fs w !! path) as [[c m|m]|]; try exact Hgo.
  intros H. inversion H; subst. right. eauto.
Qed.

Lemma preserves_open_write path content : preserves (open_write path content).
Proof.
  intros w r w' H. apply open_write_inv in H as [[_ ->]|[_ ->]].
  - apply extends_written.
  - apply extends_refl.
Qed.

Lemma preserves_print_menu prompts : forall i, preserves (print_menu i prompts).
Proof.
  induction prompts as [|p rest IH]; intros i; cbn [print_menu].
  - apply preserves_ret.
  - apply preserves_bind; [apply preserves_print | intros; apply IH].
Qed.

Lemma select_prompts_extends inp : forall count sel w r w',
  select_prompts inp count sel w = (r, w') ->
  extends w w' /\ w_fs w' = w_fs w /\ w_tick w' = w_tick w.
Proof.
  induction inp as [|ev rest IH]; intros count sel w r w' H.
  - cbn [select_prompts] in H. destruct (count <=? 3); inversion H; subst;
      unfold extends; cbn; auto 10.
  - cbn [select_prompts] in H. destruct (count <=? 3).
    2:{ inversion H; subst. unfold extends; auto 10. }
    destruct ev as [l|].
    2:{ inversion H; subst. unfold extends; cbn; auto 10. }
    destruct (classify (strip l)).
    1, 5:(inversion H; subst; unfold extends; cbn; auto 10).
    all: apply IH in H as (He & Hf & Ht); cbn in Hf, Ht; split; [|auto];
      eapply extends_trans; [|exact He]; unfold extends; cbn; auto 10.
Qed.

Lemma preserves_selection_loop : preserves selection_loop.
Proof. intros w r w' H. now apply select_prompts_extends in H. Qed.

Lemma preserves_entry_is_current R today : preserves (entry_is_current R today).
Proof.
  intros w r w' H. rewrite entry_is_current_eq in H. inversion H; subst.
  apply extends_refl.
Qed.

End Preserves.

Lemma preserves_create_journal_entry R : preserves (create_journal_entry R).
Proof.
  unfold create_journal_entry.
  repeat first
    [ apply preserves_when
    | apply preserves_datetime_now
    | apply preserves_os_path_exists
    | apply preserves_os_makedirs
    | apply preserves_logger_info
    | apply preserves_entry_is_current
    | apply preserves_print
    | apply preserves_print_menu
    | apply preserves_selection_loop
    | apply preserves_open_write
    | apply preserves_ret
    | match goal with |- preserves (if ?c then _ else _) => destruct c end
    | apply preserves_bind; [|intros ?] ].
Qed.

Ltac solve_preserves :=
  repeat first
    [ apply preserves_when
    | apply preserves_datetime_now
    | apply preserves_os_path_exists
    | apply preserves_os_makedirs
    | apply preserves_logger_info
    | apply preserves_entry_is_current
    | apply preserves_print
    | apply preserves_print_menu
    | apply preserves_selection_loop
    | apply preserves_open_write
    | apply preserves_ret
    | match goal with |- preserves (if ?c then _ else _) => destruct c end
    | apply preserves_bind; [|intros ?] ].

(** From [H : m w = (r, w')], the fact [extends w w']. *)
Ltac extends_of H name :=
  match type of H with
  | ?m ?w = (_, ?w') =>
      let Hp := fresh in
      assert (Hp : preserves m) by solve_preserves;
      pose proof (Hp _ _ _ H) as name; clear Hp
  end.

Lemma length_zfill n s : (n <= String.length (zfill n s))%nat.
Proof.
  unfold zfill. rewrite length_append.
  assert (Hz : forall k, String.length (zeros k) = k).
  { induction k; cbn [zeros String.length]; auto. }
  rewrite Hz. lia.
Qed.

Lemma long_not_dot s : (2 <= String.length s)%nat -> String.eqb s "." = false.
Proof.
  intros H. apply String.eqb_neq. intros ->. cbn in H. lia.
Qed.

Lemma month_year_not_dot today : String.eqb (month_year today) "." = false.
Proof.
  apply long_not_dot. unfold month_year, year_str, fmt_Y.
  rewrite !length_append. pose proof (length_zfill 4 (str_of_int (year today))). lia.
Qed.

Lemma day_number_not_dot today : String.eqb (day_number today) "." = false.
Proof. apply long_not_dot. apply length_zfill. Qed.

Lemma os_makedirs_created a b w w' :
  normal_dir a = true -> component b = true -> String.eqb b "." = false ->
  os_makedirs (os_path_join a b) w = (Ret tt, w') ->
  is_Some (w_fs w' !! os_path_join a b).
Proof.
  intros Ha Hb Hdot H.
  unfold os_makedirs in H. cbn [os_makedirs_rec] in H.
  rewrite (posix_split_join a b Ha Hb) in H.
  pose proof Hb as Hc. unfold component in Hc. apply andb_prop in Hc as [Ht _].
  rewrite Ht in H.
  apply bind_ret_inv in H as (ex & w1 & Hex & H).
  assert (Hmk : forall w0, os_mkdir (os_path_join a b) w0 = (Ret tt, w') ->
                           is_Some (w_fs w' !! os_path_join a b)).
  { intros w0 Hm. apply os_mkdir_inv in Hm as [[_ ->]|[[e He] _]]; [|discriminate He].
    unfold mkdir_world. cbn. rewrite lookup_insert_eq. eauto. }
  match type of H with (if ?c then _ else _) _ = _ => destruct c end.
  - apply bind_ret_inv in H as (u & w2 & _ & H). rewrite Hdot in H. eauto.
  - eauto.
Qed.

(** One of the three [if not os.path.exists(d): ...] blocks, read
    backwards: when it completes, [d] is there. *)
Lemma ensure_dir_inv a b msg ex w w' w2 :
  normal_dir a = true -> component b = true -> String.eqb b "." = false ->
  os_path_exists (os_path_join a b) w = (Ret ex, w') ->
  when (negb ex) (os_makedirs (os_path_join a b) ;;; logger_info msg) w' = (Ret tt, w2) ->
  is_Some (w_fs w2 !! os_path_join a b).
Proof.
  intros Ha Hb Hdot Hex H.
  unfold os_path_exists, get in Hex. inversion Hex; subst; clear Hex.
  destruct (w_fs w' !! os_path_join a b) as [n|] eqn:E.
  - cbn in H. inversion H; subst. rewrite E. eauto.
  - cbn [negb when] in H.
    apply bind_ret_inv in H as ([] & w1 & Hmk & Hlog).
    apply (os_makedirs_created a b w' w1 Ha Hb Hdot) in Hmk.
    inversion Hlog; subst. exact Hmk.
Qed.

(* ===================================================================== *)
(** ** [create_journal_entry]: what holds whenever it returns *)
(* ===================================================================== *)

Lemma extends_some w w' p :
  extends w w' -> is_Some (w_fs w !! p) -> is_Some (w_fs w' !! p).
Proof. intros (_ & _ & _ & H). apply H. Qed.

Lemma create_journal_entry_post R w p w1 :
  normal_dir R = true ->
  create_journal_entry R w = (Ret p, w1) ->
  let today := w_clock w (w_tick w) in
  p = file_path R today /\ extends w w1
  /\ is_Some (w_fs w1 !! journals_dir R)
  /\ is_Some (w_fs w1 !! month_dir R today)
  /\ is_Some (w_fs w1 !! day_dir R today)
  /\ exists n, w_fs w1 !! p = Some n
       /\ (timestamp (w_utcoff w) (replace_midnight today) <= node_mtime n
           \/ exists k, (w_tick w <= k)%nat
                /\ node_mtime n = timestamp (w_utcoff w) (w_clock w k)).
Proof.
  intros HR H today.
  pose proof (preserves_create_journal_entry R _ _ _ H) as Hext.
  unfold create_journal_entry in H.
  apply bind_ret_inv in H as (t0 & wa & Hnow & H).
  assert (t0 = today /\ extends w wa) as [-> Hwa].
  { inversion Hnow; subst. split; [reflexivity|].
    eapply preserves_datetime_now. reflexivity. }
  clear Hnow.
  (* journals *)
  apply bind_ret_inv in H as (ex1 & wa' & Hex1 & H).
  apply bind_ret_inv in H as ([] & wb & Hmk1 & H).
  pose proof (ensure_dir_inv R "journals" _ _ _ _ _ HR eq_refl eq_refl Hex1 Hmk1) as Hj.
  extends_of Hex1 Hea. extends_of Hmk1 Heb. extends_of H Hb1.
  clear Hex1 Hmk1.
  (* month *)
  apply bind_ret_inv in H as (ex2 & wb' & Hex2 & H).
  apply bind_ret_inv in H as ([] & wc & Hmk2 & H).
  pose proof (ensure_dir_inv _ _ _ _ _ _ _ (normal_journals_dir R HR)
                (component_month_year today) (month_year_not_dot today) Hex2 Hmk2) as Hm.
  extends_of Hex2 Hec. extends_of Hmk2 Hed. extends_of H Hc1.
  clear Hex2 Hmk2.
  (* day *)
  apply bind_ret_inv in H as (ex3 & wc' & Hex3 & H).
  apply bind_ret_inv in H as ([] & wd & Hmk3 & H).
  pose proof (ensure_dir_inv _ _ _ _ _ _ _ (normal_month_dir R today HR)
                (component_day_number today) (day_number_not_dot today) Hex3 Hmk3) as Hd.
  extends_of Hex3 Hee. extends_of Hmk3 Hef. extends_of H Hd1.
  clear Hex3 Hmk3.
  assert (Hwd : extends w wd).
  { eapply extends_trans; [exact Hwa|]. eapply extends_trans; [exact Hea|].
    eapply extends_trans; [exact Heb|]. eapply extends_trans; [exact Hec|].
    eapply extends_trans; [exact Hed|]. eapply extends_trans; [exact Hee|].
    exact Hef. }
  assert (Hj1 : is_Some (w_fs w1 !! journals_dir R))
    by exact (extends_some _ _ _ Hb1 Hj).
  assert (Hm1 : is_Some (w_fs w1 !! month_dir R today))
    by exact (extends_some _ _ _ Hc1 Hm).
  assert (Hdd : is_Some (w_fs w1 !! day_dir R today))
    by exact (extends_some _ _ _ Hd1 Hd).
  clear Hwa Hea Heb Hec Hed Hee Hef Hb1 Hc1 Hd1 Hj Hm Hd.
  apply bind_ret_inv in H as (cur & wd' & Hcur & H).
  rewrite entry_is_current_eq in Hcur. inversion Hcur; subst cur wd'; clear Hcur.
  pose proof Hwd as (Hclk & Hoff & Htick & _).
  destruct (current_in (w_fs wd) (w_utcoff wd) (file_path R today) today) eqn:Ecur.
  - (* skipped *)
    apply bind_ret_inv in H as ([] & we & Hlog & H).
    inversion H; subst p w1; clear H. inversion Hlog; subst we; clear Hlog.
    repeat (split; [assumption || reflexivity|]).
    unfold current_in in Ecur. cbn [w_fs set_log].
    destruct (w_fs wd !! file_path R today) as [n|]; [|discriminate].
    exists n. split; [reflexivity|]. left.
    rewrite Hoff in Ecur. lia.
  - (* created *)
    apply bind_ret_inv in H as ([] & w2 & Hp1 & H). extends_of Hp1 E1.
    apply bind_ret_inv in H as ([] & w3 & Hp2 & H). extends_of Hp2 E2.
    apply bind_ret_inv in H as ([] & w4 & Hp3 & H). extends_of Hp3 E3.
    apply bind_ret_inv in H as ([] & w5 & Hp4 & H). extends_of Hp4 E4.
    apply bind_ret_inv in H as ([] & w6 & Hp5 & H). extends_of Hp5 E5.
    apply bind_ret_inv in H as (sel & w7 & Hsel & H). extends_of Hsel E6.
    assert (Hw7 : extends w w7).
    { eapply extends_trans; [exact Hwd|]. eapply extends_trans; [exact E1|].
      eapply extends_trans; [exact E2|]. eapply extends_trans; [exact E3|].
      eapply extends_trans; [exact E4|]. eapply extends_trans; [exact E5|].
      exact E6. }
    clear Hp1 Hp2 Hp3 Hp4 Hp5 Hsel E1 E2 E3 E4 E5 E6.
    apply bind_ret_inv in H as (now & w8 & Hnow & H).
    inversion Hnow; subst now w8; clear Hnow.
    apply bind_ret_inv in H as ([] & w9 & Hw & H).
    apply open_write_inv in Hw as [[_ ->]|[[e He] _]]; [|discriminate He].
    apply bind_ret_inv in H as ([] & w10 & Hlog & H).
    inversion Hlog; subst w10; clear Hlog. inversion H; subst p w1; clear H.
    repeat (split; [assumption || reflexivity|]).
    destruct Hw7 as (Hc7 & Ho7 & Ht7 & _).
    eexists. split.
    + cbn. rewrite lookup_insert_eq. reflexivity.
    + right. exists (S (w_tick w7)). split; [lia|].
      cbn. now rewrite Hc7, Ho7.
Qed.

(* ===================================================================== *)
(** ** Idempotence of entry creation *)
(* ===================================================================== *)

Lemma paths_of_same_date R a b :
  date_of a = date_of b ->
  month_dir R a = month_dir R b /\ day_dir R a = day_dir R b
  /\ file_path R a = file_path R b /\ replace_midnight a = replace_midnight b
  /\ date_str a = date_str b.
Proof.
  destruct a, b. unfold date_of. cbn. intros [= -> -> ->].
  repeat split; reflexivity.
Qed.

Lemma midnight_le_timestamp off d :
  valid_datetime d -> timestamp off (replace_midnight d) <= timestamp off d.
Proof.
  intros (_ & _ & _ & Hh & Hm & Hs & Hu).
  unfold timestamp, replace_midnight, toordinal. cbn. lia.
Qed.

(** C1. Entry creation is idempotent per calendar day.  (a) When the
    entry file of the current date exists (in its directories) with a
    modification time at or after today's local midnight,
    [create_journal_entry] returns its path and leaves the file system
    and the console untouched: nothing is written and no question is
    asked.  (b) Hence, after any run that returned, a second run on the
    same calendar date over the file system as the first run left it
    returns the same path and changes no file: content and modification
    time of the entry are those of the first run. *)
Theorem create_journal_entry_idempotent (R : string) :
  normal_dir R = true ->
  (forall w n,
     let today := w_clock w (w_tick w) in
     is_Some (w_fs w !! journals_dir R) ->
     is_Some (w_fs w !! month_dir R today) ->
     is_Some (w_fs w !! day_dir R today) ->
     w_fs w !! file_path R today = Some n ->
     timestamp (w_utcoff w) (replace_midnight today) <= node_mtime n ->
     exists w',
       create_journal_entry R w = (Ret (file_path R today), w')
       /\ w_fs w' = w_fs w /\ w_stdin w' = w_stdin w /\ w_stdout w' = w_stdout w)
  /\
  (forall w p w1 w2,
     create_journal_entry R w = (Ret p, w1) ->
     valid_datetime (w_clock w (w_tick w)) ->
     monotone_clock w ->
     w_fs w2 = w_fs w1 -> w_clock w2 = w_clock w -> w_utcoff w2 = w_utcoff w ->
     (w_tick w1 <= w_tick w2)%nat ->
     date_of (w_clock w2 (w_tick w2)) = date_of (w_clock w (w_tick w)) ->
     exists w3,
       create_journal_entry R w2 = (Ret p, w3)
       /\ w_fs w3 = w_fs w2 /\ w_stdin w3 = w_stdin w2 /\ w_stdout w3 = w_stdout w2).
Proof.
  intros HR. split.
  - intros w n today Hj Hm Hd Hf Hmt.
    eexists. split.
    + apply create_journal_entry_skip; try assumption.
      unfold current_in. fold today. rewrite Hf. now apply Z.leb_le.
    + cbn. auto.
  - intros w p w1 w2 Hrun Hvalid Hmono Hfs Hclk Hoff Htick Hdate.
    apply (create_journal_entry_post R w p w1 HR) in Hrun
      as (-> & Hext & Hj & Hm & Hd & n & Hn & Hmt).
    set (today := w_clock w (w_tick w)) in *.
    set (today2 := w_clock w2 (w_tick w2)) in *.
    destruct (paths_of_same_date R today2 today Hdate) as (Em & Ed & Ef & Emid & _).
    assert (Hmid : timestamp (w_utcoff w) (replace_midnight today) <= node_mtime n).
    { destruct Hmt as [Hmt|(k & Hk & Hmt)]; [exact Hmt|].
      rewrite Hmt.
      eapply Z.le_trans; [apply midnight_le_timestamp; exact Hvalid|].
      apply Hmono. exact Hk. }
    eexists. split.
    + rewrite <- Ef. apply create_journal_entry_skip; fold today2.
      * now rewrite Hfs.
      * now rewrite Hfs, Em.
      * now rewrite Hfs, Ed.
      * unfold current_in. rewrite Hfs, Ef, Hn, Emid, Hoff. now apply Z.leb_le.
    + cbn. auto.
Qed.

Lemma sample_clock_valid n : (n <= 59)%nat -> valid_datetime (Sample.clock n).
Proof. intros Hn. unfold valid_datetime, Sample.clock. cbn. lia. Qed.

Lemma sample_clock_monotone off i j :
  (i <= j)%nat -> timestamp off (Sample.clock i) <= timestamp off (Sample.clock j).
Proof. intros Hij. unfold timestamp, toordinal, Sample.clock. cbn. lia. Qed.

Lemma create_journal_entry_idempotent_witness :
  (exists w',
     create_journal_entry Sample.root Sample.after_first_entry
     = (Ret "/home/me/bot/journals/march-2024/05/2024-03-05.md", w')
     /\ w_fs w' = w_fs Sample.after_first_entry
     /\ w_stdin w' = w_stdin Sample.after_first_entry
     /\ w_stdout w' = w_stdout Sample.after_first_entry)
  /\ w_fs Sample.after_first_entry
       !! "/home/me/bot/journals/march-2024/05/2024-03-05.md"
     = Some (File ("# Journal Entry: 2024-03-05" +:+ nl +:+ nl +:+ nl +:+
                   "Created automatically by Journal Bot on 2024-03-05 09:00:04")
                  1709625605000000).
Proof.
  split; [|vm_compute; reflexivity].
  destruct (create_journal_entry_idempotent Sample.root eq_refl) as [_ Hb].
  apply (Hb (Sample.first_run [Line "done"]) _ Sample.after_first_entry
            Sample.after_first_entry).
  - vm_compute. reflexivity.
  - apply sample_clock_valid. cbn. lia.
  - intros i j Hij. apply sample_clock_monotone. exact Hij.
  - reflexivity.
  - reflexivity.
  - reflexivity.
  - lia.
  - reflexivity.
Defined.

(* ===================================================================== *)
(** ** The entry path *)
(* ===================================================================== *)

Lemma zfill4_four_digits y :
  0 <= y <= 9999 -> zfill 4 (str_of_int y) = Spec.four_digits y.
Proof.
  intros Hy.
  assert (Hall : forallb (fun n => String.eqb (zfill 4 (str_of_int (Z.of_nat n)))
                                     (Spec.four_digits (Z.of_nat n)))
                         (seq 0 (Z.to_nat 10000)) = true) by (vm_compute; reflexivity).
  rewrite forallb_forall in Hall.
  specialize (Hall (Z.to_nat y)). rewrite Z2Nat.id in Hall by lia.
  apply String.eqb_eq, Hall, in_seq. lia.
Qed.

Lemma zfill2_two_digits n :
  0 <= n <= 99 -> zfill 2 (str_of_int n) = Spec.two_digits n.
Proof.
  intros Hn.
  assert (Hall : forallb (fun k => String.eqb (zfill 2 (str_of_int (Z.of_nat k)))
                                     (Spec.two_digits (Z.of_nat k)))
                         (seq 0 (Z.to_nat 100)) = true) by (vm_compute; reflexivity).
  rewrite forallb_forall in Hall.
  specialize (Hall (Z.to_nat n)). rewrite Z2Nat.id in Hall by lia.
  apply String.eqb_eq, Hall, in_seq. lia.
Qed.

Lemma lower_month_name today :
  month_name today = Spec.month_name_lowercase (month today).
Proof.
  unfold month_name, fmt_B, Spec.month_name_lowercase.
  change "" with (lower "") at 1.
  rewrite <- (map_nth lower). reflexivity.
Qed.

Lemma days_in_month_le y m : days_in_month y m <= 31.
Proof.
  unfold days_in_month.
  destruct (m =? 2); [destruct (is_leap y); lia|].
  destruct ((m =? 4) || (m =? 6) || (m =? 9) || (m =? 11)); lia.
Qed.

(** Joining one more component is joining the longer relative path. *)
Lemma os_path_join_chain R b c :
  truthy b = true -> startswith "/" b = false -> endswith_char "/" b = false ->
  startswith "/" c = false ->
  os_path_join (os_path_join R b) c = os_path_join R (b +:+ "/" +:+ c).
Proof.
  intros Hb1 Hb2 Hb3 Hc.
  assert (Hbc : startswith "/" (b +:+ "/" +:+ c) = false).
  { destruct b as [|x b]; [discriminate Hb1|]. exact Hb2. }
  unfold os_path_join at 1 3. rewrite Hc, Hbc.
  assert (Hj : exists P, os_path_join R b = P +:+ b
                         /\ (if negb (truthy R) || endswith_char "/" R
                             then R else R +:+ "/") = P).
  { unfold os_path_join. rewrite Hb2.
    destruct (negb (truthy R) || endswith_char "/" R); eexists; split;
      try reflexivity. now rewrite append_assoc. }
  destruct Hj as (P & -> & HP).
  rewrite (truthy_app_r _ _ Hb1), (endswith_app _ _ _ Hb1), Hb3. cbn [negb orb].
  rewrite append_assoc.
  destruct (negb (truthy R) || endswith_char "/" R); subst P;
    rewrite ?append_assoc; reflexivity.
Qed.

Lemma relpath_extend b c :
  truthy b = true -> startswith "/" b = false -> component c = true ->
  truthy (b +:+ "/" +:+ c) = true
  /\ startswith "/" (b +:+ "/" +:+ c) = false
  /\ endswith_char "/" (b +:+ "/" +:+ c) = false.
Proof.
  intros Hb1 Hb2 Hc. split; [now apply truthy_app_l|]. split.
  - destruct b as [|x b]; [discriminate Hb1 | exact Hb2].
  - pose proof Hc as Hc'. unfold component in Hc'. apply andb_prop in Hc' as [Ht _].
    rewrite endswith_app by now apply truthy_app_r.
    rewrite endswith_app by exact Ht.
    now apply component_no_trailing_sep.
Qed.

(** The path computed by the code is the canonical path of the
    specification, joined to the repository root. *)
Lemma file_path_canonical R today :
  valid_datetime today ->
  file_path R today = os_path_join R (Spec.canonical_entry_path (date_of today)).
Proof.
  intros (Hy & Hm & Hd & _).
  pose proof (days_in_month_le (year today) (month today)) as Hdim.
  unfold file_path, day_dir, month_dir, journals_dir.
  pose proof (component_month_year today) as Cmy.
  pose proof (component_day_number today) as Cdn.
  pose proof (component_file_name today) as Cfn.
  destruct (relpath_extend "journals" (month_year today) eq_refl eq_refl Cmy)
    as (T1 & S1 & E1).
  destruct (relpath_extend _ (day_number today) T1 S1 Cdn) as (T2 & S2 & E2).
  rewrite (os_path_join_chain R "journals" (month_year today) eq_refl eq_refl eq_refl
             (component_not_absolute _ Cmy)).
  rewrite (os_path_join_chain R _ (day_number today) T1 S1 E1
             (component_not_absolute _ Cdn)).
  rewrite (os_path_join_chain R _ (date_str today +:+ ".md") T2 S2 E2
             (component_not_absolute _ Cfn)).
  f_equal.
  unfold Spec.canonical_entry_path, date_of, Spec.iso_date.
  unfold month_year, year_str, day_number, date_str, strftime_Ymd, fmt_Y, fmt_m, fmt_d.
  rewrite lower_month_name.
  rewrite (zfill4_four_digits (year today)) by lia.
  rewrite (zfill2_two_digits (month today)) by lia.
  rewrite (zfill2_two_digits (day today)) by lia.
  rewrite !append_assoc. reflexivity.
Qed.

(* ===================================================================== *)
(** ** [create_journal_entry]: the branch that creates *)
(* ===================================================================== *)

Lemma length_join_lt a b :
  normal_dir a = true -> component b = true ->
  (String.length a < String.length (os_path_join a b))%nat.
Proof.
  intros Ha Hb. rewrite (os_path_join_normal a b Ha Hb), length_append.
  unfold component in Hb. apply andb_prop in Hb as [Ht _].
  destruct b; [discriminate|]. cbn [String.length].
  destruct (endswith_char "/" a); [|rewrite length_append]; lia.
Qed.

Section TreeShape.

Variable R : string.
Variable today : datetime.
Hypothesis HR : normal_dir R = true.

Lemma journals_lt_month :
  (String.length (journals_dir R) < String.length (month_dir R today))%nat.
Proof.
  apply length_join_lt; [now apply normal_journals_dir | apply component_month_year].
Qed.

Lemma month_lt_day :
  (String.length (month_dir R today) < String.length (day_dir R today))%nat.
Proof.
  apply length_join_lt; [now apply normal_month_dir | apply component_day_number].
Qed.

Lemma day_lt_file :
  (String.length (day_dir R today) < String.length (file_path R today))%nat.
Proof.
  apply length_join_lt; [now apply normal_day_dir | apply component_file_name].
Qed.

Lemma root_lt_journals :
  (String.length R < String.length (journals_dir R))%nat.
Proof. now apply length_join_lt. Qed.

End TreeShape.

Ltac by_length :=
  let E := fresh in
  intros E; apply (f_equal String.length) in E;
  match goal with
  | HR : normal_dir ?R = true |- _ =>
      pose proof (root_lt_journals R HR);
      match type of E with
      | context [ month_dir R ?t ] => pose proof (journals_lt_month R t HR)
      | _ => idtac
      end;
      match type of E with
      | context [ day_dir R ?t ] =>
          pose proof (journals_lt_month R t HR); pose proof (month_lt_day R t HR)
      | _ => idtac
      end;
      match type of E with
      | context [ file_path R ?t ] =>
          pose proof (journals_lt_month R t HR); pose proof (month_lt_day R t HR);
          pose proof (day_lt_file R t HR)
      | _ => idtac
      end
  end; lia.

Lemma print_then {A} s (k : M A) o w :
  (print s ;;; k) (set_stdout o w) = k (set_stdout (o ++ [s +:+ nl]) w).
Proof. reflexivity. Qed.

Lemma print_first {A} s (k : M A) w :
  (print s ;;; k) w = k (set_stdout (w_stdout w ++ [s +:+ nl]) w).
Proof. reflexivity. Qed.

Lemma print_menu_then {A} prompts : forall i (k : M A) o w,
  (print_menu i prompts ;;; k) (set_stdout o w)
  = k (set_stdout (o ++ menu_items i prompts) w).
Proof.
  induction prompts as [|p rest IH]; intros i k o w.
  - cbn [print_menu menu_items]. now rewrite app_nil_r.
  - cbn [print_menu menu_items].
    transitivity ((print (str_of_int i +:+ ". " +:+ p) ;;; print_menu (i + 1) rest ;;; k)
                    (set_stdout o w)).
    { unfold bind. destruct (print _ _) as [[[]|e] w1]; reflexivity. }
    rewrite print_then, IH, <- app_assoc. reflexivity.
Qed.

Lemma show_menu_run {A} (k : M A) w :
  (print (nl +:+ "===== Journal Entry Prompts =====") ;;;
   print "You can choose from the following prompts or enter your own:" ;;;
   print_menu 1 JOURNAL_PROMPTS ;;;
   print (nl +:+ "Enter up to 3 prompt numbers or type your own prompts.") ;;;
   print "Enter 'done' when finished." ;;; k) w
  = k (set_stdout (w_stdout w ++ menu_lines) w).
Proof.
  rewrite print_first.
  rewrite !print_then, print_menu_then, !print_then.
  rewrite <- !app_assoc. reflexivity.
Qed.
Lemma create_journal_entry_creates R w sel wl :
  let today := w_clock w (w_tick w) in
  normal_dir R = true ->
  can_create R w = true ->
  select_prompts (w_stdin w) 1 [] (ready_to_ask R w) = (Ret sel, wl) ->
  create_journal_entry R w = (Ret (file_path R today), entry_written R today sel wl).
Proof.
  intros today HR Hcan Hsel.
  unfold can_create in Hcan. fold today in Hcan.
  repeat (apply andb_prop in Hcan as [Hcan ?]).
  rename Hcan into Hroot, H into Hnot, H0 into Hfile, H1 into Hday, H2 into Hmonth,
    H3 into Hjour.
  apply negb_true_iff in Hnot.
  unfold create_journal_entry.
  unfold bind at 1. unfold datetime_now at 1. fold today.
  set (w0 := set_tick (S (w_tick w)) w).
  (* journals *)
  unfold journals_dir at 1 2 3.
  rewrite ensure_dir_ok; try assumption; try reflexivity.
  fold (journals_dir R).
  set (w1 := ensured (journals_dir R) _ w0).
  (* month *)
  unfold month_dir at 1 2 3.
  rewrite ensure_dir_ok; try (now apply normal_journals_dir);
    try apply component_month_year.
  2:{ apply ensured_is_dir. exact Hjour. }
  2:{ fold (month_dir R today). unfold w1. rewrite ensured_fs_other; [exact Hmonth|].
      by_length. }
  fold (month_dir R today).
  set (w2 := ensured (month_dir R today) _ w1).
  (* day *)
  unfold day_dir at 1 2 3.
  rewrite ensure_dir_ok; try (now apply normal_month_dir);
    try apply component_day_number.
  2:{ apply ensured_is_dir. unfold w1. rewrite ensured_fs_other; [exact Hmonth|].
      by_length. }
  2:{ fold (day_dir R today). unfold w2, w1.
      rewrite !ensured_fs_other; [exact Hday | by_length | by_length]. }
  fold (day_dir R today).
  set (w3 := ensured (day_dir R today) _ w2).
  assert (Hfs3 : w_fs w3 !! file_path R today = w_fs w !! file_path R today).
  { unfold w3, w2, w1. rewrite !ensured_fs_other; [reflexivity | by_length..]. }
  assert (Hoff3 : w_utcoff w3 = w_utcoff w).
  { unfold w3, w2, w1.
    repeat (etransitivity; [apply ensured_frame|]). reflexivity. }
  unfold bind at 1. rewrite entry_is_current_eq.
  unfold current_in at 1. rewrite Hfs3, Hoff3.
  unfold current_in in Hnot. rewrite Hnot.
  rewrite show_menu_run.
  unfold bind at 1. unfold selection_loop.
  assert (Hin3 : w_stdin w3 = w_stdin w).
  { unfold w3, w2, w1.
    repeat (etransitivity; [apply ensured_frame|]). reflexivity. }
  cbn [w_stdin set_stdout]. rewrite Hin3.
  change (set_stdout (w_stdout w3 ++ menu_lines) w3) with (ready_to_ask R w).
  rewrite Hsel.
  unfold bind at 1. unfold datetime_now at 1.
  unfold bind at 1.
  destruct (select_prompts_extends _ _ _ _ _ _ Hsel) as (_ & Hfsl & _).
  unfold file_path at 1 2.
  rewrite open_write_ok; try (now apply normal_day_dir);
    try apply component_file_name.
  - reflexivity.
  - cbn [w_fs set_tick]. rewrite Hfsl. unfold ready_to_ask. fold today.
    cbn [w_fs set_stdout]. apply ensured_is_dir.
    rewrite !ensured_fs_other; [exact Hday | by_length | by_length].
  - cbn [w_fs set_tick]. rewrite Hfsl. unfold ready_to_ask. fold today.
    cbn [w_fs set_stdout]. fold (file_path R today).
    rewrite !ensured_fs_other; [exact Hfile | by_length..].
Qed.

(* ===================================================================== *)
(** ** The lines of an entry *)
(* ===================================================================== *)

Lemma plain_not_newline c : plain_char c = true -> Ascii.eqb c (ascii_of_nat 10) = false.
Proof.
  unfold plain_char. intros H. apply andb_prop in H as [_ H].
  now apply negb_true_iff in H.
Qed.

Lemma lines_acc_app_plain a b cur :
  all_chars plain_char a = true -> lines_acc (a +:+ b) cur = lines_acc b (cur +:+ a).
Proof.
  revert cur. induction a as [|c a IH]; intros cur H.
  - rewrite append_empty. f_equal.
    clear. induction cur as [|x cur IH]; [reflexivity|].
    rewrite append_cons. now rewrite <- IH.
  - cbn [all_chars] in H. apply andb_prop in H as [Hc Ha].
    rewrite append_cons. cbn [lines_acc]. rewrite (plain_not_newline _ Hc).
    rewrite IH by exact Ha. f_equal. now rewrite append_assoc.
Qed.

Lemma lines_acc_plain t cur :
  all_chars plain_char t = true -> lines_acc t cur = [cur +:+ t].
Proof.
  intros H. pose proof (lines_acc_app_plain t "" cur H) as E.
  assert (Ht : t +:+ "" = t).
  { clear. induction t as [|c t IH]; [reflexivity|]. rewrite append_cons. now rewrite IH. }
  rewrite Ht in E. exact E.
Qed.

Lemma lines_acc_nonempty a cur : lines_acc a cur <> [].
Proof.
  revert cur. induction a as [|c a IH]; intros cur; cbn [lines_acc]; [discriminate|].
  destruct (Ascii.eqb c (ascii_of_nat 10)); [discriminate | apply IH].
Qed.

(** Appending text without a line break only lengthens the last line. *)
Lemma lines_acc_app_tail a t cur :
  all_chars plain_char t = true ->
  lines_acc (a +:+ t) cur
  = removelast (lines_acc a cur) ++ [List.last (lines_acc a cur) "" +:+ t].
Proof.
  intros Ht. revert cur. induction a as [|c a IH]; intros cur.
  - rewrite append_empty. cbn [lines_acc removelast List.last app].
    now apply lines_acc_plain.
  - rewrite append_cons. cbn [lines_acc].
    destruct (Ascii.eqb c (ascii_of_nat 10)).
    + rewrite IH. pose proof (lines_acc_nonempty a "") as Hne.
      destruct (lines_acc a "") as [|x l]; [congruence|]. reflexivity.
    + apply IH.
Qed.

Lemma plain_strftime_Ymd d : all_chars plain_char (strftime_Ymd d) = true.
Proof.
  pose proof (component_date_str d) as H. unfold component in H.
  now apply andb_prop in H as [_ H].
Qed.

Lemma plain_strftime_YmdHMS d : all_chars plain_char (strftime_YmdHMS d) = true.
Proof.
  unfold strftime_YmdHMS, fmt_H, fmt_M, fmt_S.
  rewrite !all_chars_app, plain_strftime_Ymd.
  rewrite !plain_zfill by apply plain_str_of_int. reflexivity.
Qed.


(* ===================================================================== *)
(** ** Entries written *)
(* ===================================================================== *)

Lemma entry_written_file R today sel wl :
  w_fs (entry_written R today sel wl) !! file_path R today
  = Some (File (entry_body (date_str today) sel
                +:+ entry_footer (w_clock wl (w_tick wl)))
               (timestamp (w_utcoff wl) (w_clock wl (S (w_tick wl))))).
Proof. unfold entry_written, written. cbn. now rewrite lookup_insert_eq. Qed.


Lemma sub_headings_two_prompts T :
  all_chars plain_char T = true ->
  Spec.sub_headings
    (entry_body "2024-03-05" ["What went well today?"; "What am I grateful for today?"]
     +:+ (nl +:+ "Created automatically by Journal Bot on " +:+ T))
  = ["What went well today?"; "What am I grateful for today?"].
Proof.
  intros HT. unfold Spec.sub_headings, lines.
  match goal with
  | |- context [ lines_acc (?a +:+ (nl +:+ ?b +:+ T)) ?c ] =>
      replace (a +:+ (nl +:+ b +:+ T)) with ((a +:+ nl +:+ b) +:+ T)
        by (rewrite !append_assoc; reflexivity)
  end.
  rewrite lines_acc_app_tail by exact HT.
  generalize dependent T. intros T _.
  vm_compute. reflexivity.
Qed.

(** C9. On 2024-03-05, with the answers "1", "3", "done", the entry is
    written at [journals/march-2024/05/2024-03-05.md] under the
    repository root, and its content has exactly two prompt
    sub-headings, "What went well today?" then "What am I grateful for
    today?", in the order of selection. *)
Theorem entry_2024_03_05 R w rest :
  let today := w_clock w (w_tick w) in
  normal_dir R = true ->
  can_create R w = true ->
  date_of today = (2024, 3, 5) ->
  w_stdin w = Line "1" :: Line "3" :: Line "done" :: rest ->
  exists w' now mtime,
    let path := os_path_join R "journals/march-2024/05/2024-03-05.md" in
    let content :=
      entry_body "2024-03-05" ["What went well today?"; "What am I grateful for today?"]
      +:+ (nl +:+ "Created automatically by Journal Bot on " +:+ strftime_YmdHMS now) in
    create_journal_entry R w = (Ret path, w')
    /\ w_fs w' !! path = Some (File content mtime)
    /\ Spec.sub_headings content
       = ["What went well today?"; "What am I grateful for today?"].
Proof.
  intros today HR Hcan Hdate Hin.
  set (d0 := mk_datetime 2024 3 5 0 0 0 0).
  destruct (paths_of_same_date R today d0 Hdate) as (_ & _ & Ef & _ & Eds).
  assert (Hpath : file_path R today = os_path_join R "journals/march-2024/05/2024-03-05.md").
  { rewrite Ef. rewrite file_path_canonical; [reflexivity|].
    unfold valid_datetime, d0. cbn. lia. }
  assert (Hsel : exists wl,
             select_prompts (w_stdin w) 1 [] (ready_to_ask R w)
             = (Ret ["What went well today?"; "What am I grateful for today?"], wl)).
  { rewrite Hin. eexists.
    rewrite select_prompts_line by lia.
    change (classify (strip "1")) with (Pick "What went well today?"). cbv iota.
    rewrite select_prompts_line by lia.
    change (classify (strip "3")) with (Pick "What am I grateful for today?"). cbv iota.
    rewrite select_prompts_line by lia.
    change (classify (strip "done")) with Done. cbv iota.
    reflexivity. }
  destruct Hsel as (wl & Hsel).
  pose proof (create_journal_entry_creates R w _ _ HR Hcan Hsel) as Hrun.
  fold today in Hrun. rewrite Hpath in Hrun.
  eexists _, _, _. cbv zeta. split; [exact Hrun|]. split.
  - rewrite <- Hpath, entry_written_file. rewrite Eds. reflexivity.
  - apply sub_headings_two_prompts, plain_strftime_YmdHMS.
Qed.


Lemma entry_2024_03_05_witness :
  exists w',
    create_journal_entry Sample.root
      (Sample.first_run [Line "1"; Line "3"; Line "done"])
    = (Ret "/home/me/bot/journals/march-2024/05/2024-03-05.md", w').
Proof.
  destruct (entry_2024_03_05 Sample.root
              (Sample.first_run [Line "1"; Line "3"; Line "done"]) [])
    as (w' & now & mtime & Hrun & _);
    [reflexivity | vm_compute; reflexivity | reflexivity | reflexivity |].
  exists w'. exact Hrun.
Defined.

Lemma create_journal_entry_returns R w p w' :
  create_journal_entry R w = (Ret p, w') -> p = file_path R (w_clock w (w_tick w)).
Proof.
  intros H. unfold create_journal_entry in H.
  apply bind_ret_inv in H as (t0 & wa & Hnow & H).
  inversion Hnow; subst t0 wa; clear Hnow.
  apply bind_ret_inv in H as (ex1 & w1 & _ & H).
  apply bind_ret_inv in H as ([] & w2 & _ & H).
  apply bind_ret_inv in H as (ex2 & w3 & _ & H).
  apply bind_ret_inv in H as ([] & w4 & _ & H).
  apply bind_ret_inv in H as (ex3 & w5 & _ & H).
  apply bind_ret_inv in H as ([] & w6 & _ & H).
  apply bind_ret_inv in H as (cur & w7 & _ & H).
  destruct cur.
  - apply bind_ret_inv in H as ([] & w8 & _ & H). now inversion H.
  - do 5 (apply bind_ret_inv in H as ([] & ? & _ & H)).
    apply bind_ret_inv in H as (sel & ? & _ & H).
    apply bind_ret_inv in H as (now & ? & _ & H).
    do 2 (apply bind_ret_inv in H as ([] & ? & _ & H)).
    now inversion H.
Qed.

Lemma relative_to_join R rel :
  truthy R = true -> startswith "/" rel = false ->
  relative_to (os_path_join R rel) R = Some rel.
Proof.
  intros HR Hrel. unfold relative_to, os_path_join. rewrite Hrel, HR.
  cbn [negb orb andb].
  assert (Hpre : forall pre s, startswith pre (pre +:+ s) = true
                               /\ drop (String.length pre) (pre +:+ s) = s).
  { clear. induction pre as [|c pre IH]; intros s; [split; reflexivity|].
    rewrite append_cons. cbn [startswith drop String.length].
    destruct (IH s) as [-> ->]. now rewrite Ascii.eqb_refl. }
  destruct (endswith_char "/" R).
  - destruct (Hpre R rel) as [-> ->]. reflexivity.
  - rewrite <- append_assoc. destruct (Hpre (R +:+ "/") rel) as [-> ->]. reflexivity.
Qed.

(** C2. The path of the entry is a function of the date alone: for
    every date the clock can show, whenever [create_journal_entry]
    returns, in the branch that skips as in the branch that creates, it
    returns
    [journals/<month-name-lowercase>-<YYYY>/<DD>/<YYYY-MM-DD>.md]
    joined to the repository root; and both branches do return. *)
Theorem entry_path_canonical R w :
  let today := w_clock w (w_tick w) in
  let canonical := Spec.canonical_entry_path (date_of today) in
  valid_datetime today ->
  (forall p w', create_journal_entry R w = (Ret p, w') ->
     p = os_path_join R canonical
     /\ (truthy R = true -> relative_to p R = Some canonical))
  /\ (is_Some (w_fs w !! journals_dir R) ->
      is_Some (w_fs w !! month_dir R today) ->
      is_Some (w_fs w !! day_dir R today) ->
      current_in (w_fs w) (w_utcoff w) (file_path R today) today = true ->
      exists w', create_journal_entry R w = (Ret (os_path_join R canonical), w'))
  /\ (normal_dir R = true -> can_create R w = true ->
      forall sel wl,
        select_prompts (w_stdin w) 1 [] (ready_to_ask R w) = (Ret sel, wl) ->
        exists w', create_journal_entry R w = (Ret (os_path_join R canonical), w')).
Proof.
  intros today canonical Hvalid.
  pose proof (file_path_canonical R today Hvalid) as Hpath. fold canonical in Hpath.
  split; [|split].
  - intros p w' H. apply create_journal_entry_returns in H. fold today in H.
    subst p. split; [exact Hpath|].
    intros HR. rewrite Hpath. apply relative_to_join; [exact HR|].
    unfold canonical, Spec.canonical_entry_path, date_of. reflexivity.
  - intros Hj Hm Hd Hcur. rewrite <- Hpath. eexists.
    now apply create_journal_entry_skip.
  - intros HR Hcan sel wl Hsel. rewrite <- Hpath. eexists.
    now apply (create_journal_entry_creates R w sel wl).
Qed.

Lemma entry_path_canonical_witness :
  (exists w',
     create_journal_entry Sample.root (Sample.first_run [Line "done"])
     = (Ret "/home/me/bot/journals/march-2024/05/2024-03-05.md", w'))
  /\ (exists w',
        create_journal_entry Sample.root Sample.after_first_entry
        = (Ret "/home/me/bot/journals/march-2024/05/2024-03-05.md", w')).
Proof.
  split.
  - destruct (entry_path_canonical Sample.root (Sample.first_run [Line "done"]))
      as (_ & _ & Hc); [apply sample_clock_valid; cbn; lia|].
    eapply Hc; [reflexivity | vm_compute; reflexivity | vm_compute; reflexivity].
  - destruct (entry_path_canonical Sample.root Sample.after_first_entry)
      as (_ & Hs & _); [apply sample_clock_valid; vm_compute; lia|].
    apply Hs; vm_compute; eauto.
Defined.

(* ===================================================================== *)
(** ** Running git *)
(* ===================================================================== *)

Lemma git_cmd_run {A} args (run : M A) w :
  w_git_fault w (length (w_git_calls w)) = None ->
  git_cmd args run w = run (set_git_calls (w_git_calls w ++ [args]) w).
Proof.
  intros H. unfold git_cmd, bind, get, modify. cbn. rewrite H. reflexivity.
Qed.

Lemma git_cmd_fault {A} args (run : M A) w msg :
  w_git_fault w (length (w_git_calls w)) = Some msg ->
  git_cmd args run w
  = (Raise (mk_exn GitCommandError msg), set_git_calls (w_git_calls w ++ [args]) w).
Proof.
  intros H. unfold git_cmd, bind, get, modify. cbn. rewrite H. reflexivity.
Qed.

Lemma require_repo_ok repo w :
  is_dir (w_fs w !! os_path_join (working_dir repo) ".git") = true ->
  w_repo_ok w = true ->
  require_repo repo w = (Ret tt, w).
Proof.
  intros H Hok. unfold require_repo, bind, os_path_isdir, get. rewrite H, Hok. reflexivity.
Qed.

Lemma Repo_open_ok R w :
  is_Some (w_fs w !! R) -> is_dir (w_fs w !! os_path_join R ".git") = true ->
  w_repo_ok w = true ->
  Repo_open R w = (Ret (mk_handle R), w).
Proof.
  intros [n Hn] Hgit Hok. unfold Repo_open, bind, get. rewrite Hn, Hgit, Hok. reflexivity.
Qed.

Lemma Repo_init_fresh R w :
  normal_dir R = true ->
  is_dir (w_fs w !! R) = true ->
  w_fs w !! os_path_join R ".git" = None ->
  w_git_fault w (length (w_git_calls w)) = None ->
  Repo_init R w = (Ret (mk_handle R), init_world R w).
Proof.
  intros HR Hdir Hgit Hok. unfold Repo_init.
  unfold bind at 1. unfold os_path_exists at 1, get at 1.
  destruct (w_fs w !! R) as [[c m|m]|] eqn:ER; try discriminate Hdir.
  cbn [negb when]. unfold bind at 1. unfold ret at 1.
  unfold bind at 1. rewrite git_cmd_run by exact Hok.
  unfold bind at 1. unfold get at 1. cbn [w_fs set_git_calls].
  rewrite Hgit, ER. cbn [is_dir].
  match goal with
  | |- (let (r, w') := ?m ?w0 in _) = _ =>
      assert (Hst : m w0 = (Ret tt, init_world R w)) by reflexivity;
      rewrite Hst; clear Hst
  end.
  apply Repo_open_ok.
  - unfold init_world. cbn [w_fs set_git set_fs set_repo_ok].
    rewrite lookup_insert_ne, ER; [eauto|].
    now apply os_path_join_neq.
  - unfold init_world. cbn [w_fs set_git set_fs set_repo_ok]. now rewrite lookup_insert_eq.
  - reflexivity.
Qed.

(* ===================================================================== *)
(** ** [setup_repo] *)
(* ===================================================================== *)

Lemma bind_assoc {A B C} (m : M A) (f : A -> M B) (g : B -> M C) w :
  bind (bind m f) g w = bind m (fun a => bind (f a) g) w.
Proof. unfold bind. destruct (m w) as [[a|e] w1]; reflexivity. Qed.

Lemma logger_info_then {A} msg (k : M A) w :
  (logger_info msg ;;; k) w = k (set_log (w_log w ++ [(INFO, msg)]) w).
Proof. reflexivity. Qed.

Lemma config_set_value_then {A} repo section key value (k : M A) w :
  (config_set_value repo section key (Some value) ;;; k) w
  = k (set_git (set_config (<[section +:+ "." +:+ key := value]>
                              (g_config (w_git w))) (w_git w)) w).
Proof. reflexivity. Qed.

Lemma config_set_value_unset {A} repo section key (k : M A) w :
  (config_set_value repo section key None ;;; k) w = (Raise unset_value, w).
Proof. reflexivity. Qed.

Lemma os_path_exists_then {A} p (k : bool -> M A) w :
  (ex <- os_path_exists p ;; k ex) w
  = k (match w_fs w !! p with Some _ => true | None => false end) w.
Proof. reflexivity. Qed.

Lemma os_path_isdir_then {A} p (k : bool -> M A) w :
  (isd <- os_path_isdir p ;; k isd) w = k (is_dir (w_fs w !! p)) w.
Proof. reflexivity. Qed.

Lemma append_inj_l p a b : p +:+ a = p +:+ b -> a = b.
Proof.
  induction p as [|c p IH]; [now rewrite !append_empty|].
  rewrite !append_cons. intros [= H]. auto.
Qed.

Lemma os_path_join_inj R a b :
  normal_dir R = true -> component a = true -> component b = true ->
  os_path_join R a = os_path_join R b -> a = b.
Proof.
  intros HR Ha Hb. rewrite (os_path_join_normal R a HR Ha), (os_path_join_normal R b HR Hb).
  apply append_inj_l.
Qed.

Lemma readme_neq_git R :
  normal_dir R = true -> os_path_join R "README.md" <> os_path_join R ".git".
Proof.
  intros HR Heq. apply os_path_join_inj in Heq; try reflexivity; [discriminate | exact HR].
Qed.

Lemma git_add_file repo rel c t w :
  w_git_fault w (length (w_git_calls w)) = None ->
  is_dir (w_fs w !! os_path_join (working_dir repo) ".git") = true ->
  w_repo_ok w = true ->
  w_fs w !! os_path_join (working_dir repo) rel = Some (File c t) ->
  git_add repo rel w
  = (Ret tt, set_git (set_index (<[rel := c]> (g_index (w_git w))) (w_git w))
               (set_git_calls (w_git_calls w ++ [["add"; rel]]) w)).
Proof.
  intros Hok Hgit Hrok Hfile. unfold git_add. rewrite git_cmd_run by exact Hok.
  unfold bind at 1. rewrite require_repo_ok by (exact Hgit || exact Hrok).
  unfold bind, get. cbn [w_fs set_git_calls]. rewrite Hfile. reflexivity.
Qed.

Lemma git_commit_ok repo msg w :
  w_git_fault w (length (w_git_calls w)) = None ->
  is_dir (w_fs w !! os_path_join (working_dir repo) ".git") = true ->
  w_repo_ok w = true ->
  g_index (w_git w) <> g_head (w_git w) ->
  git_commit repo msg w
  = (Ret tt, set_git (add_commit msg (w_git w))
               (set_git_calls (w_git_calls w ++ [["commit"; "-m"; msg]]) w)).
Proof.
  intros Hok Hgit Hrok Hne. unfold git_commit. rewrite git_cmd_run by exact Hok.
  unfold bind at 1. rewrite require_repo_ok by (exact Hgit || exact Hrok).
  unfold bind, get. cbn [w_git set_git_calls].
  rewrite bool_decide_eq_false_2 by exact Hne. reflexivity.
Qed.

Lemma setup_repo_body_fresh u e R w :
  normal_dir R = true ->
  is_dir (w_fs w !! R) = true ->
  w_fs w !! os_path_join R ".git" = None ->
  no_faults w ->
  exists w',
    setup_repo_body (Some u) (Some e) R w = (Ret (Some (mk_handle R)), w')
    /\ is_dir (w_fs w' !! os_path_join R ".git") = true
    /\ g_config (w_git w') !! "user.name" = Some u
    /\ g_config (w_git w') !! "user.email" = Some e
    /\ match w_fs w !! os_path_join R "README.md" with
       | None =>
           (exists t, w_fs w' !! os_path_join R "README.md" = Some (File README_TEXT t))
           /\ g_commits (w_git w')
              = [("Initial commit: Add README", {["README.md" := README_TEXT]})]
           /\ w_git_calls w' = w_git_calls w ++
                [["init"]; ["add"; "README.md"];
                 ["commit"; "-m"; "Initial commit: Add README"]]
       | Some n =>
           w_fs w' !! os_path_join R "README.md" = Some n
           /\ g_commits (w_git w') = []
           /\ w_git_calls w' = w_git_calls w ++ [["init"]]
       end.
Proof.
  intros HR Hdir Hgit Hok.
  pose proof (readme_neq_git R HR) as Hrg.
  assert (Hgr : os_path_join R ".git" <> R) by now apply os_path_join_neq.
  assert (Hrr : os_path_join R "README.md" <> R) by now apply os_path_join_neq.
  unfold setup_repo_body.
  rewrite os_path_isdir_then, Hgit. cbn [is_dir negb when].
  rewrite !bind_assoc. rewrite logger_info_then. rewrite !bind_assoc.
  rewrite (bind_eq_ret (Repo_init R) _ _ _ _
             (Repo_init_fresh R (set_log _ w) HR Hdir Hgit (Hok _))).
  rewrite !bind_assoc, config_set_value_then.
  rewrite !bind_assoc, config_set_value_then.
  rewrite !bind_assoc, os_path_exists_then.
  set (w1 := set_git _ (set_git _ (init_world R _))).
  assert (Hfs1 : w_fs w1 = <[os_path_join R ".git" :=
                    Dir (timestamp (w_utcoff w) (w_clock w (w_tick w)))]> (w_fs w))
    by reflexivity.
  assert (Hcfg1 : g_config (w_git w1) !! "user.name" = Some u
                  /\ g_config (w_git w1) !! "user.email" = Some e).
  { unfold w1. cbn [w_git set_git g_config set_config]. split.
    - rewrite lookup_insert_ne by discriminate. now rewrite lookup_insert_eq.
    - now rewrite lookup_insert_eq. }
  assert (Hgit1 : w_git w1 = set_config (g_config (w_git w1)) (fresh_repo (w_init_branch w)))
    by reflexivity.
  assert (Hcalls1 : w_git_calls w1 = w_git_calls w ++ [["init"]]) by reflexivity.
  assert (Hok1 : forall k, w_git_fault w1 k = None) by exact Hok.
  assert (Hrok1 : w_repo_ok w1 = true) by reflexivity.
  assert (Hroot1 : is_dir (w_fs w1 !! R) = true).
  { rewrite Hfs1, lookup_insert_ne by exact Hgr. exact Hdir. }
  assert (Hdot1 : is_dir (w_fs w1 !! os_path_join R ".git") = true).
  { now rewrite Hfs1, lookup_insert_eq. }
  assert (Hrd1 : w_fs w1 !! os_path_join R "README.md" = w_fs w !! os_path_join R "README.md").
  { rewrite Hfs1, lookup_insert_ne; [reflexivity | apply not_eq_sym, Hrg]. }
  clearbody w1. rewrite Hrd1.
  destruct (w_fs w !! os_path_join R "README.md") as [n|] eqn:Erd.
  - cbn [negb when]. unfold bind at 1, ret at 1.
    rewrite (bind_eq_ret (Repo_open R) _ _ _ _ (Repo_open_ok R w1 ltac:(destruct (w_fs w1 !! R); [eauto|discriminate]) Hdot1 Hrok1)).
    eexists. split; [reflexivity|].
    destruct Hcfg1 as [Hn He].
    rewrite Hgit1 in *. cbn [g_commits set_config fresh_repo] .
    repeat split; assumption.
  - cbn [negb when].
    rewrite !bind_assoc.
    rewrite (bind_eq_ret (open_write _ _) _ _ _ _
               (open_write_ok R "README.md" README_TEXT w1 HR eq_refl Hroot1
                  ltac:(rewrite Hrd1; reflexivity))).
    set (w2 := written _ _ w1).
    assert (Hfs2 : w_fs w2 = <[os_path_join R "README.md" :=
                      File README_TEXT (timestamp (w_utcoff w1) (w_clock w1 (w_tick w1)))]>
                      (w_fs w1)) by reflexivity.
    assert (Hdot2 : is_dir (w_fs w2 !! os_path_join R ".git") = true).
    { rewrite Hfs2, lookup_insert_ne by exact Hrg. exact Hdot1. }
    rewrite !bind_assoc.
    rewrite (bind_eq_ret (git_add _ _) _ _ _ _
               (git_add_file (mk_handle R) "README.md" README_TEXT _ w2 (Hok1 _) Hdot2
                  Hrok1 ltac:(rewrite Hfs2; apply lookup_insert_eq))).
    set (w3 := set_git _ (set_git_calls _ w2)).
    assert (Hidx3 : g_index (w_git w3) = {["README.md" := README_TEXT]}).
    { unfold w3. cbn [w_git set_git g_index set_index]. unfold w2, written.
      cbn [w_git set_fs set_tick]. rewrite Hgit1. reflexivity. }
    assert (Hhead3 : g_head (w_git w3) = ∅).
    { unfold w3. cbn [w_git set_git g_head set_index]. unfold w2, written.
      cbn [w_git set_fs set_tick]. rewrite Hgit1. reflexivity. }
    assert (Hcm3 : g_commits (w_git w3) = []).
    { unfold w3. cbn [w_git set_git g_commits set_index]. unfold w2, written.
      cbn [w_git set_fs set_tick]. rewrite Hgit1. reflexivity. }
    assert (Hcfg3 : g_config (w_git w3) = g_config (w_git w1)) by reflexivity.
    assert (Hfs3 : w_fs w3 = w_fs w2) by reflexivity.
    assert (Hcalls3 : w_git_calls w3 = w_git_calls w2 ++ [["add"; "README.md"]]) by reflexivity.
    assert (Hcalls2 : w_git_calls w2 = w_git_calls w1) by reflexivity.
    assert (Hok3 : forall k, w_git_fault w3 k = None) by exact Hok1.
    assert (Hrok3 : w_repo_ok w3 = true) by exact Hrok1.
    clearbody w3. rewrite !bind_assoc.
    rewrite (bind_eq_ret (git_commit _ _) _ _ _ _
               (git_commit_ok (mk_handle R) _ w3 (Hok3 _)
                  ltac:(rewrite Hfs3; exact Hdot2) Hrok3
                  ltac:(rewrite Hidx3, Hhead3; apply insert_non_empty))).
    rewrite logger_info_then.
    erewrite (bind_eq_ret (Repo_open R)).
    2:{ apply Repo_open_ok; cbn [w_fs w_repo_ok set_log set_git set_git_calls];
          rewrite ?Hfs3.
        - rewrite Hfs2, lookup_insert_ne by exact Hrr.
          destruct (w_fs w1 !! R); [eauto | discriminate].
        - exact Hdot2.
        - exact Hrok3. }
    eexists. split; [reflexivity|].
    cbn [w_fs w_git w_git_calls set_log set_git set_git_calls g_config g_commits add_commit].
    rewrite Hfs3, Hcfg3, Hcm3, Hidx3, Hcalls3, Hcalls2, Hcalls1.
    destruct Hcfg1 as [Hn He].
    split; [exact Hdot2|]. split; [exact Hn|]. split; [exact He|].
    split; [|split].
    + rewrite Hfs2, lookup_insert_eq. eauto.
    + reflexivity.
    + now rewrite <- !app_assoc.
Qed.

Lemma try_except_ret {A} (body : M A) c h w a w' :
  body w = (Ret a, w') -> try_except body c h w = (Ret a, w').
Proof. intros H. unfold try_except. now rewrite H. Qed.

Lemma try_except_caught {A} (body : M A) c h w e w' :
  body w = (Raise e, w') -> c e = true -> try_except body c h w = h e w'.
Proof. intros H Hc. unfold try_except. now rewrite H, Hc. Qed.


Lemma setup_repo_body_unset U E R w :
  normal_dir R = true ->
  is_dir (w_fs w !! R) = true ->
  w_fs w !! os_path_join R ".git" = None ->
  no_faults w ->
  U = None \/ E = None ->
  exists w',
    setup_repo_body U E R w = (Raise unset_value, w')
    /\ is_dir (w_fs w' !! os_path_join R ".git") = true
    /\ g_config (w_git w') !! "user.name" = U
    /\ g_config (w_git w') !! "user.email" = None
    /\ w_fs w' !! os_path_join R "README.md" = w_fs w !! os_path_join R "README.md"
    /\ g_commits (w_git w') = []
    /\ w_git_calls w' = w_git_calls w ++ [["init"]]
    /\ w_log w' = w_log w ++ [(INFO, "Initializing git repository...")].
Proof.
  intros HR Hdir Hgit Hok Hunset.
  pose proof (readme_neq_git R HR) as Hrg.
  unfold setup_repo_body.
  rewrite os_path_isdir_then, Hgit. cbn [is_dir negb when].
  rewrite !bind_assoc. rewrite logger_info_then. rewrite !bind_assoc.
  rewrite (bind_eq_ret (Repo_init R) _ _ _ _
             (Repo_init_fresh R (set_log _ w) HR Hdir Hgit (Hok _))).
  assert (Hrd : forall x, <[os_path_join R ".git" := x]> (w_fs w) !! os_path_join R "README.md"
                          = w_fs w !! os_path_join R "README.md").
  { intros x. rewrite lookup_insert_ne; [reflexivity | apply not_eq_sym, Hrg]. }
  destruct U as [u|].
  - destruct E as [e|]; [destruct Hunset as [Hu|Hu]; discriminate Hu|].
    rewrite !bind_assoc, config_set_value_then.
    rewrite !bind_assoc, config_set_value_unset.
    eexists. split; [reflexivity|].
    unfold init_world.
    cbn [w_fs w_git w_git_calls w_log set_log set_git set_fs set_tick set_git_calls
         set_repo_ok g_config g_commits set_config fresh_repo].
    repeat split;
      first [ reflexivity | apply Hrd | apply lookup_insert_eq | apply lookup_empty
            | now rewrite lookup_insert_eq
            | rewrite lookup_insert_ne by discriminate; apply lookup_empty ].
  - rewrite !bind_assoc, config_set_value_unset.
    eexists. split; [reflexivity|].
    unfold init_world.
    cbn [w_fs w_git w_git_calls w_log set_log set_git set_fs set_tick set_git_calls
         set_repo_ok g_config g_commits set_config fresh_repo].
    repeat split;
      first [ reflexivity | apply Hrd | apply lookup_insert_eq | apply lookup_empty
            | now rewrite lookup_insert_eq
            | rewrite lookup_insert_ne by discriminate; apply lookup_empty ].
Qed.

(** C5, as the code has it. When the repository directory exists and
    holds no [.git], and git itself does not fail: (a) if the user name
    and the e-mail address are both configured, [setup_repo]
    initialises a repository, sets [user.name] and [user.email] from
    the configuration and returns a handle; if there is no [README.md]
    yet it writes the fixed README and makes an initial commit that
    contains it, and if a [README.md] is already there it leaves it as
    it is and makes no commit.  (b) If one of the two is not configured
    ([os.getenv] gave [None]), [set_value] raises [TypeError] on it:
    [setup_repo] has initialised the repository, logs the error and
    returns [None], without a README, a commit or an e-mail address. *)
Theorem setup_repo_initialises U E R w :
  normal_dir R = true ->
  is_dir (w_fs w !! R) = true ->
  w_fs w !! os_path_join R ".git" = None ->
  no_faults w ->
  (forall u e, U = Some u -> E = Some e ->
     exists w',
       setup_repo U E R w = (Ret (Some (mk_handle R)), w')
       /\ is_dir (w_fs w' !! os_path_join R ".git") = true
       /\ g_config (w_git w') !! "user.name" = Some u
       /\ g_config (w_git w') !! "user.email" = Some e
       /\ match w_fs w !! os_path_join R "README.md" with
          | None =>
              (exists t, w_fs w' !! os_path_join R "README.md" = Some (File README_TEXT t))
              /\ g_commits (w_git w')
                 = [("Initial commit: Add README", {["README.md" := README_TEXT]})]
              /\ w_git_calls w' = w_git_calls w ++
                   [["init"]; ["add"; "README.md"];
                    ["commit"; "-m"; "Initial commit: Add README"]]
          | Some n =>
              w_fs w' !! os_path_join R "README.md" = Some n
              /\ g_commits (w_git w') = []
              /\ w_git_calls w' = w_git_calls w ++ [["init"]]
          end)
  /\ (U = None \/ E = None ->
      exists w',
        setup_repo U E R w = (Ret None, w')
        /\ is_dir (w_fs w' !! os_path_join R ".git") = true
        /\ g_config (w_git w') !! "user.name" = U
        /\ g_config (w_git w') !! "user.email" = None
        /\ w_fs w' !! os_path_join R "README.md" = w_fs w !! os_path_join R "README.md"
        /\ g_commits (w_git w') = []
        /\ w_git_calls w' = w_git_calls w ++ [["init"]]
        /\ w_log w' = w_log w ++
             [(INFO, "Initializing git repository...");
              (ERROR, "Error setting up repository: decoding to str: need a bytes-like object, NoneType found")]).
Proof.
  intros HR Hdir Hgit Hok. split.
  - intros u e -> ->.
    destruct (setup_repo_body_fresh u e R w HR Hdir Hgit Hok) as (w' & Hrun & Hrest).
    exists w'. split; [|exact Hrest].
    unfold setup_repo. now apply try_except_ret.
  - intros Hunset.
    destruct (setup_repo_body_unset U E R w HR Hdir Hgit Hok Hunset)
      as (w' & Hrun & Hdot & Hname & Hmail & Hreadme & Hcm & Hcalls & Hlog).
    eexists. split.
    + unfold setup_repo. rewrite (try_except_caught _ _ _ _ _ _ Hrun eq_refl).
      reflexivity.
    + cbn [w_fs w_git w_git_calls w_log set_log]. rewrite Hlog, <- app_assoc.
      repeat split; assumption || reflexivity.
Qed.

Lemma setup_repo_initialises_witness :
  (exists w',
     setup_repo (Some "me") (Some "me@example.org") Sample.root (Sample.first_run [])
     = (Ret (Some (mk_handle Sample.root)), w')
     /\ g_commits (w_git w')
        = [("Initial commit: Add README", {["README.md" := README_TEXT]})])
  /\ (exists w',
        setup_repo (Some "me") (Some "me@example.org") Sample.root Sample.with_readme
        = (Ret (Some (mk_handle Sample.root)), w')
        /\ g_commits (w_git w') = [])
  /\ (exists w',
        setup_repo (Some "me") None Sample.root (Sample.first_run [])
        = (Ret None, w')
        /\ g_config (w_git w') !! "user.name" = Some "me"
        /\ g_commits (w_git w') = []).
Proof.
  split; [|split].
  - destruct (setup_repo_initialises (Some "me") (Some "me@example.org") Sample.root
                (Sample.first_run []))
      as (Hset & _);
      [reflexivity | reflexivity | reflexivity | intros k; reflexivity |].
    destruct (Hset "me" "me@example.org" eq_refl eq_refl)
      as (w' & Hrun & _ & _ & _ & Hreadme).
    exists w'. split; [exact Hrun|].
    change (w_fs (Sample.first_run []) !! os_path_join Sample.root "README.md")
      with (@None Node) in Hreadme.
    apply Hreadme.
  - destruct (setup_repo_initialises (Some "me") (Some "me@example.org") Sample.root
                Sample.with_readme)
      as (Hset & _);
      [reflexivity | reflexivity | reflexivity | intros k; reflexivity |].
    destruct (Hset "me" "me@example.org" eq_refl eq_refl)
      as (w' & Hrun & _ & _ & _ & Hreadme).
    exists w'. split; [exact Hrun|].
    change (w_fs Sample.with_readme !! os_path_join Sample.root "README.md")
      with (Some (File "my notes" 0)) in Hreadme.
    apply Hreadme.
  - destruct (setup_repo_initialises (Some "me") None Sample.root (Sample.first_run []))
      as (_ & Hunset);
      [reflexivity | reflexivity | reflexivity | intros k; reflexivity |].
    destruct (Hunset (or_intror eq_refl))
      as (w' & Hrun & _ & Hname & _ & _ & Hcm & _).
    exists w'. split; [exact Hrun|]. split; [exact Hname | exact Hcm].
Defined.

(** C5, as the specification words it, fails: in a directory without
    [.git] that already has a [README.md], [setup_repo] succeeds but
    neither writes the fixed README nor makes an initial commit. *)
Lemma setup_repo_keeps_existing_readme :
  let w := Sample.with_readme in
  let run := setup_repo (Some "me") (Some "me@example.org") Sample.root w in
  w_fs w !! os_path_join Sample.root ".git" = None
  /\ fst run = Ret (Some (mk_handle Sample.root))
  /\ w_fs (snd run) !! os_path_join Sample.root "README.md" = Some (File "my notes" 0)
  /\ g_commits (w_git (snd run)) = []
  /\ ~ initialised_with_readme (Some "me") (Some "me@example.org") Sample.root (snd run).
Proof.
  cbv zeta. split; [reflexivity|]. split; [vm_compute; reflexivity|].
  assert (Hrd : w_fs (snd (setup_repo (Some "me") (Some "me@example.org") Sample.root
                             Sample.with_readme))
                !! os_path_join Sample.root "README.md" = Some (File "my notes" 0))
    by (vm_compute; reflexivity).
  split; [exact Hrd|]. split; [vm_compute; reflexivity|].
  intros (_ & _ & _ & [t Ht] & _). rewrite Hrd in Ht. discriminate Ht.
Qed.

(* ===================================================================== *)
(** ** Which exceptions can be raised, and where *)
(* ===================================================================== *)

Section Quiet.

Lemma quiet_ret {A} (a : A) : quiet (ret a).
Proof. intros w r w' H. inversion H; subst. split; [reflexivity | exact I]. Qed.

Lemma quiet_raise {A} c msg :
  is_Exception (mk_exn c msg) = true -> quiet (@raise A c msg).
Proof.
  intros Hc w r w' H. inversion H; subst. split; [reflexivity | exact Hc].
Qed.

Lemma quiet_get {A} (f : World -> A) : quiet (get f).
Proof. intros w r w' H. inversion H; subst. split; [reflexivity | exact I]. Qed.

Lemma quiet_modify f : (forall w, w_stdin (f w) = w_stdin w) -> quiet (modify f).
Proof. intros Hf w r w' H. inversion H; subst. split; [apply Hf | exact I]. Qed.

Lemma quiet_bind {A B} (m : M A) (k : A -> M B) :
  quiet m -> (forall a, quiet (k a)) -> quiet (bind m k).
Proof.
  intros Hm Hk w r w' H. unfold bind in H.
  destruct (m w) as [[a|e] w1] eqn:E.
  - destruct (Hm _ _ _ E) as [Hs1 _]. destruct (Hk a _ _ _ H) as [Hs2 Hr].
    split; [congruence | exact Hr].
  - inversion H; subst. destruct (Hm _ _ _ E) as [Hs He]. split; assumption.
Qed.

Lemma quiet_try_except {A} (m : M A) c h :
  quiet m -> (forall e, quiet (h e)) -> quiet (try_except m c h).
Proof.
  intros Hm Hh w r w' H. unfold try_except in H.
  destruct (m w) as [[a|e] w1] eqn:E.
  - inversion H; subst. apply (Hm _ _ _ E).
  - destruct (c e).
    + destruct (Hm _ _ _ E) as [Hs1 _]. destruct (Hh e _ _ _ H) as [Hs2 Hr].
      split; [congruence | exact Hr].
    + inversion H; subst. apply (Hm _ _ _ E).
Qed.

Lemma quiet_when c m : quiet m -> quiet (when c m).
Proof. intros Hm. destruct c; [exact Hm | apply quiet_ret]. Qed.

Lemma quiet_datetime_now : quiet datetime_now.
Proof. intros w r w' H. inversion H; subst. split; [reflexivity | exact I]. Qed.

End Quiet.

Ltac quiet_step :=
  first
    [ apply quiet_ret
    | apply quiet_get
    | apply quiet_datetime_now
    | apply quiet_raise; reflexivity
    | apply quiet_modify; intros ?; reflexivity
    | apply quiet_when
    | apply quiet_try_except; [|intros ?]
    | match goal with
      | |- quiet (match ?x with _ => _ end) => destruct x
      | |- quiet (let '(_, _) := ?x in _) => destruct x
      end
    | apply quiet_bind; [|intros ?] ].

Ltac solve_quiet := repeat quiet_step.

Lemma quiet_logger_info msg : quiet (logger_info msg).
Proof. unfold logger_info. solve_quiet. Qed.

Lemma quiet_logger_error msg : quiet (logger_error msg).
Proof. unfold logger_error. solve_quiet. Qed.

Lemma quiet_print s : quiet (print s).
Proof. unfold print. solve_quiet. Qed.

Lemma quiet_stamp_now : quiet stamp_now.
Proof. unfold stamp_now. solve_quiet. Qed.

Lemma quiet_os_path_exists p : quiet (os_path_exists p).
Proof. unfold os_path_exists. solve_quiet. Qed.

Lemma quiet_os_path_isdir p : quiet (os_path_isdir p).
Proof. unfold os_path_isdir. solve_quiet. Qed.

Lemma quiet_os_mkdir name : quiet (os_mkdir name).
Proof.
  unfold os_mkdir. apply quiet_bind; [apply quiet_get|]. intros fs.
  destruct (fs !! name); [solve_quiet|].
  destruct (check_parent fs name) as [c|] eqn:Ec.
  - apply quiet_raise. unfold check_parent in Ec.
    destruct (truthy (parent_of name)); [|discriminate].
    destruct (fs !! parent_of name) as [[]|]; inversion Ec; reflexivity.
  - apply quiet_bind; [apply quiet_stamp_now|]. intros t. solve_quiet.
Qed.

Lemma quiet_os_makedirs_rec fuel : forall name, quiet (os_makedirs_rec fuel name).
Proof.
  induction fuel as [|fuel IH]; intros name.
  - apply quiet_raise. reflexivity.
  - cbn [os_makedirs_rec].
    destruct (posix_split name) as [head0 tail0].
    destruct (if truthy tail0 then (head0, tail0) else posix_split head0) as [head tail].
    apply quiet_bind; [apply quiet_os_path_exists|]. intros ex.
    destruct (truthy head && truthy tail && negb ex).
    + apply quiet_bind.
      * apply quiet_try_except; [apply IH | intros; apply quiet_ret].
      * intros _. destruct (String.eqb tail "."); [apply quiet_ret | apply quiet_os_mkdir].
    + apply quiet_os_mkdir.
Qed.

Lemma quiet_os_makedirs name : quiet (os_makedirs name).
Proof. apply quiet_os_makedirs_rec. Qed.

Lemma quiet_open_write path content : quiet (open_write path content).
Proof.
  unfold open_write. apply quiet_bind; [apply quiet_get|]. intros fs.
  assert (Hgo : quiet (match check_parent fs path with
                       | Some c => raise c path
                       | None => t <- stamp_now ;;
                           modify (fun w => set_fs (<[path := File content t]> (w_fs w)) w)
                       end)).
  { destruct (check_parent fs path) as [c|] eqn:Ec.
    - apply quiet_raise. unfold check_parent in Ec.
      destruct (truthy (parent_of path)); [|discriminate].
      destruct (fs !! parent_of path) as [[]|]; inversion Ec; reflexivity.
    - apply quiet_bind; [apply quiet_stamp_now|]. intros t. solve_quiet. }
  destruct (fs !! path) as [[c m|m]|]; try exact Hgo. solve_quiet.
Qed.

Lemma quiet_entry_is_current R today : quiet (entry_is_current R today).
Proof.
  intros w r w' H. rewrite entry_is_current_eq in H. inversion H; subst.
  split; [reflexivity | exact I].
Qed.

Lemma quiet_print_menu prompts : forall i, quiet (print_menu i prompts).
Proof.
  induction prompts as [|p rest IH]; intros i; cbn [print_menu].
  - apply quiet_ret.
  - apply quiet_bind; [apply quiet_print | intros; apply IH].
Qed.

Lemma quiet_path_relative_to p base : quiet (path_relative_to p base).
Proof. unfold path_relative_to. solve_quiet. Qed.

Lemma quiet_git_cmd {A} args (run : M A) : quiet run -> quiet (git_cmd args run).
Proof. intros Hrun. unfold git_cmd. solve_quiet. exact Hrun. Qed.

Lemma quiet_require_repo repo : quiet (require_repo repo).
Proof.
  unfold require_repo. apply quiet_bind; [apply quiet_os_path_isdir|].
  intros []; solve_quiet.
Qed.

Lemma quiet_Repo_open path : quiet (Repo_open path).
Proof.
  unfold Repo_open. apply quiet_bind; [apply quiet_get|]. intros fs.
  destruct (fs !! path); [|solve_quiet].
  destruct (is_dir (fs !! os_path_join path ".git")); solve_quiet.
Qed.

Lemma quiet_Repo_init path : quiet (Repo_init path).
Proof.
  unfold Repo_init.
  apply quiet_bind; [apply quiet_os_path_exists|]. intros ex.
  apply quiet_bind; [apply quiet_when, quiet_os_makedirs|]. intros _.
  apply quiet_bind; [|intros; apply quiet_Repo_open].
  apply quiet_git_cmd.
  apply quiet_bind; [apply quiet_get|]. intros fs.
  solve_quiet.
Qed.

Lemma quiet_config_set_value repo section key value :
  quiet (config_set_value repo section key value).
Proof. unfold config_set_value, force_text. solve_quiet. Qed.

Lemma quiet_git_add repo rel : quiet (git_add repo rel).
Proof.
  unfold git_add. apply quiet_git_cmd.
  apply quiet_bind; [apply quiet_require_repo|]. intros _.
  apply quiet_bind; [apply quiet_get|]. intros fs.
  apply quiet_bind; [apply quiet_get|]. intros g.
  solve_quiet.
Qed.

Lemma quiet_git_diff_staged repo : quiet (git_diff_staged repo).
Proof.
  unfold git_diff_staged. apply quiet_git_cmd.
  apply quiet_bind; [apply quiet_require_repo|]. intros _. solve_quiet.
Qed.

Lemma quiet_git_commit repo msg : quiet (git_commit repo msg).
Proof.
  unfold git_commit. apply quiet_git_cmd.
  apply quiet_bind; [apply quiet_require_repo|]. intros _.
  apply quiet_bind; [apply quiet_get|]. intros g.
  destruct (bool_decide (g_index g = g_head g)); solve_quiet.
Qed.

Lemma quiet_repo_remote_names repo : quiet (repo_remote_names repo).
Proof. unfold repo_remote_names. solve_quiet. Qed.

Lemma quiet_git_push repo remote branch : quiet (git_push repo remote branch).
Proof.
  unfold git_push. apply quiet_git_cmd.
  apply quiet_bind; [apply quiet_require_repo|]. intros _.
  apply quiet_bind; [apply quiet_get|]. intros g.
  solve_quiet.
Qed.

Lemma quiet_setup_repo_body U E R : quiet (setup_repo_body U E R).
Proof.
  unfold setup_repo_body.
  apply quiet_bind; [apply quiet_os_path_isdir|]. intros has_git.
  apply quiet_bind.
  - apply quiet_when.
    apply quiet_bind; [apply quiet_logger_info|]. intros _.
    apply quiet_bind; [apply quiet_Repo_init|]. intros repo.
    apply quiet_bind; [apply quiet_config_set_value|]. intros _.
    apply quiet_bind; [apply quiet_config_set_value|]. intros _.
    apply quiet_bind; [apply quiet_os_path_exists|]. intros ex.
    apply quiet_when.
    apply quiet_bind; [apply quiet_open_write|]. intros _.
    apply quiet_bind; [apply quiet_git_add|]. intros _.
    apply quiet_bind; [apply quiet_git_commit|]. intros _.
    apply quiet_logger_info.
  - intros _. apply quiet_bind; [apply quiet_Repo_open|]. intros repo.
    apply quiet_ret.
Qed.

Lemma quiet_setup_repo U E R : quiet (setup_repo U E R).
Proof.
  unfold setup_repo. apply quiet_try_except; [apply quiet_setup_repo_body|].
  intros e. apply quiet_bind; [apply quiet_logger_error | intros; apply quiet_ret].
Qed.

Lemma quiet_contained {A} (m : M A) : quiet m -> contained m.
Proof.
  intros Hq w r w' H. destruct (Hq _ _ _ H) as [Hs Hr]. split.
  - rewrite Hs. apply incl_refl.
  - destruct r; [exact I | now left].
Qed.

Lemma contained_bind {A B} (m : M A) (k : A -> M B) :
  contained m -> (forall a, contained (k a)) -> contained (bind m k).
Proof.
  intros Hm Hk w r w' H. unfold bind in H.
  destruct (m w) as [[a|e] w1] eqn:E.
  - destruct (Hm _ _ _ E) as [Hs1 _]. destruct (Hk a _ _ _ H) as [Hs2 Hr].
    split; [eapply incl_tran; eassumption|].
    destruct r as [b|e]; [exact I|].
    destruct Hr as [Hr|[Hc Hin]]; [now left | right; split; [exact Hc | now apply Hs1]].
  - inversion H; subst. destruct (Hm _ _ _ E) as [Hs He]. split; assumption.
Qed.

Lemma select_prompts_contained inp : forall count sel w r w',
  incl inp (w_stdin w) ->
  select_prompts inp count sel w = (r, w') ->
  incl (w_stdin w') (w_stdin w)
  /\ match r with
     | Ret _ => True
     | Raise e => is_Exception e = true
                  \/ (exn_class e = KeyboardInterrupt /\ In Interrupt inp)
     end.
Proof.
  induction inp as [|ev rest IH]; intros count sel w r w' Hincl H.
  - cbn [select_prompts] in H. destruct (count <=? 3); inversion H; subst.
    + split; [intros x []| now left].
    + split; [apply incl_refl | exact I].
  - cbn [select_prompts] in H. destruct (count <=? 3).
    2:{ inversion H; subst. split; [apply incl_refl | exact I]. }
    assert (Hrest : incl rest (w_stdin w)).
    { intros x Hx. apply Hincl. now right. }
    destruct ev as [l|].
    2:{ inversion H; subst. split; [exact Hrest|]. right. split; [reflexivity | now left]. }
    destruct (classify (strip l)).
    5:{ inversion H; subst. split; [exact Hrest | now left]. }
    1:{ inversion H; subst. split; [exact Hrest | exact I]. }
    all: apply IH in H as [Hs Hr]; [|apply incl_refl];
      (split; [eapply incl_tran; [exact Hs | exact Hrest]|]);
      destruct r as [b|e]; [exact I|];
      destruct Hr as [Hr|[Hc Hin]]; [now left | right; split; [exact Hc | now right]].
Qed.

Lemma contained_selection_loop : contained selection_loop.
Proof.
  intros w r w' H. unfold selection_loop in H.
  apply select_prompts_contained in H; [exact H | apply incl_refl].
Qed.

Lemma contained_create_journal_entry R : contained (create_journal_entry R).
Proof.
  unfold create_journal_entry.
  repeat first
    [ apply quiet_contained;
      first [ apply quiet_when; apply quiet_bind;
              [apply quiet_os_makedirs | intros ?; apply quiet_logger_info]
            | apply quiet_datetime_now
            | apply quiet_os_path_exists
            | apply quiet_logger_info
            | apply quiet_entry_is_current
            | apply quiet_print
            | apply quiet_print_menu
            | apply quiet_open_write
            | apply quiet_ret ]
    | apply contained_selection_loop
    | match goal with |- contained (if ?c then _ else _) => destruct c end
    | apply contained_bind; [|intros ?] ].
Qed.

Lemma contained_commit_to_github_body U E R : contained (commit_to_github_body U E R).
Proof.
  unfold commit_to_github_body.
  apply contained_bind; [apply quiet_contained, quiet_setup_repo|].
  intros [repo|]; [|apply quiet_contained, quiet_ret].
  apply contained_bind; [apply contained_create_journal_entry|]. intros entry_path.
  apply quiet_contained.
  apply quiet_bind; [apply quiet_path_relative_to|]. intros rel.
  apply quiet_bind; [apply quiet_git_add|]. intros _.
  apply quiet_bind; [apply quiet_git_diff_staged|]. intros staged.
  destruct (negb (truthy staged)).
  - apply quiet_bind; [apply quiet_logger_info | intros; apply quiet_ret].
  - apply quiet_bind; [apply quiet_datetime_now|]. intros now.
    apply quiet_bind; [apply quiet_git_commit|]. intros _.
    apply quiet_bind; [apply quiet_repo_remote_names|]. intros names.
    apply quiet_bind.
    + destruct (existsb (String.eqb "origin") names).
      * apply quiet_bind; [apply quiet_logger_info | intros; apply quiet_git_push].
      * apply quiet_bind; [apply quiet_logger_info | intros; apply quiet_logger_info].
    + intros _. apply quiet_bind; [apply quiet_logger_info | intros; apply quiet_ret].
Qed.




(* ===================================================================== *)
(** ** [commit_to_github] *)
(* ===================================================================== *)

Lemma diff_text_empty paths : diff_text paths = "" <-> paths = [].
Proof.
  split; [|intros ->; reflexivity].
  destruct paths as [|p l]; [reflexivity|]. cbn [diff_text fold_right].
  intros H. discriminate H.
Qed.

Lemma changed_paths_empty (idx head : gmap string string) :
  changed_paths idx head = [] <-> idx = head.
Proof.
  unfold changed_paths. split.
  - intros H. apply fmap_nil_inv in H. apply map_to_list_empty_iff in H.
    apply map_eq. intros k.
    pose proof (f_equal (fun m => m !! k) H) as Hk. cbn beta in Hk.
    rewrite lookup_merge, lookup_empty in Hk.
    destruct (idx !! k) as [a|] eqn:Ea, (head !! k) as [b|] eqn:Eb; cbn in Hk;
      try reflexivity; try (destruct (decide _) as [Heq|]; [exact Heq | discriminate Hk]).
  - intros ->. 
    assert (Hm : merge (fun a b : option string =>
                          if decide (a = b) then None else Some tt) head head
                 = (∅ : gmap string unit)).
    { apply map_eq. intros k. rewrite lookup_merge, lookup_empty.
      destruct (head !! k); cbn; [|reflexivity].
      destruct (decide _); [reflexivity | congruence]. }
    rewrite Hm. now rewrite map_to_list_empty.
Qed.

Lemma git_cmd_ret_inv {A} args (run : M A) w a w' :
  git_cmd args run w = (Ret a, w') ->
  run (set_git_calls (w_git_calls w ++ [args]) w) = (Ret a, w').
Proof.
  unfold git_cmd. intros H.
  apply bind_ret_inv in H as (n & wa & Hn & H). inversion Hn; subst n wa; clear Hn.
  apply bind_ret_inv in H as ([] & wb & Hm & H). inversion Hm; subst wb; clear Hm.
  apply bind_ret_inv in H as (f & wc & Hf & H). inversion Hf; subst f wc; clear Hf.
  match type of H with (match ?x with _ => _ end) _ = _ => destruct x end;
    [discriminate H | exact H].
Qed.

Lemma require_repo_ret_inv repo w u w' :
  require_repo repo w = (Ret u, w') -> w' = w.
Proof.
  unfold require_repo. intros H.
  apply bind_ret_inv in H as (isd & wa & Hi & H). inversion Hi; subst isd wa; clear Hi.
  apply bind_ret_inv in H as (ok & wa & Hi & H). inversion Hi; subst ok wa; clear Hi.
  match type of H with (if ?x then _ else _) _ = _ => destruct x end;
    inversion H; reflexivity.
Qed.

Lemma git_diff_staged_inv repo w s w' :
  git_diff_staged repo w = (Ret s, w') ->
  w' = set_git_calls (w_git_calls w ++ [["diff"; "--staged"]]) w
  /\ s = diff_text (changed_paths (g_index (w_git w)) (g_head (w_git w))).
Proof.
  unfold git_diff_staged. intros H. apply git_cmd_ret_inv in H.
  apply bind_ret_inv in H as (u & wa & Hr & H).
  apply require_repo_ret_inv in Hr. subst wa.
  apply bind_ret_inv in H as (g & wb & Hg & H). inversion Hg; subst g wb; clear Hg.
  inversion H; subst. split; reflexivity.
Qed.

Lemma git_commit_inv repo msg w w' :
  git_commit repo msg w = (Ret tt, w') ->
  w' = set_git (add_commit msg (w_git w))
         (set_git_calls (w_git_calls w ++ [["commit"; "-m"; msg]]) w).
Proof.
  unfold git_commit. intros H. apply git_cmd_ret_inv in H.
  apply bind_ret_inv in H as (u & wa & Hr & H).
  apply require_repo_ret_inv in Hr. subst wa.
  apply bind_ret_inv in H as (g & wb & Hg & H). inversion Hg; subst g wb; clear Hg.
  match type of H with (if ?x then _ else _) _ = _ => destruct x end;
    inversion H; reflexivity.
Qed.

(** C3. In every run in which the staged diff is empty after the entry
    path has been staged, [commit_to_github] returns [False]; the last
    git command it ran is the [diff --staged] (no commit is invoked and
    the repository is as staging left it); and the outcome is logged at
    info level as "No changes to commit", not as an error.  The staged
    diff is empty exactly when the index equals the last commit. *)
Theorem empty_staged_diff_is_not_committed U E R w repo w1 p w2 rel w3 w4 :
  setup_repo U E R w = (Ret (Some repo), w1) ->
  create_journal_entry R w1 = (Ret p, w2) ->
  relative_to p (working_dir repo) = Some rel ->
  git_add repo rel w2 = (Ret tt, w3) ->
  git_diff_staged repo w3 = (Ret "", w4) ->
  exists final,
    commit_to_github U E R w = (Ret false, final)
    /\ w_git_calls final = w_git_calls w3 ++ [["diff"; "--staged"]]
    /\ w_git final = w_git w3
    /\ w_log final = w_log w3 ++ [(INFO, "No changes to commit")]
    /\ g_index (w_git w3) = g_head (w_git w3).
Proof.
  intros Hsetup Hcreate Hrel Hadd Hdiff.
  exists (set_log (w_log w4 ++ [(INFO, "No changes to commit")]) w4).
  split.
  - unfold commit_to_github. apply try_except_ret.
    unfold commit_to_github_body.
    rewrite (bind_eq_ret _ _ _ _ _ Hsetup).
    rewrite (bind_eq_ret _ _ _ _ _ Hcreate).
    unfold path_relative_to. rewrite Hrel.
    unfold bind at 1, ret at 1.
    rewrite (bind_eq_ret _ _ _ _ _ Hadd).
    rewrite (bind_eq_ret _ _ _ _ _ Hdiff).
    reflexivity.
  - apply git_diff_staged_inv in Hdiff as [-> Hs].
    repeat split.
    symmetry in Hs. apply diff_text_empty in Hs. now apply changed_paths_empty.
Qed.

(** C4. In every run in which the commit succeeds and the repository
    has no remote named "origin", [commit_to_github] runs no push (the
    commit is the last git command) and returns [True], logging the
    guidance at info level. *)
Theorem no_origin_is_still_success U E R w repo w1 p w2 rel w3 staged w4 w5 :
  setup_repo U E R w = (Ret (Some repo), w1) ->
  create_journal_entry R w1 = (Ret p, w2) ->
  relative_to p (working_dir repo) = Some rel ->
  git_add repo rel w2 = (Ret tt, w3) ->
  git_diff_staged repo w3 = (Ret staged, w4) ->
  truthy staged = true ->
  let today := strftime_Ymd (w_clock w4 (w_tick w4)) in
  git_commit repo ("Add journal entry for " +:+ today) (set_tick (S (w_tick w4)) w4)
  = (Ret tt, w5) ->
  existsb (String.eqb "origin") (g_remotes (w_git w5)) = false ->
  exists final,
    commit_to_github U E R w = (Ret true, final)
    /\ w_git_calls final
       = w_git_calls w4 ++ [["commit"; "-m"; "Add journal entry for " +:+ today]]
    /\ w_git final = w_git w5
    /\ w_log final
       = w_log w5 ++
         [(INFO, "No remote repository configured. Skipping push.");
          (INFO, "To push manually, set up a remote repository and run: git push -u origin main");
          (INFO, "Successfully committed journal entry for " +:+ today)].
Proof.
  intros Hsetup Hcreate Hrel Hadd Hdiff Htruthy today Hcommit Horigin.
  eexists. split.
  - unfold commit_to_github. apply try_except_ret.
    unfold commit_to_github_body.
    rewrite (bind_eq_ret _ _ _ _ _ Hsetup).
    rewrite (bind_eq_ret _ _ _ _ _ Hcreate).
    unfold path_relative_to. rewrite Hrel.
    unfold bind at 1, ret at 1.
    rewrite (bind_eq_ret _ _ _ _ _ Hadd).
    rewrite (bind_eq_ret _ _ _ _ _ Hdiff).
    rewrite Htruthy. cbn [negb].
    unfold bind at 1, datetime_now at 1.
    fold today. rewrite (bind_eq_ret _ _ _ _ _ Hcommit).
    unfold bind at 1, repo_remote_names at 1, get at 1.
    rewrite Horigin.
    reflexivity.
  - apply git_commit_inv in Hcommit. subst w5.
    cbn [w_git_calls w_git w_log set_log set_git set_git_calls set_tick].
    rewrite <- !app_assoc. repeat split.
Qed.

Lemma empty_staged_diff_is_not_committed_witness :
  exists final,
    commit_to_github (Some "me") (Some "me@example.org") Sample.root
      Sample.after_first_commit = (Ret false, final)
    /\ w_log final
       = w_log Sample.after_first_commit ++
         [(INFO, "Journal entry for 2024-03-05 already exists. Skipping creation.");
          (INFO, "No changes to commit")].
Proof.
  set (U := Some "me"). set (E := Some "me@example.org").
  set (repo := mk_handle Sample.root).
  set (w1 := snd (setup_repo U E Sample.root Sample.after_first_commit)).
  set (w2 := snd (create_journal_entry Sample.root w1)).
  set (w3 := snd (git_add repo Sample.entry_rel w2)).
  set (w4 := snd (git_diff_staged repo w3)).
  destruct (empty_staged_diff_is_not_committed U E Sample.root Sample.after_first_commit
              repo w1 (os_path_join Sample.root Sample.entry_rel) w2 Sample.entry_rel w3 w4)
    as (final & Hrun & _ & _ & Hlog & _).
  - vm_compute. reflexivity.
  - vm_compute. reflexivity.
  - vm_compute. reflexivity.
  - vm_compute. reflexivity.
  - vm_compute. reflexivity.
  - exists final. split; [exact Hrun|]. rewrite Hlog. vm_compute. reflexivity.
Defined.

Lemma no_origin_is_still_success_witness :
  exists final,
    commit_to_github (Some "me") (Some "me@example.org") Sample.root
      (Sample.first_run [Line "done"]) = (Ret true, final)
    /\ w_git_calls final
       = [["init"]; ["add"; "README.md"];
          ["commit"; "-m"; "Initial commit: Add README"];
          ["add"; "journals/march-2024/05/2024-03-05.md"];
          ["diff"; "--staged"];
          ["commit"; "-m"; "Add journal entry for 2024-03-05"]].
Proof.
  set (U := Some "me"). set (E := Some "me@example.org").
  set (repo := mk_handle Sample.root).
  set (w := Sample.first_run [Line "done"]).
  set (w1 := snd (setup_repo U E Sample.root w)).
  set (w2 := snd (create_journal_entry Sample.root w1)).
  set (w3 := snd (git_add repo Sample.entry_rel w2)).
  set (w4 := snd (git_diff_staged repo w3)).
  set (w5 := snd (git_commit repo "Add journal entry for 2024-03-05"
                    (set_tick (S (w_tick w4)) w4))).
  destruct (no_origin_is_still_success U E Sample.root w
              repo w1 (os_path_join Sample.root Sample.entry_rel) w2 Sample.entry_rel w3
              ("diff --git a/journals/march-2024/05/2024-03-05.md b/journals/march-2024/05/2024-03-05.md" +:+ nl)
              w4 w5)
    as (final & Hrun & Hcalls & _).
  - vm_compute. reflexivity.
  - vm_compute. reflexivity.
  - vm_compute. reflexivity.
  - vm_compute. reflexivity.
  - vm_compute. reflexivity.
  - reflexivity.
  - vm_compute. reflexivity.
  - vm_compute. reflexivity.
  - exists final. split; [exact Hrun|]. rewrite Hcalls. vm_compute. reflexivity.
Defined.

(* ===================================================================== *)
(** ** Further properties of the answer loop *)
(* ===================================================================== *)

Lemma classify_pick_nonempty u p : classify u = Pick p -> p <> "".
Proof. intros H. apply (classify_selects u). now left. Qed.

Lemma classify_free_nonempty u t : classify u = Free t -> t <> "".
Proof. intros H. apply (classify_selects u). now right. Qed.

Lemma select_prompts_bound inp : forall count sel w r w',
  select_prompts inp count sel w = (Ret r, w') ->
  (exists new, r = sel ++ new
               /\ (Z.of_nat (length new) <= Z.max 0 (4 - count))
               /\ Forall (fun p => p <> "") new)
  /\ ((count <= 3 /\ exists used, inp = used ++ w_stdin w') \/ (3 < count /\ w' = w)).
Proof.
  induction inp as [|ev rest IH]; intros count sel w r w' H.
  - cbn [select_prompts] in H. destruct (Z.leb_spec count 3); [discriminate H|].
    inversion H; subst. split; [|right; split; [lia | reflexivity]].
    exists []. rewrite app_nil_r. repeat split; [cbn; lia | constructor].
  - cbn [select_prompts] in H. destruct (Z.leb_spec count 3) as [Hc|Hc].
    2:{ inversion H; subst. split; [|right; split; [lia | reflexivity]].
        exists []. rewrite app_nil_r. repeat split; [cbn; lia | constructor]. }
    destruct ev as [l|]; [|discriminate H].
    destruct (classify (strip l)) as [|p|t| |msg] eqn:Ecl; [| | | |discriminate H].
    + inversion H; subst. split.
      * exists []. rewrite app_nil_r. repeat split; [cbn; lia | constructor].
      * left. split; [exact Hc|]. exists [Line l]. reflexivity.
    + apply IH in H as [(new & -> & Hlen & Hall) Hin]. split.
      * exists (p :: new). rewrite <- app_assoc. repeat split.
        -- cbn [length]. lia.
        -- constructor; [eapply classify_pick_nonempty; exact Ecl | exact Hall].
      * left. split; [exact Hc|].
        destruct Hin as [[_ [used ->]]|[_ ->]].
        -- exists (Line l :: used). reflexivity.
        -- exists [Line l]. reflexivity.
    + apply IH in H as [(new & -> & Hlen & Hall) Hin]. split.
      * exists (t :: new). rewrite <- app_assoc. repeat split.
        -- cbn [length]. lia.
        -- constructor; [eapply classify_free_nonempty; exact Ecl | exact Hall].
      * left. split; [exact Hc|].
        destruct Hin as [[_ [used ->]]|[_ ->]].
        -- exists (Line l :: used). reflexivity.
        -- exists [Line l]. reflexivity.
    + apply IH in H as [(new & -> & Hlen & Hall) Hin]. split.
      * exists new. repeat split; assumption.
      * left. split; [exact Hc|].
        destruct Hin as [[_ [used ->]]|[Hgt _]]; [|lia].
        exists (Line l :: used). reflexivity.
Qed.

(** X1. Whatever is typed, the answer loop of [create_journal_entry]
    selects at most three prompts, never an empty one, and what it
    leaves on standard input is a suffix of what was there. *)
Theorem selection_at_most_three w r w' :
  selection_loop w = (Ret r, w') ->
  (length r <= 3)%nat
  /\ Forall (fun p => p <> "") r
  /\ exists used, w_stdin w = used ++ w_stdin w'.
Proof.
  unfold selection_loop. intros H.
  apply select_prompts_bound in H as [(new & -> & Hlen & Hall) Hin].
  cbn [app]. split; [lia|]. split; [exact Hall|].
  destruct Hin as [[_ Hused]|[Hgt _]]; [exact Hused | lia].
Qed.

Lemma selection_at_most_three_witness :
  exists w',
    selection_loop (Sample.first_run [Line "9"; Line "mine"; Line ""; Line "2"; Line "5"])
    = (Ret ["What's something I accomplished today?"; "mine";
            "What could have gone better?"], w')
    /\ (3 <= 3)%nat.
Proof.
  eexists. split; [vm_compute; reflexivity|].
  refine (proj1 (selection_at_most_three
                   (Sample.first_run [Line "9"; Line "mine"; Line ""; Line "2"; Line "5"])
                   ["What's something I accomplished today?"; "mine";
                    "What could have gone better?"] _ _)).
  vm_compute. reflexivity.
Defined.

(** X2. Three answers fill the three slots: after three lines that
    each select something, the loop returns these three texts in the
    order typed and reads no further; the rest of standard input is
    left for whoever reads next, and exactly three questions were
    written. *)
Theorem three_answers_end_the_loop l1 l2 l3 p1 p2 p3 rest w :
  selected_text l1 = Some p1 ->
  selected_text l2 = Some p2 ->
  selected_text l3 = Some p3 ->
  exists w',
    select_prompts (Line l1 :: Line l2 :: Line l3 :: rest) 1 [] w = (Ret [p1; p2; p3], w')
    /\ w_stdin w' = rest
    /\ w_stdout w' = w_stdout w ++ [input_prompt 1; input_prompt 2; input_prompt 3].
Proof.
  unfold selected_text. intros H1 H2 H3.
  eexists. split.
  - rewrite select_prompts_line by lia.
    destruct (classify (strip l1)); try discriminate H1; injection H1 as ->;
      (rewrite select_prompts_line by lia;
       destruct (classify (strip l2)); try discriminate H2; injection H2 as ->;
       (rewrite select_prompts_line by lia;
        destruct (classify (strip l3)); try discriminate H3; injection H3 as ->;
        apply select_prompts_full; lia)).
  - split; [reflexivity|]. cbn [w_stdout after_input set_stdin set_stdout].
    now rewrite <- !app_assoc.
Qed.

Lemma three_answers_end_the_loop_witness :
  exists w',
    select_prompts [Line "1"; Line "my own"; Line "10"; Line "done"; Line "7"] 1 []
      (Sample.first_run [])
    = (Ret ["What went well today?"; "my own";
            "What's something I'm looking forward to?"], w')
    /\ w_stdin w' = [Line "done"; Line "7"].
Proof.
  destruct (three_answers_end_the_loop "1" "my own" "10"
              "What went well today?" "my own" "What's something I'm looking forward to?"
              [Line "done"; Line "7"] (Sample.first_run []))
    as (w' & Hrun & Hin & _); [reflexivity | reflexivity | reflexivity |].
  exists w'. split; [exact Hrun | exact Hin].
Defined.

(* ===================================================================== *)
(** ** Reading the prompts back from an entry *)
(* ===================================================================== *)

Lemma entry_body_app date sel :
  entry_body date sel
  = ("# Journal Entry: " +:+ date +:+ nl +:+ nl)
    +:+ fold_right (fun prompt rest =>
                      ("## " +:+ prompt +:+ nl +:+ nl +:+ PLACEHOLDER +:+ nl +:+ nl) +:+ rest)
                   "" sel.
Proof.
  unfold entry_body. generalize ("# Journal Entry: " +:+ date +:+ nl +:+ nl).
  induction sel as [|p sel IH]; intros init; cbn [fold_left fold_right].
  - clear. induction init as [|c init IH]; [reflexivity|].
    rewrite append_cons. now rewrite <- IH.
  - rewrite IH. now rewrite !append_assoc.
Qed.

Lemma sub_headings_of_lines l ls :
  map (drop 3) (filter (fun l => Is_true (startswith "## " l)) (l :: ls))
  = if startswith "## " l
    then drop 3 l :: map (drop 3) (filter (fun l => Is_true (startswith "## " l)) ls)
    else map (drop 3) (filter (fun l => Is_true (startswith "## " l)) ls).
Proof.
  rewrite filter_cons. destruct (startswith "## " l) eqn:E.
  - destruct (decide (Is_true true)) as [_|Hn]; [reflexivity|]. exfalso. apply Hn. exact I.
  - destruct (decide (Is_true false)) as [[]|_]. reflexivity.
Qed.

Lemma lines_acc_app_one_line a b cur :
  one_line a = true -> lines_acc (a +:+ b) cur = lines_acc b (cur +:+ a).
Proof.
  unfold one_line. revert cur. induction a as [|c a IH]; intros cur H.
  - rewrite append_empty. f_equal.
    clear. induction cur as [|x cur IH]; [reflexivity|].
    rewrite append_cons. now rewrite <- IH.
  - cbn [all_chars] in H. apply andb_prop in H as [Hc Ha].
    apply negb_true_iff in Hc.
    rewrite append_cons. cbn [lines_acc]. rewrite Hc.
    rewrite IH by exact Ha. f_equal. now rewrite append_assoc.
Qed.

Lemma lines_acc_newline rest cur : lines_acc (nl +:+ rest) cur = cur :: lines_acc rest "".
Proof. reflexivity. Qed.

Lemma lines_of_blocks sel T :
  Forall (fun p => one_line p = true) sel ->
  all_chars plain_char T = true ->
  map (drop 3)
      (filter (fun l => Is_true (startswith "## " l))
         (lines_acc
            (fold_right (fun prompt rest =>
                           ("## " +:+ prompt +:+ nl +:+ nl +:+ PLACEHOLDER +:+ nl +:+ nl)
                           +:+ rest) "" sel
             +:+ (nl +:+ "Created automatically by Journal Bot on " +:+ T)) ""))
  = sel.
Proof.
  intros Hsel HT. induction Hsel as [|p sel Hp Hsel IH]; cbn [fold_right].
  - rewrite append_empty, lines_acc_newline.
    rewrite lines_acc_app_plain by reflexivity.
    rewrite lines_acc_plain by exact HT.
    rewrite !sub_headings_of_lines. reflexivity.
  - rewrite !append_assoc.
    rewrite (lines_acc_app_plain "## ") by reflexivity.
    rewrite (lines_acc_app_one_line p) by exact Hp.
    rewrite lines_acc_newline, lines_acc_newline.
    rewrite (lines_acc_app_plain PLACEHOLDER) by reflexivity.
    rewrite lines_acc_newline, lines_acc_newline.
    rewrite !sub_headings_of_lines.
    change (startswith "## " (("" +:+ "## ") +:+ p)) with true. cbv iota.
    change (drop 3 (("" +:+ "## ") +:+ p)) with p.
    change (startswith "## " "") with false. cbv iota.
    change (startswith "## " ("" +:+ PLACEHOLDER)) with false. cbv iota.
    f_equal. exact IH.
Qed.

(** X3. The prompts can be read back from the entry that
    [create_journal_entry] composes: for every date, every generation
    time and every list of selected prompts without line breaks, the
    lines of the content that open with [## ] are exactly the selected
    prompts, in the order of selection. *)
Theorem sub_headings_are_the_selection today now sel :
  Forall (fun p => one_line p = true) sel ->
  Spec.sub_headings (entry_body (date_str today) sel +:+ entry_footer now) = sel.
Proof.
  intros Hsel. unfold Spec.sub_headings, lines, entry_footer, date_str.
  rewrite entry_body_app, !append_assoc.
  rewrite (lines_acc_app_plain "# Journal Entry: ") by reflexivity.
  rewrite (lines_acc_app_plain (strftime_Ymd today)) by apply plain_strftime_Ymd.
  rewrite lines_acc_newline, lines_acc_newline.
  rewrite !sub_headings_of_lines.
  change (startswith "## " (("" +:+ "# Journal Entry: ") +:+ strftime_Ymd today)) with false.
  change (startswith "## " "") with false. cbv iota.
  exact (lines_of_blocks sel (strftime_YmdHMS now) Hsel (plain_strftime_YmdHMS now)).
Qed.

Lemma sub_headings_are_the_selection_witness :
  Spec.sub_headings
    (entry_body (date_str (Sample.clock 0)) ["What challenged me today?"; "## work/life"; "x"]
     +:+ entry_footer (Sample.clock 4))
  = ["What challenged me today?"; "## work/life"; "x"].
Proof.
  apply sub_headings_are_the_selection.
  repeat constructor.
Defined.

(* ===================================================================== *)
(** ** What each part of the program leaves alone *)
(* ===================================================================== *)

Section Keeps.

Context {B : Type} (f : World -> B).

Lemma keeps_ret {A} (a : A) : keeps f (ret a).
Proof. intros w r w' H. now inversion H. Qed.

Lemma keeps_raise {A} c msg : keeps f (@raise A c msg).
Proof. intros w r w' H. now inversion H. Qed.

Lemma keeps_get {A} (g : World -> A) : keeps f (get g).
Proof. intros w r w' H. now inversion H. Qed.

Lemma keeps_modify g : (forall w, f (g w) = f w) -> keeps f (modify g).
Proof. intros Hg w r w' H. inversion H; subst. apply Hg. Qed.

Lemma keeps_datetime_now :
  (forall n w, f (set_tick n w) = f w) -> keeps f datetime_now.
Proof. intros Hg w r w' H. inversion H; subst. apply Hg. Qed.

Lemma keeps_bind {A C} (m : M A) (k : A -> M C) :
  keeps f m -> (forall a, keeps f (k a)) -> keeps f (bind m k).
Proof.
  intros Hm Hk w r w' H. unfold bind in H.
  destruct (m w) as [[a|e] w1] eqn:E.
  - rewrite (Hk a _ _ _ H). exact (Hm _ _ _ E).
  - inversion H; subst. exact (Hm _ _ _ E).
Qed.

Lemma keeps_try_except {A} (m : M A) c h :
  keeps f m -> (forall e, keeps f (h e)) -> keeps f (try_except m c h).
Proof.
  intros Hm Hh w r w' H. unfold try_except in H.
  destruct (m w) as [[a|e] w1] eqn:E.
  - inversion H; subst. exact (Hm _ _ _ E).
  - destruct (c e).
    + rewrite (Hh e _ _ _ H). exact (Hm _ _ _ E).
    + inversion H; subst. exact (Hm _ _ _ E).
Qed.

Lemma keeps_when c m : keeps f m -> keeps f (when c m).
Proof. intros Hm. destruct c; [exact Hm | apply keeps_ret]. Qed.

End Keeps.

Ltac keeps_step :=
  first
    [ apply keeps_ret
    | apply keeps_get
    | apply keeps_raise
    | apply keeps_datetime_now; intros ? ?; reflexivity
    | apply keeps_modify; intros ?; reflexivity
    | apply keeps_when
    | apply keeps_try_except; [|intros ?]
    | match goal with
      | |- keeps _ (match ?x with _ => _ end) => destruct x
      | |- keeps _ (let '(_, _) := ?x in _) => destruct x
      end
    | apply keeps_bind; [|intros ?] ].

Ltac solve_keeps := repeat keeps_step.

Lemma keeps_os_makedirs_rec {B} (f : World -> B) fuel :
  (forall n w, f (set_tick n w) = f w) ->
  (forall fs w, f (set_fs fs w) = f w) ->
  forall name, keeps f (os_makedirs_rec fuel name).
Proof.
  intros Ht Hf. induction fuel as [|fuel IH]; intros name.
  - apply keeps_raise.
  - cbn [os_makedirs_rec].
    destruct (posix_split name) as [head0 tail0].
    destruct (if truthy tail0 then (head0, tail0) else posix_split head0) as [head tail].
    assert (Hmk : keeps f (os_mkdir name)).
    { unfold os_mkdir. apply keeps_bind; [apply keeps_get|]. intros fs.
      destruct (fs !! name); [apply keeps_raise|].
      destruct (check_parent fs name); [apply keeps_raise|].
      apply keeps_bind.
      - unfold stamp_now. apply keeps_bind; [now apply keeps_datetime_now|].
        intros t. apply keeps_bind; [apply keeps_get | intros; apply keeps_ret].
      - intros t. apply keeps_modify. intros w. apply Hf. }
    apply keeps_bind; [apply keeps_get|]. intros ex.
    destruct (truthy head && truthy tail && negb ex).
    + apply keeps_bind.
      * apply keeps_try_except; [apply IH | intros; apply keeps_ret].
      * intros _. destruct (String.eqb tail "."); [apply keeps_ret | exact Hmk].
    + exact Hmk.
Qed.

Lemma keeps_print_menu {B} (f : World -> B) prompts :
  (forall o w, f (set_stdout o w) = f w) ->
  forall i, keeps f (print_menu i prompts).
Proof.
  intros Ho. induction prompts as [|p rest IH]; intros i; cbn [print_menu].
  - apply keeps_ret.
  - apply keeps_bind; [|intros; apply IH].
    apply keeps_modify. intros w. apply Ho.
Qed.

Lemma keeps_select_prompts {B} (f : World -> B) inp :
  (forall o w, f (set_stdout o w) = f w) ->
  (forall i w, f (set_stdin i w) = f w) ->
  forall count sel w r w', select_prompts inp count sel w = (r, w') -> f w' = f w.
Proof.
  intros Ho Hi. induction inp as [|ev rest IH]; intros count sel w r w' H.
  - cbn [select_prompts] in H. destruct (count <=? 3); inversion H; subst;
      [now rewrite Hi, Ho | reflexivity].
  - cbn [select_prompts] in H. destruct (count <=? 3); [|now inversion H].
    destruct ev as [l|]; [|inversion H; subst; now rewrite Hi, Ho].
    destruct (classify (strip l)).
    1, 5:(inversion H; subst; now rewrite Hi, Ho).
    all: apply IH in H; rewrite H; now rewrite Hi, Ho.
Qed.

(** X4. [create_journal_entry] never touches the repository: whatever
    its outcome (a path, or an exception), the state of git and the
    list of git commands run are what they were. *)
Theorem create_journal_entry_leaves_git_alone R w r w' :
  create_journal_entry R w = (r, w') ->
  w_git w' = w_git w /\ w_git_calls w' = w_git_calls w.
Proof.
  intros H.
  assert (Hk : keeps git_view (create_journal_entry R)).
  { unfold create_journal_entry.
    repeat first
      [ apply keeps_os_makedirs_rec; [intros ? ?; reflexivity | intros ? ?; reflexivity]
      | apply keeps_print_menu; intros ? ?; reflexivity
      | match goal with
        | |- keeps _ selection_loop =>
            intros ? ? ? Hs; unfold selection_loop in Hs;
            apply (keeps_select_prompts git_view) in Hs;
            [exact Hs | intros ? ?; reflexivity | intros ? ?; reflexivity]
        end
      | keeps_step ]. }
  apply Hk in H. unfold git_view in H. now inversion H.
Qed.

Lemma create_journal_entry_leaves_git_alone_witness :
  w_git Sample.after_first_entry = w_git (Sample.first_run [Line "done"])
  /\ w_git_calls Sample.after_first_entry = [].
Proof.
  apply (create_journal_entry_leaves_git_alone Sample.root
           (Sample.first_run [Line "done"])
           (Ret "/home/me/bot/journals/march-2024/05/2024-03-05.md")).
  vm_compute. reflexivity.
Defined.

(** X5. [setup_repo] never uses the console: whatever its outcome, it
    reads nothing from standard input and prints nothing. *)
Theorem setup_repo_leaves_console_alone U E R w r w' :
  setup_repo U E R w = (r, w') ->
  w_stdin w' = w_stdin w /\ w_stdout w' = w_stdout w.
Proof.
  intros H.
  assert (Hk : keeps console_view (setup_repo U E R)).
  { unfold setup_repo, setup_repo_body, Repo_init, Repo_open, git_add, git_commit,
      git_cmd, require_repo, open_write, stamp_now, config_set_value, force_text,
      logger_info,
      logger_error, os_path_exists, os_path_isdir.
    repeat first
      [ apply keeps_os_makedirs_rec; [intros ? ?; reflexivity | intros ? ?; reflexivity]
      | keeps_step ]. }
  apply Hk in H. unfold console_view in H. now inversion H.
Qed.

Lemma setup_repo_leaves_console_alone_witness :
  let w := Sample.first_run [Line "1"] in
  w_stdin (snd (setup_repo None None Sample.root w)) = [Line "1"]
  /\ w_stdout (snd (setup_repo None None Sample.root w)) = [].
Proof.
  cbv zeta.
  apply (setup_repo_leaves_console_alone None None Sample.root
           (Sample.first_run [Line "1"])
           (fst (setup_repo None None Sample.root (Sample.first_run [Line "1"])))).
  vm_compute. reflexivity.
Defined.

(* ===================================================================== *)
(** ** Further properties of [create_journal_entry] *)
(* ===================================================================== *)

(** X6. [create_journal_entry] never removes anything: whatever its
    outcome, every path that was in the file system is still there; and
    whenever it returns, the entry and the three directories above it
    exist. *)
Theorem create_journal_entry_builds_the_tree R w :
  (forall r w' q,
     create_journal_entry R w = (r, w') ->
     is_Some (w_fs w !! q) -> is_Some (w_fs w' !! q))
  /\ (normal_dir R = true ->
      forall p w1,
        create_journal_entry R w = (Ret p, w1) ->
        let today := w_clock w (w_tick w) in
        is_Some (w_fs w1 !! journals_dir R)
        /\ is_Some (w_fs w1 !! month_dir R today)
        /\ is_Some (w_fs w1 !! day_dir R today)
        /\ is_Some (w_fs w1 !! p)).
Proof.
  split.
  - intros r w' q H. apply preserves_create_journal_entry in H.
    now apply extends_some.
  - intros HR p w1 H today.
    apply (create_journal_entry_post R w p w1 HR) in H
      as (_ & _ & Hj & Hm & Hd & n & Hn & _).
    repeat split; try assumption. rewrite Hn. eauto.
Qed.

Lemma create_journal_entry_builds_the_tree_witness :
  is_Some (w_fs Sample.after_first_entry !! "/home/me/bot/journals")
  /\ is_Some (w_fs Sample.after_first_entry !! "/home/me/bot/journals/march-2024")
  /\ is_Some (w_fs Sample.after_first_entry !! "/home/me/bot/journals/march-2024/05")
  /\ is_Some (w_fs Sample.after_first_entry
              !! "/home/me/bot/journals/march-2024/05/2024-03-05.md").
Proof.
  destruct (create_journal_entry_builds_the_tree Sample.root
              (Sample.first_run [Line "done"])) as [_ H].
  apply (H eq_refl "/home/me/bot/journals/march-2024/05/2024-03-05.md"
           Sample.after_first_entry).
  vm_compute. reflexivity.
Defined.

Lemma ready_to_ask_fs R w :
  normal_dir R = true -> can_create R w = true ->
  let today := w_clock w (w_tick w) in
  is_dir (w_fs (ready_to_ask R w) !! journals_dir R) = true
  /\ is_dir (w_fs (ready_to_ask R w) !! month_dir R today) = true
  /\ is_dir (w_fs (ready_to_ask R w) !! day_dir R today) = true
  /\ w_fs (ready_to_ask R w) !! file_path R today = w_fs w !! file_path R today.
Proof.
  intros HR Hcan today.
  unfold can_create in Hcan. fold today in Hcan.
  repeat (apply andb_prop in Hcan as [Hcan ?]).
  rename Hcan into Hroot, H into Hnot, H0 into Hfile, H1 into Hday, H2 into Hmonth,
    H3 into Hjour.
  unfold ready_to_ask. fold today. cbn [w_fs set_stdout].
  set (w0 := set_tick (S (w_tick w)) w).
  set (w1 := ensured (journals_dir R) _ w0).
  set (w2 := ensured (month_dir R today) _ w1).
  assert (Hj1 : is_dir (w_fs w1 !! journals_dir R) = true)
    by (apply ensured_is_dir; exact Hjour).
  assert (Hm2 : is_dir (w_fs w2 !! month_dir R today) = true).
  { apply ensured_is_dir. unfold w1. rewrite ensured_fs_other; [exact Hmonth | by_length]. }
  repeat split.
  - rewrite ensured_fs_other by by_length. unfold w2.
    rewrite ensured_fs_other by by_length. exact Hj1.
  - rewrite ensured_fs_other by by_length. exact Hm2.
  - apply ensured_is_dir. unfold w2, w1.
    rewrite !ensured_fs_other; [exact Hday | by_length | by_length].
  - unfold w2, w1. rewrite !ensured_fs_other; [reflexivity | by_length..].
Qed.

Lemma create_journal_entry_cut_short R w e wl :
  normal_dir R = true ->
  can_create R w = true ->
  select_prompts (w_stdin w) 1 [] (ready_to_ask R w) = (Raise e, wl) ->
  create_journal_entry R w = (Raise e, wl).
Proof.
  intros HR Hcan Hsel. set (today := w_clock w (w_tick w)).
  pose proof Hcan as Hcan'.
  unfold can_create in Hcan. fold today in Hcan.
  repeat (apply andb_prop in Hcan as [Hcan ?]).
  rename Hcan into Hroot, H into Hnot, H0 into Hfile, H1 into Hday, H2 into Hmonth,
    H3 into Hjour.
  apply negb_true_iff in Hnot.
  unfold create_journal_entry.
  unfold bind at 1. unfold datetime_now at 1. fold today.
  set (w0 := set_tick (S (w_tick w)) w).
  unfold journals_dir at 1 2 3.
  rewrite ensure_dir_ok; try assumption; try reflexivity.
  fold (journals_dir R).
  set (w1 := ensured (journals_dir R) _ w0).
  unfold month_dir at 1 2 3.
  rewrite ensure_dir_ok; try (now apply normal_journals_dir);
    try apply component_month_year.
  2:{ apply ensured_is_dir. exact Hjour. }
  2:{ fold (month_dir R today). unfold w1. rewrite ensured_fs_other; [exact Hmonth|].
      by_length. }
  fold (month_dir R today).
  set (w2 := ensured (month_dir R today) _ w1).
  unfold day_dir at 1 2 3.
  rewrite ensure_dir_ok; try (now apply normal_month_dir);
    try apply component_day_number.
  2:{ apply ensured_is_dir. unfold w1. rewrite ensured_fs_other; [exact Hmonth|].
      by_length. }
  2:{ fold (day_dir R today). unfold w2, w1.
      rewrite !ensured_fs_other; [exact Hday | by_length | by_length]. }
  fold (day_dir R today).
  set (w3 := ensured (day_dir R today) _ w2).
  assert (Hfs3 : w_fs w3 !! file_path R today = w_fs w !! file_path R today).
  { unfold w3, w2, w1. rewrite !ensured_fs_other; [reflexivity | by_length..]. }
  assert (Hoff3 : w_utcoff w3 = w_utcoff w).
  { unfold w3, w2, w1.
    repeat (etransitivity; [apply ensured_frame|]). reflexivity. }
  unfold bind at 1. rewrite entry_is_current_eq.
  unfold current_in at 1. rewrite Hfs3, Hoff3.
  unfold current_in in Hnot. rewrite Hnot.
  rewrite show_menu_run.
  unfold bind at 1. unfold selection_loop.
  assert (Hin3 : w_stdin w3 = w_stdin w).
  { unfold w3, w2, w1.
    repeat (etransitivity; [apply ensured_frame|]). reflexivity. }
  cbn [w_stdin set_stdout]. rewrite Hin3.
  change (set_stdout (w_stdout w3 ++ menu_lines) w3) with (ready_to_ask R w).
  rewrite Hsel. reflexivity.
Qed.

(** X7. When the answer loop is cut short by an exception (standard
    input ends before [done] or the third answer, or the user
    interrupts), [create_journal_entry] raises that exception and
    writes no entry: what is at the entry path is what was there
    before, although the three directories have been created. *)
Theorem no_entry_when_answers_are_cut_short R w e wl :
  normal_dir R = true ->
  can_create R w = true ->
  select_prompts (w_stdin w) 1 [] (ready_to_ask R w) = (Raise e, wl) ->
  let today := w_clock w (w_tick w) in
  create_journal_entry R w = (Raise e, wl)
  /\ w_fs wl !! file_path R today = w_fs w !! file_path R today
  /\ is_dir (w_fs wl !! journals_dir R) = true
  /\ is_dir (w_fs wl !! month_dir R today) = true
  /\ is_dir (w_fs wl !! day_dir R today) = true.
Proof.
  intros HR Hcan Hsel today.
  split; [now apply create_journal_entry_cut_short|].
  destruct (select_prompts_extends _ _ _ _ _ _ Hsel) as (_ & Hfs & _).
  rewrite Hfs.
  destruct (ready_to_ask_fs R w HR Hcan) as (Hj & Hm & Hd & Hf).
  fold today in Hm, Hd, Hf. rewrite Hf. auto.
Qed.

Lemma no_entry_when_answers_are_cut_short_witness :
  let run := create_journal_entry Sample.root (Sample.first_run [Line "1"; Line ""]) in
  fst run = Raise (mk_exn EOFError "EOF when reading a line")
  /\ w_fs (snd run) !! "/home/me/bot/journals/march-2024/05/2024-03-05.md" = None
  /\ is_dir (w_fs (snd run) !! "/home/me/bot/journals/march-2024/05") = true.
Proof.
  cbv zeta.
  destruct (no_entry_when_answers_are_cut_short Sample.root
              (Sample.first_run [Line "1"; Line ""])
              (mk_exn EOFError "EOF when reading a line")
              (snd (select_prompts [Line "1"; Line ""] 1 []
                      (ready_to_ask Sample.root (Sample.first_run [Line "1"; Line ""])))))
    as (Hrun & Hfile & _ & _ & Hday);
    [reflexivity | vm_compute; reflexivity | vm_compute; reflexivity |].
  rewrite Hrun. cbn [fst snd]. split; [reflexivity|]. split.
  - vm_compute. reflexivity.
  - exact Hday.
Defined.

(* ===================================================================== *)
(** ** Further properties of [setup_repo] *)
(* ===================================================================== *)

Lemma Repo_open_ret_inv R w repo w' :
  Repo_open R w = (Ret repo, w') ->
  w' = w /\ repo = mk_handle R /\ is_Some (w_fs w !! R)
  /\ is_dir (w_fs w !! os_path_join R ".git") = true
  /\ w_repo_ok w = true.
Proof.
  unfold Repo_open. intros H.
  apply bind_ret_inv in H as (fs & wa & Hfs & H). inversion Hfs; subst fs wa; clear Hfs.
  apply bind_ret_inv in H as (ok & wa & Hok & H). inversion Hok; subst ok wa; clear Hok.
  destruct (w_fs w !! R) as [n|] eqn:ER; [|discriminate H].
  destruct (is_dir (w_fs w !! os_path_join R ".git")) eqn:Eg; [|discriminate H].
  destruct (w_repo_ok w) eqn:Eo; [|discriminate H].
  inversion H; subst. repeat split; eauto.
Qed.

Lemma setup_repo_body_ret_inv U E R w r w' :
  setup_repo_body U E R w = (Ret r, w') ->
  r = Some (mk_handle R) /\ is_Some (w_fs w' !! R)
  /\ is_dir (w_fs w' !! os_path_join R ".git") = true
  /\ w_repo_ok w' = true.
Proof.
  unfold setup_repo_body. intros Eb.
  apply bind_ret_inv in Eb as (isd & wa & _ & Eb).
  apply bind_ret_inv in Eb as ([] & wb & _ & Eb).
  apply bind_ret_inv in Eb as (repo & wc & Hopen & Eb).
  inversion Eb; subst r w'; clear Eb.
  apply Repo_open_ret_inv in Hopen as (-> & -> & HR & Hg & Hok). auto.
Qed.

Lemma setup_repo_some_inv U E R w h w' :
  setup_repo U E R w = (Ret (Some h), w') ->
  h = mk_handle R /\ is_Some (w_fs w' !! R)
  /\ is_dir (w_fs w' !! os_path_join R ".git") = true.
Proof.
  unfold setup_repo, try_except. intros H.
  destruct (setup_repo_body U E R w) as [[r|e] w1] eqn:Eb.
  - inversion H; subst r w1; clear H.
    apply setup_repo_body_ret_inv in Eb as (Hh & HR & Hg & _).
    injection Hh as ->. auto.
  - destruct (is_Exception e); [|discriminate H].
    apply bind_ret_inv in H as ([] & wa & _ & H). discriminate H.
Qed.





(** X9. When the script's directory has no [.git] and [git init]
    fails, nothing else is attempted: [commit_to_github] returns
    [False], the failure is logged at error level with git's message,
    no file is created, no question is asked and nothing is read from
    standard input. *)
Theorem failed_init_stops_the_run U E R w msg :
  is_dir (w_fs w !! R) = true ->
  w_fs w !! os_path_join R ".git" = None ->
  w_git_fault w (length (w_git_calls w)) = Some msg ->
  exists w',
    commit_to_github U E R w = (Ret false, w')
    /\ w_log w' = w_log w ++ [(INFO, "Initializing git repository...");
                              (ERROR, "Error setting up repository: " +:+ msg)]
    /\ w_git_calls w' = w_git_calls w ++ [["init"]]
    /\ w_fs w' = w_fs w /\ w_stdin w' = w_stdin w /\ w_stdout w' = w_stdout w.
Proof.
  intros Hdir Hgit Hfault.
  assert (Hbody : setup_repo_body U E R w
                  = (Raise (mk_exn GitCommandError msg),
                     set_git_calls (w_git_calls w ++ [["init"]])
                       (set_log (w_log w ++ [(INFO, "Initializing git repository...")]) w))).
  { unfold setup_repo_body.
    rewrite os_path_isdir_then, Hgit. cbn [is_dir negb when].
    rewrite !bind_assoc, logger_info_then, !bind_assoc.
    apply bind_eq_raise. unfold Repo_init.
    rewrite os_path_exists_then. cbn [w_fs set_log].
    destruct (w_fs w !! R) as [n|]; [|discriminate Hdir]. cbn [negb when].
    unfold bind at 1, ret at 1.
    apply bind_eq_raise.
    exact (git_cmd_fault _ _ (set_log _ w) msg Hfault). }
  set (w0 := set_git_calls (w_git_calls w ++ [["init"]])
               (set_log (w_log w ++ [(INFO, "Initializing git repository...")]) w)) in *.
  assert (Hs : setup_repo U E R w
               = (Ret None,
                  set_log (w_log w0 ++ [(ERROR, "Error setting up repository: " +:+ msg)]) w0)).
  { unfold setup_repo. rewrite (try_except_caught _ _ _ _ _ _ Hbody eq_refl). reflexivity. }
  eexists. split.
  - unfold commit_to_github. apply try_except_ret. unfold commit_to_github_body.
    rewrite (bind_eq_ret _ _ _ _ _ Hs). reflexivity.
  - cbn [w_log w_git_calls w_fs w_stdin w_stdout set_log set_git_calls w0].
    unfold w0. cbn [w_log w_git_calls w_fs w_stdin w_stdout set_log set_git_calls].
    rewrite <- app_assoc. repeat split.
Qed.

Lemma failed_init_stops_the_run_witness :
  let w := mk_world (<[Sample.root := Dir 0]> ∅) Sample.clock 0 3600 [Line "1"] [] []
             (fresh_repo "main") "main" [] (fun _ => Some "fatal: cannot lock") true in
  exists w',
    commit_to_github None None Sample.root w = (Ret false, w')
    /\ w_log w' = [(INFO, "Initializing git repository...");
                   (ERROR, "Error setting up repository: fatal: cannot lock")].
Proof.
  cbv zeta.
  destruct (failed_init_stops_the_run None None Sample.root
              (mk_world (<[Sample.root := Dir 0]> ∅) Sample.clock 0 3600 [Line "1"] [] []
                 (fresh_repo "main") "main" [] (fun _ => Some "fatal: cannot lock") true)
              "fatal: cannot lock")
    as (w' & Hrun & Hlog & _); [reflexivity | reflexivity | reflexivity |].
  exists w'. split; [exact Hrun | exact Hlog].
Defined.

(* ===================================================================== *)
(** ** Further properties of [commit_to_github] *)
(* ===================================================================== *)

Lemma file_path_relpath R today :
  file_path R today = os_path_join R (entry_relpath today).
Proof.
  unfold file_path, day_dir, month_dir, journals_dir, entry_relpath.
  pose proof (component_month_year today) as Cmy.
  pose proof (component_day_number today) as Cdn.
  pose proof (component_file_name today) as Cfn.
  destruct (relpath_extend "journals" (month_year today) eq_refl eq_refl Cmy)
    as (T1 & S1 & E1).
  destruct (relpath_extend _ (day_number today) T1 S1 Cdn) as (T2 & S2 & E2).
  rewrite (os_path_join_chain R "journals" (month_year today) eq_refl eq_refl eq_refl
             (component_not_absolute _ Cmy)).
  rewrite (os_path_join_chain R _ (day_number today) T1 S1 E1
             (component_not_absolute _ Cdn)).
  rewrite (os_path_join_chain R _ (date_str today +:+ ".md") T2 S2 E2
             (component_not_absolute _ Cfn)).
  now rewrite !append_assoc.
Qed.





Lemma git_cmd_raise_inv {A} args (run : M A) w e w' :
  git_cmd args run w = (Raise e, w') ->
  (w_git_fault w (length (w_git_calls w)) = Some (exn_msg e)
   /\ exn_class e = GitCommandError
   /\ w' = set_git_calls (w_git_calls w ++ [args]) w)
  \/ (w_git_fault w (length (w_git_calls w)) = None
      /\ run (set_git_calls (w_git_calls w ++ [args]) w) = (Raise e, w')).
Proof.
  unfold git_cmd. intros H.
  apply bind_raise_inv in H as [H|(n & wa & Hn & H)]; [discriminate H|].
  inversion Hn; subst n wa; clear Hn.
  apply bind_raise_inv in H as [H|([] & wb & Hm & H)]; [discriminate H|].
  inversion Hm; subst wb; clear Hm.
  apply bind_raise_inv in H as [H|(f & wc & Hf & H)]; [discriminate H|].
  inversion Hf; subst wc. cbn [w_git_fault set_git_calls] in H1. subst f. clear Hf.
  destruct (w_git_fault w (length (w_git_calls w))) as [msg|].
  - left. inversion H; subst. auto.
  - right. auto.
Qed.

Lemma require_repo_raise_inv repo w e w' :
  require_repo repo w = (Raise e, w') -> w' = w.
Proof.
  unfold require_repo. intros H.
  apply bind_raise_inv in H as [H|(isd & wa & Hi & H)]; [discriminate H|].
  inversion Hi; subst isd wa; clear Hi.
  apply bind_raise_inv in H as [H|(ok & wa & Hi & H)]; [discriminate H|].
  inversion Hi; subst ok wa; clear Hi.
  match type of H with (if ?x then _ else _) _ = _ => destruct x end;
    inversion H; reflexivity.
Qed.

Lemma git_push_inv repo remote branch w r w' :
  git_push repo remote branch w = (r, w') ->
  w_git_calls w' = w_git_calls w ++ [["push"; remote; branch]]
  /\ w_fs w' = w_fs w /\ w_log w' = w_log w
  /\ g_commits (w_git w') = g_commits (w_git w)
  /\ g_head (w_git w') = g_head (w_git w)
  /\ match r with
     | Ret _ => g_origin_main (w_git w') = g_commits (w_git w)
     | Raise e => is_Exception e = true /\ w_git w' = w_git w
     end.
Proof.
  intros H. destruct r as [[]|e].
  - unfold git_push in H. apply git_cmd_ret_inv in H.
    apply bind_ret_inv in H as (u & wa & Hr & H).
    apply require_repo_ret_inv in Hr. subst wa.
    apply bind_ret_inv in H as (g & wb & Hg & H). inversion Hg; subst g wb; clear Hg.
    match type of H with (if ?x then _ else _) _ = _ => destruct x end; [discriminate H|].
    match type of H with (if ?x then _ else _) _ = _ => destruct x end; [discriminate H|].
    inversion H; subst. cbn. auto 10.
  - pose proof (quiet_git_push repo remote branch _ _ _ H) as [_ He].
    unfold git_push in H. apply git_cmd_raise_inv in H as [(_ & _ & ->)|[_ H]].
    { cbn. auto 10. }
    apply bind_raise_inv in H as [H|(u & wa & Hr & H)].
    { apply require_repo_raise_inv in H. subst w'. cbn. auto 10. }
    apply require_repo_ret_inv in Hr. subst wa.
    apply bind_raise_inv in H as [H|(g & wb & Hg & H)]; [discriminate H|].
    inversion Hg; subst g wb; clear Hg.
    match type of H with (if ?x then _ else _) _ = _ => destruct x end;
      [inversion H; subst; cbn; auto 10|].
    match type of H with (if ?x then _ else _) _ = _ => destruct x end;
      [inversion H; subst; cbn; auto 10 | discriminate H].
Qed.

Section Pipeline.

Variables (U E : option string) (R : string).
Variables (w : World) (repo : RepoHandle) (w1 : World) (p : string) (w2 : World).
Variables (rel : string) (w3 : World) (staged : string) (w4 w5 : World).

Hypothesis Hsetup : setup_repo U E R w = (Ret (Some repo), w1).
Hypothesis Hcreate : create_journal_entry R w1 = (Ret p, w2).
Hypothesis Hrel : relative_to p (working_dir repo) = Some rel.
Hypothesis Hadd : git_add repo rel w2 = (Ret tt, w3).
Hypothesis Hdiff : git_diff_staged repo w3 = (Ret staged, w4).

Hypothesis Hstaged : truthy staged = true.

Let today := strftime_Ymd (w_clock w4 (w_tick w4)).

Hypothesis Hcommit :
  git_commit repo ("Add journal entry for " +:+ today) (set_tick (S (w_tick w4)) w4)
  = (Ret tt, w5).

Hypothesis Horigin : existsb (String.eqb "origin") (g_remotes (w_git w5)) = true.

Lemma pipeline_to_push :
  commit_to_github_body U E R w
  = (git_push repo "origin" "main" ;;;
     logger_info ("Successfully committed journal entry for " +:+ today) ;;;
     ret true)
      (set_log (w_log w5 ++ [(INFO, "Pushing changes to remote repository...")]) w5).
Proof.
  unfold commit_to_github_body.
  rewrite (bind_eq_ret _ _ _ _ _ Hsetup).
  rewrite (bind_eq_ret _ _ _ _ _ Hcreate).
  unfold path_relative_to. rewrite Hrel.
  unfold bind at 1, ret at 1.
  rewrite (bind_eq_ret _ _ _ _ _ Hadd).
  rewrite (bind_eq_ret _ _ _ _ _ Hdiff).
  rewrite Hstaged. cbn [negb].
  unfold bind at 1, datetime_now at 1. fold today.
  rewrite (bind_eq_ret _ _ _ _ _ Hcommit).
  unfold bind at 1, repo_remote_names at 1, get at 1.
  rewrite Horigin.
  rewrite !bind_assoc, logger_info_then. reflexivity.
Qed.

End Pipeline.

(** X11. With a remote named "origin", a committed entry is pushed: in
    every run in which the commit and [git push origin main] succeed,
    [commit_to_github] returns [True], the push is the last git command
    run, and the commits are those the commit step left. *)
Theorem origin_is_pushed_to U E R w repo w1 p w2 rel w3 staged w4 w5 w6 :
  setup_repo U E R w = (Ret (Some repo), w1) ->
  create_journal_entry R w1 = (Ret p, w2) ->
  relative_to p (working_dir repo) = Some rel ->
  git_add repo rel w2 = (Ret tt, w3) ->
  git_diff_staged repo w3 = (Ret staged, w4) ->
  truthy staged = true ->
  let today := strftime_Ymd (w_clock w4 (w_tick w4)) in
  git_commit repo ("Add journal entry for " +:+ today) (set_tick (S (w_tick w4)) w4)
  = (Ret tt, w5) ->
  existsb (String.eqb "origin") (g_remotes (w_git w5)) = true ->
  git_push repo "origin" "main"
    (set_log (w_log w5 ++ [(INFO, "Pushing changes to remote repository...")]) w5)
  = (Ret tt, w6) ->
  exists final,
    commit_to_github U E R w = (Ret true, final)
    /\ w_git_calls final = w_git_calls w5 ++ [["push"; "origin"; "main"]]
    /\ g_commits (w_git final) = g_commits (w_git w5)
    /\ w_log final
       = w_log w5 ++
         [(INFO, "Pushing changes to remote repository...");
          (INFO, "Successfully committed journal entry for " +:+ today)].
Proof.
  intros Hsetup Hcreate Hrel Hadd Hdiff Hstaged today Hcommit Horigin Hpush.
  pose proof (pipeline_to_push U E R w repo w1 p w2 rel w3 staged w4 w5
                Hsetup Hcreate Hrel Hadd Hdiff Hstaged Hcommit Horigin) as Hbody.
  fold today in Hbody.
  rewrite (bind_eq_ret _ _ _ _ _ Hpush) in Hbody.
  rewrite logger_info_then in Hbody.
  eexists. split.
  - unfold commit_to_github. apply try_except_ret. rewrite Hbody. reflexivity.
  - apply git_push_inv in Hpush as (Hcalls & _ & Hlog & Hcm & _).
    cbn [w_git_calls w_git w_log set_log] in *.
    rewrite Hcalls, Hcm, Hlog, <- app_assoc. auto.
Qed.

(** X12. A failed push is reported as failure, but the commit stays:
    in every run in which the commit succeeds and [git push origin
    main] raises, [commit_to_github] returns [False] and logs the
    error, while the repository still holds the commit just made;
    nothing is rolled back. *)
Theorem failed_push_keeps_the_commit U E R w repo w1 p w2 rel w3 staged w4 w5 e w6 :
  setup_repo U E R w = (Ret (Some repo), w1) ->
  create_journal_entry R w1 = (Ret p, w2) ->
  relative_to p (working_dir repo) = Some rel ->
  git_add repo rel w2 = (Ret tt, w3) ->
  git_diff_staged repo w3 = (Ret staged, w4) ->
  truthy staged = true ->
  let today := strftime_Ymd (w_clock w4 (w_tick w4)) in
  git_commit repo ("Add journal entry for " +:+ today) (set_tick (S (w_tick w4)) w4)
  = (Ret tt, w5) ->
  existsb (String.eqb "origin") (g_remotes (w_git w5)) = true ->
  git_push repo "origin" "main"
    (set_log (w_log w5 ++ [(INFO, "Pushing changes to remote repository...")]) w5)
  = (Raise e, w6) ->
  exists final,
    commit_to_github U E R w = (Ret false, final)
    /\ w_git final = w_git w5
    /\ g_commits (w_git final)
       = g_commits (w_git w4) ++ [("Add journal entry for " +:+ today, g_index (w_git w4))]
    /\ w_log final
       = w_log w5 ++
         [(INFO, "Pushing changes to remote repository...");
          (ERROR, "Error committing to GitHub: " +:+ exn_msg e)].
Proof.
  intros Hsetup Hcreate Hrel Hadd Hdiff Hstaged today Hcommit Horigin Hpush.
  pose proof (pipeline_to_push U E R w repo w1 p w2 rel w3 staged w4 w5
                Hsetup Hcreate Hrel Hadd Hdiff Hstaged Hcommit Horigin) as Hbody.
  fold today in Hbody.
  rewrite (bind_eq_raise _ _ _ _ _ Hpush) in Hbody.
  apply git_push_inv in Hpush as (_ & _ & Hlog & _ & _ & He & Hgit).
  eexists. split.
  - unfold commit_to_github.
    rewrite (try_except_caught _ _ _ _ _ _ Hbody He). reflexivity.
  - cbn [w_git w_log set_log] in *. rewrite Hgit, Hlog, <- app_assoc.
    apply git_commit_inv in Hcommit. subst w5.
    cbn [w_git set_git set_git_calls set_tick g_commits add_commit]. auto.
Qed.

Lemma origin_is_pushed_to_witness :
  exists final,
    commit_to_github None None Sample.root (with_origin (fun _ => None) [Line "done"])
    = (Ret true, final)
    /\ w_git_calls final
       = [["add"; "journals/march-2024/05/2024-03-05.md"]; ["diff"; "--staged"];
          ["commit"; "-m"; "Add journal entry for 2024-03-05"];
          ["push"; "origin"; "main"]].
Proof.
  set (repo := mk_handle Sample.root).
  set (w := with_origin (fun _ => None) [Line "done"]).
  set (w1 := snd (setup_repo None None Sample.root w)).
  set (w2 := snd (create_journal_entry Sample.root w1)).
  set (w3 := snd (git_add repo Sample.entry_rel w2)).
  set (w4 := snd (git_diff_staged repo w3)).
  set (w5 := snd (git_commit repo "Add journal entry for 2024-03-05"
                    (set_tick (S (w_tick w4)) w4))).
  set (w6 := snd (git_push repo "origin" "main"
                    (set_log (w_log w5 ++ [(INFO, "Pushing changes to remote repository...")])
                       w5))).
  destruct (origin_is_pushed_to None None Sample.root w
              repo w1 (os_path_join Sample.root Sample.entry_rel) w2 Sample.entry_rel w3
              ("diff --git a/journals/march-2024/05/2024-03-05.md b/journals/march-2024/05/2024-03-05.md" +:+ nl)
              w4 w5 w6)
    as (final & Hrun & Hcalls & _);
    try (vm_compute; reflexivity).
  exists final. split; [exact Hrun|]. rewrite Hcalls. vm_compute. reflexivity.
Defined.

Lemma failed_push_keeps_the_commit_witness :
  exists final,
    commit_to_github None None Sample.root (with_origin push_fails [Line "done"])
    = (Ret false, final)
    /\ map fst (g_commits (w_git final)) = ["Add journal entry for 2024-03-05"]
    /\ last (w_log final)
       = Some (ERROR, "Error committing to GitHub: fatal: unable to access remote").
Proof.
  set (repo := mk_handle Sample.root).
  set (w := with_origin push_fails [Line "done"]).
  set (w1 := snd (setup_repo None None Sample.root w)).
  set (w2 := snd (create_journal_entry Sample.root w1)).
  set (w3 := snd (git_add repo Sample.entry_rel w2)).
  set (w4 := snd (git_diff_staged repo w3)).
  set (w5 := snd (git_commit repo "Add journal entry for 2024-03-05"
                    (set_tick (S (w_tick w4)) w4))).
  set (w6 := snd (git_push repo "origin" "main"
                    (set_log (w_log w5 ++ [(INFO, "Pushing changes to remote repository...")])
                       w5))).
  destruct (failed_push_keeps_the_commit None None Sample.root w
              repo w1 (os_path_join Sample.root Sample.entry_rel) w2 Sample.entry_rel w3
              ("diff --git a/journals/march-2024/05/2024-03-05.md b/journals/march-2024/05/2024-03-05.md" +:+ nl)
              w4 w5 (mk_exn GitCommandError "fatal: unable to access remote") w6)
    as (final & Hrun & _ & Hcm & Hlog);
    try (vm_compute; reflexivity).
  exists final. split; [exact Hrun|]. split.
  - rewrite Hcm. vm_compute. reflexivity.
  - rewrite Hlog. vm_compute. reflexivity.
Defined.

Lemma keeps_fs_git_add repo rel : keeps w_fs (git_add repo rel).
Proof.
  unfold git_add, git_cmd, require_repo, os_path_isdir. solve_keeps.
Qed.

Lemma keeps_fs_git_diff_staged repo : keeps w_fs (git_diff_staged repo).
Proof.
  unfold git_diff_staged, git_cmd, require_repo, os_path_isdir. solve_keeps.
Qed.

Lemma keeps_fs_git_commit repo msg : keeps w_fs (git_commit repo msg).
Proof.
  unfold git_commit, git_cmd, require_repo, os_path_isdir. solve_keeps.
Qed.

Lemma git_add_ret_inv repo rel w w' :
  git_add repo rel w = (Ret tt, w') ->
  g_commits (w_git w') = g_commits (w_git w)
  /\ forall c t,
       w_fs w !! os_path_join (working_dir repo) rel = Some (File c t) ->
       g_index (w_git w') !! rel = Some c.
Proof.
  unfold git_add. intros H. apply git_cmd_ret_inv in H.
  apply bind_ret_inv in H as (u & wa & Hr & H).
  apply require_repo_ret_inv in Hr. subst wa.
  apply bind_ret_inv in H as (fs & wb & Hfs & H). inversion Hfs; subst fs wb; clear Hfs.
  apply bind_ret_inv in H as (g & wc & Hg & H). inversion Hg; subst g wc; clear Hg.
  cbn [w_fs w_git set_git_calls] in H.
  destruct (w_fs w !! os_path_join (working_dir repo) rel) as [[c0 t0|t0]|] eqn:Ef.
  - inversion H; subst. cbn. split; [reflexivity|].
    intros c t [= <- <-]. apply lookup_insert_eq.
  - inversion H; subst. cbn. split; [reflexivity|]. intros c t Hc. discriminate Hc.
  - destruct (g_index (w_git w) !! rel); [|discriminate H].
    inversion H; subst. cbn. split; [reflexivity|]. intros c t Hc. discriminate Hc.
Qed.

Lemma git_push_ret_inv repo remote branch w w' :
  git_push repo remote branch w = (Ret tt, w') ->
  w' = set_git (set_origin_main (g_commits (w_git w)) (w_git w))
         (set_git_calls (w_git_calls w ++ [["push"; remote; branch]]) w).
Proof.
  unfold git_push. intros H. apply git_cmd_ret_inv in H.
  apply bind_ret_inv in H as (u & wa & Hr & H).
  apply require_repo_ret_inv in Hr. subst wa.
  apply bind_ret_inv in H as (g & wb & Hg & H). inversion Hg; subst g wb; clear Hg.
  match type of H with (if ?x then _ else _) _ = _ => destruct x end; [discriminate H|].
  match type of H with (if ?x then _ else _) _ = _ => destruct x end; [discriminate H|].
  inversion H; reflexivity.
Qed.

Lemma commit_to_github_true_inv U E R w w' :
  commit_to_github U E R w = (Ret true, w') ->
  exists repo w1 p w2 rel w3 staged w4 now w5 w6,
    setup_repo U E R w = (Ret (Some repo), w1)
    /\ create_journal_entry R w1 = (Ret p, w2)
    /\ relative_to p (working_dir repo) = Some rel
    /\ git_add repo rel w2 = (Ret tt, w3)
    /\ git_diff_staged repo w3 = (Ret staged, w4)
    /\ truthy staged = true
    /\ now = w_clock w4 (w_tick w4)
    /\ git_commit repo ("Add journal entry for " +:+ strftime_Ymd now)
         (set_tick (S (w_tick w4)) w4) = (Ret tt, w5)
    /\ (w_fs w6 = w_fs w5 /\ w_clock w6 = w_clock w5 /\ w_utcoff w6 = w_utcoff w5
        /\ w_repo_ok w6 = w_repo_ok w5)
    /\ (g_commits (w_git w6) = g_commits (w_git w5)
        /\ g_head (w_git w6) = g_head (w_git w5)
        /\ g_index (w_git w6) = g_index (w_git w5))
    /\ w' = set_log (w_log w6 ++ [(INFO, "Successfully committed journal entry for "
                                          +:+ strftime_Ymd now)]) w6.
Proof.
  unfold commit_to_github, try_except. intros H.
  destruct (commit_to_github_body U E R w) as [[b|e] wb] eqn:Eb.
  2:{ destruct (is_Exception e); [|discriminate H].
      apply bind_ret_inv in H as ([] & wa & _ & H). discriminate H. }
  inversion H; subst b wb; clear H. unfold commit_to_github_body in Eb.
  apply bind_ret_inv in Eb as (ro & w1 & Hsetup & Eb).
  destruct ro as [repo|]; [|discriminate Eb].
  apply bind_ret_inv in Eb as (p & w2 & Hcreate & Eb).
  apply bind_ret_inv in Eb as (rel & w2' & Hrel & Eb).
  unfold path_relative_to in Hrel.
  destruct (relative_to p (working_dir repo)) as [rel0|] eqn:Er; [|discriminate Hrel].
  inversion Hrel; subst rel0 w2'; clear Hrel.
  apply bind_ret_inv in Eb as ([] & w3 & Hadd & Eb).
  apply bind_ret_inv in Eb as (staged & w4 & Hdiff & Eb).
  destruct (truthy staged) eqn:Et; cbn [negb] in Eb.
  2:{ apply bind_ret_inv in Eb as ([] & wa & _ & Eb). discriminate Eb. }
  apply bind_ret_inv in Eb as (now & w4' & Hnow & Eb).
  inversion Hnow; subst now w4'; clear Hnow.
  apply bind_ret_inv in Eb as ([] & w5 & Hcommit & Eb).
  apply bind_ret_inv in Eb as (names & w5' & Hnames & Eb).
  inversion Hnames; subst names w5'; clear Hnames.
  apply bind_ret_inv in Eb as ([] & w6 & Htail & Eb).
  apply bind_ret_inv in Eb as ([] & w7 & Hlog & Eb).
  inversion Hlog; subst w7; clear Hlog. inversion Eb; subst w'; clear Eb.
  exists repo, w1, p, w2, rel, w3, staged, w4, (w_clock w4 (w_tick w4)), w5, w6.
  repeat (split; [assumption || reflexivity|]).
  destruct (existsb (String.eqb "origin") (g_remotes (w_git w5))).
  - apply bind_ret_inv in Htail as ([] & wa & Hl & Hp).
    inversion Hl; subst wa; clear Hl.
    apply git_push_ret_inv in Hp. subst w6. cbn. auto 10.
  - apply bind_ret_inv in Htail as ([] & wa & Hl & Hp).
    inversion Hl; subst wa; clear Hl. inversion Hp; subst w6. cbn. auto 10.
Qed.

(** X13. Success means the entry is committed: whenever
    [commit_to_github] returns [True], the history ends with a commit
    "Add journal entry for <date>" made in this run, that commit is the
    head, the entry file exists, and if it is a regular file the commit
    holds it, under its relative path, with exactly the content that is
    on disk when the run ends. *)
Theorem success_means_the_entry_is_committed U E R w w' :
  normal_dir R = true ->
  commit_to_github U E R w = (Ret true, w') ->
  exists today now earlier tree,
    g_commits (w_git w')
    = earlier ++ [("Add journal entry for " +:+ strftime_Ymd now, tree)]
    /\ g_head (w_git w') = tree
    /\ is_Some (w_fs w' !! file_path R today)
    /\ (forall c t,
          w_fs w' !! file_path R today = Some (File c t) ->
          tree !! entry_relpath today = Some c).
Proof.
  intros HR H.
  apply commit_to_github_true_inv in H
    as (repo & w1 & p & w2 & rel & w3 & staged & w4 & now & w5 & w6
        & Hsetup & Hcreate & Hrel & Hadd & Hdiff & _ & _ & Hcommit
        & (Hfs6 & _) & (Hcm6 & Hh6 & _) & ->).
  apply setup_repo_some_inv in Hsetup as (-> & _ & _). cbn [working_dir] in *.
  set (today := w_clock w1 (w_tick w1)).
  pose proof (create_journal_entry_post R w1 p w2 HR Hcreate)
    as (Hp & _ & _ & _ & _ & n & Hn & _).
  fold today in Hp. subst p.
  assert (Hr : rel = entry_relpath today).
  { rewrite file_path_relpath in Hrel.
    rewrite relative_to_join in Hrel; [now inversion Hrel | | reflexivity].
    unfold normal_dir in HR. now apply andb_prop in HR as [-> _]. }
  subst rel.
  pose proof (keeps_fs_git_add _ _ _ _ _ Hadd) as Hfs3.
  pose proof (keeps_fs_git_diff_staged _ _ _ _ Hdiff) as Hfs4.
  pose proof (keeps_fs_git_commit _ _ _ _ _ Hcommit) as Hfs5.
  cbn [w_fs set_tick] in Hfs5.
  assert (Hfs : w_fs w6 = w_fs w2) by congruence.
  apply git_add_ret_inv in Hadd as [_ Hidx].
  apply git_diff_staged_inv in Hdiff as [-> _].
  apply git_commit_inv in Hcommit. subst w5.
  cbn [w_git set_git set_git_calls set_tick g_commits g_head add_commit] in *.
  exists today, now, (g_commits (w_git w3)), (g_index (w_git w3)).
  cbn [w_git w_fs set_log].
  rewrite Hcm6, Hh6, Hfs. repeat split.
  - rewrite Hn. eauto.
  - intros c t Hc. apply (Hidx c t). now rewrite <- file_path_relpath.
Qed.

Lemma success_means_the_entry_is_committed_witness :
  exists today now earlier tree,
    g_commits (w_git Sample.after_first_commit)
    = earlier ++ [("Add journal entry for " +:+ strftime_Ymd now, tree)]
    /\ g_head (w_git Sample.after_first_commit) = tree
    /\ is_Some (w_fs Sample.after_first_commit !! file_path Sample.root today)
    /\ (forall c t,
          w_fs Sample.after_first_commit !! file_path Sample.root today = Some (File c t) ->
          tree !! entry_relpath today = Some c).
Proof.
  apply (success_means_the_entry_is_committed (Some "me") (Some "me@example.org")
           Sample.root (Sample.first_run [Line "done"])).
  - reflexivity.
  - vm_compute. reflexivity.
Defined.

(* ===================================================================== *)
(** ** Invariants of a whole run *)
(* ===================================================================== *)

Section Along.

Context (Rel : World -> World -> Prop) `{!PreOrder Rel}.

Lemma along_ret {A} (a : A) : along Rel (ret a).
Proof. intros w r w' H. inversion H; subst. reflexivity. Qed.

Lemma along_raise {A} c msg : along Rel (@raise A c msg).
Proof. intros w r w' H. inversion H; subst. reflexivity. Qed.

Lemma along_get {A} (g : World -> A) : along Rel (get g).
Proof. intros w r w' H. inversion H; subst. reflexivity. Qed.

Lemma along_modify g : (forall w, Rel w (g w)) -> along Rel (modify g).
Proof. intros Hg w r w' H. inversion H; subst. apply Hg. Qed.

Lemma along_datetime_now :
  (forall n w, Rel w (set_tick n w)) -> along Rel datetime_now.
Proof. intros Hg w r w' H. inversion H; subst. apply Hg. Qed.

Lemma along_bind {A C} (m : M A) (k : A -> M C) :
  along Rel m -> (forall a, along Rel (k a)) -> along Rel (bind m k).
Proof.
  intros Hm Hk w r w' H. unfold bind in H.
  destruct (m w) as [[a|e] w1] eqn:E.
  - transitivity w1; [exact (Hm _ _ _ E) | exact (Hk a _ _ _ H)].
  - inversion H; subst. exact (Hm _ _ _ E).
Qed.

Lemma along_try_except {A} (m : M A) c h :
  along Rel m -> (forall e, along Rel (h e)) -> along Rel (try_except m c h).
Proof.
  intros Hm Hh w r w' H. unfold try_except in H.
  destruct (m w) as [[a|e] w1] eqn:E.
  - inversion H; subst. exact (Hm _ _ _ E).
  - destruct (c e).
    + transitivity w1; [exact (Hm _ _ _ E) | exact (Hh e _ _ _ H)].
    + inversion H; subst. exact (Hm _ _ _ E).
Qed.

Lemma along_when c m : along Rel m -> along Rel (when c m).
Proof. intros Hm. destruct c; [exact Hm | apply along_ret]. Qed.

End Along.

#[global] Instance untouched_except_preorder q : PreOrder (untouched_except q).
Proof.
  split.
  - intros w p n _ H. exact H.
  - intros a b c Hab Hbc p n Hne H. apply Hbc, Hab; assumption.
Qed.

#[global] Instance log_grows_preorder : PreOrder log_grows.
Proof.
  split.
  - intros w. unfold log_grows. reflexivity.
  - intros a b c Hab Hbc. unfold log_grows in *. now transitivity (w_log b).
Qed.

Lemma untouched_of_fs q w w' : w_fs w' = w_fs w -> untouched_except q w w'.
Proof. intros E p n _ H. now rewrite E. Qed.

Lemma untouched_of_keeps q {A} (m : M A) :
  keeps w_fs m -> along (untouched_except q) m.
Proof. intros Hk w r w' H. apply untouched_of_fs. exact (Hk _ _ _ H). Qed.

Lemma untouched_os_mkdir q name : along (untouched_except q) (os_mkdir name).
Proof.
  intros w r w' H.
  assert (Hfresh : r = Ret tt -> w_fs w !! name = None).
  { revert H. unfold os_mkdir, bind, get.
    destruct (w_fs w !! name); [|reflexivity].
    intros H. inversion H; subst. discriminate. }
  apply os_mkdir_inv in H as [[Hr ->]|[_ ->]]; [|reflexivity].
  intros p n _ Hp. unfold mkdir_world. cbn [w_fs set_fs].
  rewrite lookup_insert_ne; [exact Hp|].
  intros <-. rewrite (Hfresh Hr) in Hp. discriminate Hp.
Qed.

Lemma untouched_os_makedirs_rec q fuel :
  forall name, along (untouched_except q) (os_makedirs_rec fuel name).
Proof.
  induction fuel as [|fuel IH]; intros name.
  - apply along_raise; apply _.
  - cbn [os_makedirs_rec].
    destruct (posix_split name) as [head0 tail0].
    destruct (if truthy tail0 then (head0, tail0) else posix_split head0) as [head tail].
    apply along_bind; [apply _ | apply along_get; apply _ |]. intros ex.
    destruct (truthy head && truthy tail && negb ex).
    + apply along_bind; [apply _ | |].
      * apply along_try_except; [apply _ | apply IH | intros; apply along_ret; apply _].
      * intros _. destruct (String.eqb tail ".");
          [apply along_ret; apply _ | apply untouched_os_mkdir].
    + apply untouched_os_mkdir.
Qed.

Lemma untouched_open_write q content : along (untouched_except q) (open_write q content).
Proof.
  intros w r w' H. apply open_write_inv in H as [[_ ->]|[_ ->]]; [|reflexivity].
  intros p n Hne Hp. unfold written. cbn [w_fs set_fs].
  rewrite lookup_insert_ne; [exact Hp | congruence].
Qed.

Lemma untouched_create_journal_entry R w r w' :
  create_journal_entry R w = (r, w') ->
  untouched_except (file_path R (w_clock w (w_tick w))) w w'.
Proof.
  set (today := w_clock w (w_tick w)).
  unfold create_journal_entry. unfold bind at 1, datetime_now at 1. fold today.
  intros H. transitivity (set_tick (S (w_tick w)) w).
  { now apply untouched_of_fs. }
  revert H. generalize (set_tick (S (w_tick w)) w). intros w0 H.
  revert w0 r w' H.
  repeat first
    [ apply untouched_open_write
    | apply untouched_os_makedirs_rec
    | apply untouched_of_keeps;
        first [ apply keeps_get
              | apply keeps_ret
              | apply keeps_datetime_now; intros ? ?; reflexivity
              | apply keeps_modify; intros ?; reflexivity
              | apply keeps_print_menu; intros ? ?; reflexivity ]
    | match goal with
      | |- along _ selection_loop =>
          intros ? ? ? Hs; unfold selection_loop in Hs;
          apply select_prompts_extends in Hs as (_ & Hs & _);
          now apply untouched_of_fs
      | |- along _ (entry_is_current _ _) =>
          intros ? ? ? Hs; rewrite entry_is_current_eq in Hs;
          inversion Hs; subst; reflexivity
      | |- along _ (if ?c then _ else _) => destruct c
      end
    | apply along_when; [apply _|]
    | apply along_bind; [apply _ | | intros ?] ].
Qed.

(** X14. [create_journal_entry] writes no file but today's entry:
    whatever its outcome, every regular file that was there before the
    call, other than the entry file of the current date, is there after
    it with the same content and the same modification time, and every
    directory that was there is still a directory.  (The file system is
    the one of the model, to which the log file does not belong; of a
    directory nothing more is said: its modification time changes when
    an entry is created in it.) *)
Theorem create_journal_entry_touches_only_the_entry R w r w' p :
  create_journal_entry R w = (r, w') ->
  p <> file_path R (w_clock w (w_tick w)) ->
  (forall c t, w_fs w !! p = Some (File c t) -> w_fs w' !! p = Some (File c t))
  /\ (is_dir (w_fs w !! p) = true -> is_dir (w_fs w' !! p) = true).
Proof.
  intros H Hne.
  pose proof (untouched_create_journal_entry R w r w' H p) as Hun.
  split.
  - intros c t Hp. now apply Hun.
  - intros Hd. destruct (w_fs w !! p) as [n|] eqn:Hp; [|discriminate Hd].
    now rewrite (Hun n Hne eq_refl).
Qed.

Lemma create_journal_entry_touches_only_the_entry_witness :
  w_fs (snd (create_journal_entry Sample.root Sample.with_readme))
    !! os_path_join Sample.root "README.md"
  = Some (File "my notes" 0)
  /\ is_dir (w_fs (snd (create_journal_entry Sample.root Sample.with_readme))
               !! Sample.root) = true.
Proof.
  split.
  - apply (create_journal_entry_touches_only_the_entry Sample.root Sample.with_readme
             (fst (create_journal_entry Sample.root Sample.with_readme))).
    + apply surjective_pairing.
    + vm_compute. discriminate.
    + vm_compute. reflexivity.
  - apply (create_journal_entry_touches_only_the_entry Sample.root Sample.with_readme
             (fst (create_journal_entry Sample.root Sample.with_readme))
             (snd (create_journal_entry Sample.root Sample.with_readme)) Sample.root).
    + apply surjective_pairing.
    + vm_compute. discriminate.
    + reflexivity.
Defined.
(* ===================================================================== *)
(** ** A second run on the same day *)
(* ===================================================================== *)













(* ===================================================================== *)
(** ** The whole run *)
(* ===================================================================== *)

Lemma log_grows_of_keeps {A} (m : M A) : keeps w_log m -> along log_grows m.
Proof.
  intros Hk w r w' H. unfold log_grows. rewrite (Hk _ _ _ H). reflexivity.
Qed.

Lemma log_grows_app w w' l : w_log w' = w_log w ++ l -> log_grows w w'.
Proof. intros E. unfold log_grows. rewrite E. now apply prefix_app_r. Qed.

Ltac log_side :=
  first [ apply (log_grows_app _ _ []); cbn; now rewrite app_nil_r
        | eapply log_grows_app; cbn; reflexivity ].

Ltac log_step :=
  first
    [ apply along_ret; try apply _
    | apply along_get; try apply _
    | apply along_raise; try apply _
    | apply log_grows_of_keeps;
        first [ apply keeps_os_makedirs_rec; intros ? ?; reflexivity
              | apply keeps_print_menu; intros ? ?; reflexivity ]
    | match goal with
      | |- along _ selection_loop =>
          intros ? ? ? Hs; unfold selection_loop in Hs;
          apply (keeps_select_prompts w_log) in Hs;
          [ apply (log_grows_app _ _ []); now rewrite app_nil_r
          | intros ? ?; reflexivity | intros ? ?; reflexivity ]
      end
    | apply along_datetime_now; intros ? ?; log_side
    | apply along_modify; intros ?; log_side
    | apply along_when; [try apply _ |]
    | apply along_try_except; [try apply _ | | intros ?]
    | match goal with
      | |- along _ (match ?x with _ => _ end) => destruct x
      | |- along _ (let '(_, _) := ?x in _) => destruct x
      end
    | apply along_bind; [try apply _ | | intros ?] ].

Lemma log_grows_commit_to_github U E R : along log_grows (commit_to_github U E R).
Proof.
  unfold commit_to_github, commit_to_github_body, setup_repo, setup_repo_body,
    create_journal_entry, entry_is_current, path_relative_to,
    Repo_open, Repo_init, config_set_value, force_text, git_add, git_diff_staged,
    git_commit,
    repo_remote_names, git_push, git_cmd, require_repo, open_write, os_makedirs,
    os_path_getmtime, stamp_now, os_path_exists, os_path_isdir.
  repeat log_step.
Qed.

Lemma commit_to_github_returns U E R w :
  ~ In Interrupt (w_stdin w) -> exists b w', commit_to_github U E R w = (Ret b, w').
Proof.
  intros Hno. destruct (commit_to_github U E R w) as [[b|e] w'] eqn:Ec; [eauto|].
  exfalso. apply Hno.
  unfold commit_to_github, try_except in Ec.
  destruct (commit_to_github_body U E R w) as [[b|e0] w1] eqn:Eb; [discriminate Ec|].
  destruct (is_Exception e0) eqn:Ee; [discriminate Ec|].
  destruct (contained_commit_to_github_body U E R _ _ _ Eb) as [_ [Hx|[_ Hk]]];
    [congruence | exact Hk].
Qed.

(** X16. [run_journal_bot] reports what [commit_to_github] returned.
    The log is only ever appended to; a run with no interrupt waiting on
    standard input always returns, its first record is "Running journal
    bot...", and its last record is the verdict: INFO "Journal bot
    completed successfully!" when [commit_to_github] returned [True],
    ERROR "Journal bot failed to complete." when it returned [False]. *)
Theorem run_journal_bot_reports_the_verdict U E R w :
  ~ In Interrupt (w_stdin w) ->
  exists b w1 mid,
    commit_to_github U E R
      (set_log (w_log w ++ [(INFO, "Running journal bot...")]) w) = (Ret b, w1)
    /\ w_log w1 = w_log w ++ [(INFO, "Running journal bot...")] ++ mid
    /\ run_journal_bot U E R w
       = (Ret tt,
          set_log (w_log w1 ++
                   [if b then (INFO, "Journal bot completed successfully!")
                    else (ERROR, "Journal bot failed to complete.")]) w1).
Proof.
  intros Hno.
  set (w0 := set_log (w_log w ++ [(INFO, "Running journal bot...")]) w).
  destruct (commit_to_github_returns U E R w0 Hno) as (b & w1 & Hc).
  pose proof (log_grows_commit_to_github U E R _ _ _ Hc) as [mid Hmid].
  exists b, w1, mid. split; [exact Hc|]. split.
  - rewrite Hmid. unfold w0. cbn [w_log set_log]. now rewrite <- app_assoc.
  - unfold run_journal_bot. rewrite logger_info_then. fold w0.
    rewrite (bind_eq_ret _ _ _ _ _ Hc). now destruct b.
Qed.

Lemma run_journal_bot_reports_the_verdict_witness :
  exists b w1 mid,
    commit_to_github (Some "me") (Some "me@example.org") Sample.root
      (set_log (w_log (Sample.first_run [Line "done"])
                ++ [(INFO, "Running journal bot...")])
               (Sample.first_run [Line "done"])) = (Ret b, w1)
    /\ w_log w1 = w_log (Sample.first_run [Line "done"])
                  ++ [(INFO, "Running journal bot...")] ++ mid
    /\ run_journal_bot (Some "me") (Some "me@example.org") Sample.root (Sample.first_run [Line "done"])
       = (Ret tt,
          set_log (w_log w1 ++
                   [if b then (INFO, "Journal bot completed successfully!")
                    else (ERROR, "Journal bot failed to complete.")]) w1).
Proof.
  apply (run_journal_bot_reports_the_verdict (Some "me") (Some "me@example.org") Sample.root
           (Sample.first_run [Line "done"])).
  cbn. intros [H|[]]. discriminate H.
Defined.

(* ===================================================================== *)
(** ** Edges of entry creation *)
(* ===================================================================== *)

(** X17. An entry that was last written before today's local midnight
    does not count: when the entry file of the current date exists with
    such a modification time, [create_journal_entry] asks its questions
    and writes the file anew; the content is the new heading, the
    selected prompts and the footer, whatever the file held. *)
Theorem stale_entry_is_written_anew R w old t sel wl :
  let today := w_clock w (w_tick w) in
  normal_dir R = true ->
  can_create R w = true ->
  w_fs w !! file_path R today = Some (File old t) ->
  select_prompts (w_stdin w) 1 [] (ready_to_ask R w) = (Ret sel, wl) ->
  t < timestamp (w_utcoff w) (replace_midnight today)
  /\ exists w' mtime,
       create_journal_entry R w = (Ret (file_path R today), w')
       /\ w_fs w' !! file_path R today
          = Some (File (entry_body (date_str today) sel
                        +:+ entry_footer (w_clock wl (w_tick wl))) mtime).
Proof.
  intros today HR Hcan Hfile Hsel. split.
  - unfold can_create in Hcan. fold today in Hcan.
    apply andb_prop in Hcan as [_ Hnot]. apply negb_true_iff in Hnot.
    unfold current_in in Hnot. rewrite Hfile in Hnot. cbn [node_mtime] in Hnot.
    apply Z.leb_gt in Hnot. exact Hnot.
  - eexists _, _. split.
    + exact (create_journal_entry_creates R w sel wl HR Hcan Hsel).
    + apply entry_written_file.
Qed.

Lemma stale_entry_is_written_anew_witness :
  exists w' mtime,
    create_journal_entry Sample.root (stale_entry [Line "done"])
    = (Ret "/home/me/bot/journals/march-2024/05/2024-03-05.md", w')
    /\ w_fs w' !! "/home/me/bot/journals/march-2024/05/2024-03-05.md"
       = Some (File ("# Journal Entry: 2024-03-05" +:+ nl +:+ nl +:+ nl
                     +:+ "Created automatically by Journal Bot on 2024-03-05 09:00:01")
                    mtime).
Proof.
  destruct (stale_entry_is_written_anew Sample.root (stale_entry [Line "done"])
              "old text" 0 []
              (snd (select_prompts [Line "done"] 1 []
                      (ready_to_ask Sample.root (stale_entry [Line "done"])))))
    as [_ (w' & mtime & Hrun & Hfile)].
  - reflexivity.
  - vm_compute. reflexivity.
  - vm_compute. reflexivity.
  - vm_compute. reflexivity.
  - exists w', mtime. split; [exact Hrun | exact Hfile].
Defined.

(** X18. The number printed before a prompt is the number that selects
    it: the menu numbers the prompts from 1, the [k]-th line of the
    menu is "[k]. " followed by the [k]-th prompt, and answering [k]
    selects that very prompt. *)
Theorem menu_number_selects_its_prompt (i : nat) p :
  nth_error JOURNAL_PROMPTS i = Some p ->
  let k := str_of_int (Z.of_nat i + 1) in
  (forall w, w_stdout (snd (print_menu 1 JOURNAL_PROMPTS w))
             = w_stdout w ++ menu_items 1 JOURNAL_PROMPTS)
  /\ nth_error (menu_items 1 JOURNAL_PROMPTS) i = Some ((k +:+ ". " +:+ p) +:+ nl)
  /\ classify (strip k) = Pick p.
Proof.
  intros H k. split.
  - intros w.
    pose proof (print_menu_then JOURNAL_PROMPTS 1 (ret tt) (w_stdout w) w) as E.
    replace (set_stdout (w_stdout w) w) with w in E by now destruct w.
    assert (Eb : forall m : M unit, snd ((m ;;; ret tt) w) = snd (m w)).
    { intros m. unfold bind, ret. destruct (m w) as [[[]|e] w1]; reflexivity. }
    rewrite <- Eb, E. reflexivity.
  - subst k.
    do 10 (destruct i as [|i];
           [cbn [nth_error JOURNAL_PROMPTS] in H; injection H as <-;
            split; vm_compute; reflexivity|]).
    destruct i; discriminate H.
Qed.

Lemma menu_number_selects_its_prompt_witness :
  nth_error (menu_items 1 JOURNAL_PROMPTS) 2
  = Some (("3" +:+ ". " +:+ "What am I grateful for today?") +:+ nl)
  /\ classify (strip "3") = Pick "What am I grateful for today?".
Proof.
  destruct (menu_number_selects_its_prompt 2 "What am I grateful for today?")
    as (_ & Hline & Hpick).
  - reflexivity.
  - split; [exact Hline | exact Hpick].
Defined.

Lemma keeps_git_view_select_prompts inp count sel w r w' :
  select_prompts inp count sel w = (r, w') -> git_view w' = git_view w.
Proof.
  intros H. apply (keeps_select_prompts git_view) in H;
    [exact H | intros ? ?; reflexivity | intros ? ?; reflexivity].
Qed.

Lemma ensured_git_view d msg w : git_view (ensured d msg w) = git_view w.
Proof. unfold ensured. now destruct (w_fs w !! d). Qed.

(** X19. A run whose answers end early fails without a trace in git:
    when [setup_repo] gave a handle and the answer loop raises an
    exception that derives from [Exception] (standard input is at its
    end before [done] or the third answer), [commit_to_github] returns
    [False] and logs the error; nothing was staged or committed (no
    git command ran after [setup_repo]) and the entry path holds what
    it held. *)
Theorem early_end_of_input_fails_cleanly U E R w repo w1 e wl :
  normal_dir R = true ->
  setup_repo U E R w = (Ret (Some repo), w1) ->
  can_create R w1 = true ->
  select_prompts (w_stdin w1) 1 [] (ready_to_ask R w1) = (Raise e, wl) ->
  is_Exception e = true ->
  let today := w_clock w1 (w_tick w1) in
  commit_to_github U E R w
  = (Ret false,
     set_log (w_log wl ++ [(ERROR, "Error committing to GitHub: " +:+ exn_msg e)]) wl)
  /\ w_git wl = w_git w1 /\ w_git_calls wl = w_git_calls w1
  /\ w_fs wl !! file_path R today = w_fs w1 !! file_path R today.
Proof.
  intros HR Hsetup Hcan Hsel He today.
  pose proof (create_journal_entry_cut_short R w1 e wl HR Hcan Hsel) as Hrun.
  split; [|split; [|split]].
  - unfold commit_to_github.
    rewrite (try_except_caught _ _ _ w e wl); [reflexivity | | exact He].
    unfold commit_to_github_body.
    rewrite (bind_eq_ret _ _ _ _ _ Hsetup).
    now rewrite (bind_eq_raise _ _ _ _ _ Hrun).
  - apply keeps_git_view_select_prompts in Hsel.
    unfold ready_to_ask in Hsel.
    change (git_view (set_stdout ?o ?x)) with (git_view x) in Hsel.
    rewrite !ensured_git_view in Hsel. now inversion Hsel.
  - apply keeps_git_view_select_prompts in Hsel.
    unfold ready_to_ask in Hsel.
    change (git_view (set_stdout ?o ?x)) with (git_view x) in Hsel.
    rewrite !ensured_git_view in Hsel. now inversion Hsel.
  - destruct (select_prompts_extends _ _ _ _ _ _ Hsel) as (_ & Hfs & _).
    rewrite Hfs.
    destruct (ready_to_ask_fs R w1 HR Hcan) as (_ & _ & _ & Hf). exact Hf.
Qed.

Lemma early_end_of_input_fails_cleanly_witness :
  let w := with_origin (fun _ => None) [Line "1"] in
  let e := mk_exn EOFError "EOF when reading a line" in
  let wl := snd (select_prompts [Line "1"] 1 [] (ready_to_ask Sample.root w)) in
  let today := w_clock w (w_tick w) in
  commit_to_github None None Sample.root w
  = (Ret false,
     set_log (w_log wl ++ [(ERROR, "Error committing to GitHub: " +:+ exn_msg e)]) wl)
  /\ w_git wl = w_git w /\ w_git_calls wl = w_git_calls w
  /\ w_fs wl !! file_path Sample.root today = w_fs w !! file_path Sample.root today.
Proof.
  cbv zeta.
  apply (early_end_of_input_fails_cleanly None None Sample.root
           (with_origin (fun _ => None) [Line "1"]) (mk_handle Sample.root)
           (with_origin (fun _ => None) [Line "1"])
           (mk_exn EOFError "EOF when reading a line")).
  - reflexivity.
  - vm_compute. reflexivity.
  - vm_compute. reflexivity.
  - vm_compute. reflexivity.
  - reflexivity.
Defined.

